(** * QLinearConv (CPU provider): a shallow embedding of qlinearconv.cc

    The development follows the source file
    [onnxruntime/core/providers/cpu/nn/qlinearconv.cc]:

    - [ConvAttributesInFlight] : the per-call geometry (its constructor);
    - [ReorderFilter], [ComputeMaxThreadCount] : the private helpers;
    - [PrePack] : the one-time weight preparation;
    - [CheckAndGetZeroPoint], [CheckAndGetScale] : parameter validation;
    - [Compute] : the per-call driver.

    Integers are [Z]; [size_t] and [int32_t] conversions have their
    wrap-around written out.  Buffers are lists, a null pointer is [None].
    The numeric kernels of the math backend (MLAS) are opaque: a call to one
    of them is recorded as an [Event] that carries the arguments of the call,
    so that a run of [PrePack] or [Compute] yields the status it returns, the
    new kernel state and the trace of allocations and backend calls. *)

From Stdlib Require Import String ZArith List Bool Lia SpecFloat.
Import ListNotations.
Local Open Scope Z_scope.

(** ** Status and exceptions *)

Inductive StatusCode : Type :=
| OK
| FAIL
| INVALID_ARGUMENT
| INVALID_SHAPE.

(** [Status::OK()] and [ORT_MAKE_STATUS(ONNXRUNTIME, code, msg)]. *)
Record Status : Type := MakeStatus {
  Code : StatusCode;
  ErrorMessage : string
}.

Definition Status_OK : Status := MakeStatus OK "".

Definition IsOK (s : Status) : bool :=
  match Code s with OK => true | _ => false end.

(** A call either returns a [Status] to its caller or leaves through an
    exception ([ORT_ENFORCE], [SafeInt] overflow). *)
Inductive Outcome : Type :=
| Returned (s : Status)
| Thrown (what : string).

(** ** Machine integers *)

Definition size_t_range : Z := 2 ^ 64.

(** [static_cast<size_t>(x)] for a 64-bit [size_t]. *)
Definition to_size_t (x : Z) : Z := x mod size_t_range.

(** [static_cast<int32_t>(x)] of an integer value (two's complement). *)
Definition to_int32 (x : Z) : Z := (x + 2 ^ 31) mod 2 ^ 32 - 2 ^ 31.

(** [SafeInt<size_t>(a) * b]: the product, or an exception on overflow. *)
Definition SafeInt_mul (a b : Z) : option Z :=
  if (0 <=? a * b) && (a * b <? size_t_range) then Some (a * b) else None.

(** The values [0, 1, ..., n-1] of a counting loop ([for (i = 0; i < n; i++)]);
    empty when [n <= 0]. *)
Definition range (n : Z) : list Z := map Z.of_nat (seq 0 (Z.to_nat n)).

(** ** Tensors *)

(** [TensorShape]: the list of dimensions. *)
Definition TensorShape : Type := list Z.

(** [shape[i]]; reading past the rank is undefined in the source and yields
    [0] here. *)
Definition dim (s : TensorShape) (i : Z) : Z := nth (Z.to_nat i) s 0.

Definition NumDimensions (s : TensorShape) : Z := Z.of_nat (length s).

(** [TensorShape::Size]: the number of elements, [1] for a scalar. *)
Definition Size (s : TensorShape) : Z := fold_right Z.mul 1 s.

(** [TensorShape::Slice(start, end)]. *)
Definition Slice (s : TensorShape) (dimstart dimend : Z) : TensorShape :=
  firstn (Z.to_nat (dimend - dimstart)) (skipn (Z.to_nat dimstart) s).

Record Tensor (A : Type) : Type := MakeTensor {
  Shape : TensorShape;
  Data : list A
}.
Arguments MakeTensor {A} _ _.
Arguments Shape {A} _.
Arguments Data {A} _.

(** The filter tensor: raw bytes and whether its element type is [int8_t]. *)
Record WeightTensor : Type := MakeWeight {
  WShape : TensorShape;
  DataRaw : list Z;
  IsInt8 : bool
}.

(** ** ReorderFilter (qlinearconv.cc, lines 100-113) *)

(** The flat offset computed on line 108, in [size_t] arithmetic. *)
Definition ReorderFilter_index (input_channels kernel_size oc ic k : Z) : Z :=
  to_size_t ((oc * input_channels * kernel_size) + (ic * kernel_size) + k).

(** The buffer written through [*output++]: the three nested loops, outermost
    [k], then [ic], then [oc].  A read past the end of [input] is undefined in
    the source and yields [0] here. *)
Definition ReorderFilter (input : list Z)
    (output_channels input_channels kernel_size : Z) : list Z :=
  flat_map (fun k =>
    flat_map (fun ic =>
      map (fun oc =>
             nth (Z.to_nat (ReorderFilter_index input_channels kernel_size oc ic k))
                 input 0)
          (range output_channels))
      (range input_channels))
    (range kernel_size).

(** ** ComputeMaxThreadCount (qlinearconv.cc, lines 131-158) *)

(** [static_cast<int32_t>(x)] of a [double] whose value is the rational
    [num / den], [den > 0]: truncation toward zero.  (Outside the [int32_t]
    range the conversion is undefined in the source; the model wraps.) *)
Definition double_to_int32 (num den : Z) : Z := to_int32 (Z.quot num den).

(** The thread count.  [IsHybrid] is [CPUIDInfo::GetCPUIDInfo().IsHybrid()];
    the other arguments are [conv_attrs.output_image_size] and the two
    [int64_t] parameters.

    The source computes [complexity] in [double].  The model computes it in
    exact integer arithmetic, which gives the same branch and the same result
    on all non-negative arguments: when the exact product is below [2^53]
    every conversion and both multiplications are exact in binary64; when it
    is at least [2^53] the rounded product is at least [2^53] as well
    (rounding is monotone and every non-zero factor is at least [1]), so both
    take the branch that keeps [maximum_thread_count].  The quotient by
    [thread_complexity = 2^16] is exact in binary64. *)
Definition ComputeMaxThreadCount (IsHybrid : bool)
    (output_image_size group_output_channels kernel_dim : Z) : Z :=
  let maximum_thread_count := if IsHybrid then 64 else 16 in
  let thread_complexity := 64 * 1024 in
  let complexity := output_image_size * group_output_channels * kernel_dim in
  let thread_count :=
    if complexity <? thread_complexity * maximum_thread_count
    then double_to_int32 complexity thread_complexity + 1
    else maximum_thread_count in
  let thread_count :=
    if thread_count >? output_image_size
    then to_int32 output_image_size
    else thread_count in
  thread_count.


(** ** ConvAttributes (conv_attributes.h) *)

Module ConvAttributes.

(** The attributes read from the node: [group] and the optional [pads],
    [dilations] and [strides] (empty when absent). *)
Record t : Type := Make {
  group : Z;
  pads : list Z;
  dilations : list Z;
  strides : list Z
}.

(** Modelled from the spec: [ConvAttributes::ComputeKernelShape], declared in
    conv_attributes.h, which is not among the sources.  The kernel rank is
    computed from the weight rank: the kernel shape is the weight shape
    without its two leading (channel) dimensions. *)
Definition ComputeKernelShape (W_shape : TensorShape) : list Z :=
  skipn 2 W_shape.

(** Modelled from the spec: one inferred output spatial dimension,
    [floor((input + pad_begin + pad_end - dilation*(kernel-1) - 1)/stride) + 1]. *)
Definition ComputeOutputDim
    (input pad_begin pad_end dilation kernel stride : Z) : Z :=
  (input + pad_begin + pad_end - dilation * (kernel - 1) - 1) / stride + 1.

(** Modelled from the spec: [ConvAttributes::InferOutputShape], declared in
    conv_attributes.h, which is not among the sources.  It appends the
    inferred spatial dimensions to [Y_dims], and fails with [InvalidShape]
    when a resulting dimension is negative or when the number of pads,
    strides or dilations is inconsistent with the kernel rank. *)
Definition InferOutputShape (input_shape : TensorShape)
    (kernel_shape strides dilations pads Y_dims : list Z) : Status * list Z :=
  let rank := length kernel_shape in
  if (length pads =? 2 * rank)%nat && (length strides =? rank)%nat
     && (length dilations =? rank)%nat
  then
    let inferred :=
      map (fun i =>
             ComputeOutputDim (nth i input_shape 0)
               (nth i pads 0) (nth (rank + i) pads 0)
               (nth i dilations 1) (nth i kernel_shape 0) (nth i strides 1))
          (seq 0 rank) in
    if existsb (fun d => d <? 0) inferred
    then (MakeStatus INVALID_SHAPE "Invalid input shape", Y_dims)
    else (Status_OK, Y_dims ++ inferred)
  else (MakeStatus INVALID_SHAPE "Out of bound access to array", Y_dims).

(** Modelled from the spec: [ConvAttributes::HasStridesOneAndNoPadding],
    declared in conv_attributes.h, which is not among the sources: the
    pointwise case, every stride [1] and every pad [0]. *)
Definition HasStridesOneAndNoPadding (a : t) : bool :=
  forallb (fun v => v =? 1) (strides a) && forallb (fun v => v =? 0) (pads a).

End ConvAttributes.

(** ** ConvAttributesInFlight (qlinearconv.cc, lines 16-85) *)

(** The result of running a constructor: the object, or the exception that
    [ORT_ENFORCE] raises. *)
Inductive Construction (A : Type) : Type :=
| Constructed (a : A)
| EnforceFailed (what : string).
Arguments Constructed {A} _.
Arguments EnforceFailed {A} _.

Module ConvAttributesInFlight.

Record t : Type := Make {
  M : Z;
  N : Z;
  C : Z;
  group : Z;
  channels_last_ : bool;
  kernel_rank : Z;
  input_image_size : Z;
  output_image_size : Z;
  kernel_size : Z;
  pads : list Z;
  dilations : list Z;
  strides : list Z;
  kernel_shape : TensorShape;
  input_shape : TensorShape;
  output_shape : TensorShape;
  Y_shape : TensorShape
}.

(** Lines 25-54: the preparation of the call to
    [conv_attrs.InferOutputShape] and its result, the status and [Y_dims]. *)
Definition inferred (conv_attrs : ConvAttributes.t) (X_shape W_shape : TensorShape)
    (channel_last : bool) : Status * list Z :=
  let N := dim X_shape 0 in
  let M := dim W_shape 0 in
  let kernel_shape_dims := ConvAttributes.ComputeKernelShape W_shape in
  let kernel_rank := Z.of_nat (length kernel_shape_dims) in
  let pads :=
    match ConvAttributes.pads conv_attrs with
    | [] => repeat 0 (Z.to_nat (kernel_rank * 2))
    | p => p
    end in
  let dilations :=
    match ConvAttributes.dilations conv_attrs with
    | [] => repeat 1 (Z.to_nat kernel_rank)
    | d => d
    end in
  let strides :=
    match ConvAttributes.strides conv_attrs with
    | [] => repeat 1 (Z.to_nat kernel_rank)
    | s => s
    end in
  let Y_dims := [N] in
  let Y_dims := if negb channel_last then Y_dims ++ [M] else Y_dims in
  let spatial_dim_start := if channel_last then 1 else 2 in
  let spatial_dim_end := spatial_dim_start + kernel_rank in
  let input_shape := Slice X_shape spatial_dim_start spatial_dim_end in
  ConvAttributes.InferOutputShape input_shape kernel_shape_dims
                                  strides dilations pads Y_dims.

(** The condition that [ORT_ENFORCE] reports on line 54. *)
Definition enforce_message : string :=
  "conv_attrs.InferOutputShape(input_shape, kernel_shape_dims, strides, dilations, pads, Y_dims).IsOK()".

(** The constructor, lines 17-67. *)
Definition ctor (conv_attrs : ConvAttributes.t) (X_shape W_shape : TensorShape)
    (channel_last : bool) : Construction t :=
  let N := dim X_shape 0 in
  let M := dim W_shape 0 in
  let kernel_shape_dims := ConvAttributes.ComputeKernelShape W_shape in
  let kernel_rank := Z.of_nat (length kernel_shape_dims) in
  let C := dim X_shape (if channel_last then 1 + kernel_rank else 1) in
  let pads :=
    match ConvAttributes.pads conv_attrs with
    | [] => repeat 0 (Z.to_nat (kernel_rank * 2))
    | p => p
    end in
  let dilations :=
    match ConvAttributes.dilations conv_attrs with
    | [] => repeat 1 (Z.to_nat kernel_rank)
    | d => d
    end in
  let strides :=
    match ConvAttributes.strides conv_attrs with
    | [] => repeat 1 (Z.to_nat kernel_rank)
    | s => s
    end in
  let spatial_dim_start := if channel_last then 1 else 2 in
  let spatial_dim_end := spatial_dim_start + kernel_rank in
  let input_shape := Slice X_shape spatial_dim_start spatial_dim_end in
  let inferred := inferred conv_attrs X_shape W_shape channel_last in
  if negb (IsOK (fst inferred))
  then EnforceFailed enforce_message
  else
    let Y_dims := snd inferred in
    let Y_dims := if channel_last then Y_dims ++ [M] else Y_dims in
    let Y_shape := Y_dims in
    let output_shape := Slice Y_shape spatial_dim_start spatial_dim_end in
    Constructed
      {| M := M; N := N; C := C;
         group := ConvAttributes.group conv_attrs;
         channels_last_ := channel_last;
         kernel_rank := kernel_rank;
         input_image_size := Size input_shape;
         output_image_size := Size output_shape;
         kernel_size := Size kernel_shape_dims;
         pads := pads; dilations := dilations; strides := strides;
         kernel_shape := kernel_shape_dims;
         input_shape := input_shape;
         output_shape := output_shape;
         Y_shape := Y_shape |}.

End ConvAttributesInFlight.

(** ** The collaborators: math backend, CPU identification, thread pool *)

(** The parts of the platform that the kernel consults and that are not part
    of this file: each is a parameter of the model. *)
Record Platform : Type := MakePlatform {
  (** [CPUIDInfo::GetCPUIDInfo().IsHybrid()] *)
  IsHybrid : bool;
  (** [MlasGemmPackBSize(N, K, BIsSigned)]: the size of a packed block in
      bytes, [0] when packing is not supported. *)
  MlasGemmPackBSize : Z -> Z -> bool -> Z;
  (** [MlasGemmPackB(N, K, B, ldb, BIsSigned, PackedB)]: the opaque packed
      block written to [PackedB]. *)
  MlasGemmPackB : Z -> Z -> list Z -> Z -> bool -> list Z;
  (** [concurrency::ThreadPool::PartitionWork(batch, num_batches, total)]:
      the bounds [(start, end)] of a tile. *)
  PartitionWork : Z -> Z -> Z -> Z * Z
}.

(** ** Buffers, and the trace of a run *)

(** The buffers that the source addresses, under the names of its locals. *)
Inductive Buffer : Type :=
| Xdata
| Ydata
| transpose_input_buffer
| transpose_output_buffer
| col_buffer
| padding_data
| gemm_output
| packed_W_buffer
| reordered_W.

(** A pointer: a buffer and an element offset into it. *)
Record Pointer : Type := At {
  base : Buffer;
  offset : Z
}.

(** binary32, the [float] of the source: IEEE 754 single precision as
    specified by the Standard Library. *)
Definition float : Type := spec_float.
Definition float_mul : float -> float -> float := SFmul 24 128.
Definition float_div : float -> float -> float := SFdiv 24 128.
(** The literal [1.f]. *)
Definition float_one : float := S754_finite false 8388608 (-23).

(** [MLAS_GEMM_U8X8_PARAMETERS] as filled in on lines 604-621; [ldb] is left
    unset on the packed path. *)
Record MLAS_GEMM_U8X8_PARAMETERS : Type := MakeGemm {
  gemm_M : Z;
  gemm_N : Z;
  gemm_K : Z;
  gemm_A : Pointer;
  gemm_lda : Z;
  gemm_ZeroPointA : Z;
  gemm_B : Pointer;
  gemm_ldb : option Z;
  gemm_BIsPacked : bool;
  gemm_ZeroPointB : Z;
  gemm_BIsSigned : bool;
  gemm_C : Pointer;
  gemm_ldc : Z
}.

(** The four overloads of [math::Im2col] that the source calls. *)
Inductive Im2colKind : Type :=
| Im2col_1d
| Im2col_2d
| Im2col_Nd
| Im2col_indirection.

(** What a run does besides returning: allocations, the request for the output
    tensor, and the calls into the math backend with their arguments. *)
Inductive Event : Type :=
| Alloc (bytes : Z)
| ContextOutput (index : Z) (shape : TensorShape)
| CallReorderFilter (output_channels input_channels kernel_size : Z)
| CallMlasGemmPackBSize (N K : Z) (BIsSigned : bool)
| CallMlasGemmPackB (N K : Z) (B : list Z) (ldb : Z) (BIsSigned : bool)
| CallMlasTranspose (Input Output : Pointer) (M N : Z)
| CallIm2col (kind : Im2colKind) (data_im : Pointer)
    (group_channels input_channels : Z) (output_start output_count : Z)
    (data_col : Pointer) (padding_value : Z)
| CallMlasConvDepthwise (Input : Pointer) (InputZeroPoint : Z)
    (Filter : Pointer) (FilterZeroPoint : Z) (FilterIsSigned : bool)
    (Output : Pointer) (Channels OutputCount KernelSize : Z)
| CallMlasGemm (Parameters : MLAS_GEMM_U8X8_PARAMETERS)
| CallMlasRequantizeOutput (Input Output : Pointer) (Bias : bool)
    (M N : Z) (Scale : list float) (PerColumnScale : bool) (ZeroPoint : Z).

(** ** The kernel instance (qlinearconv.cc, lines 87-168) *)

Record QLinearConv : Type := MakeQLinearConv {
  conv_attrs_ : ConvAttributes.t;
  W_shape_ : TensorShape;
  (** the packed blocks, one per group; [None] is the null pointer *)
  packed_W_buffer_ : option (list (list Z));
  packed_W_size_ : Z;
  reordered_W_buffer_ : option (list Z);
  is_W_signed_ : bool;
  is_W_packed_ : bool;
  channels_last_ : bool
}.

(** The constructor, lines 89-94.  [packed_W_size_] is not initialised by the
    source; it is read only after [PrePack] has set it. *)
Definition QLinearConv_new (conv_attrs : ConvAttributes.t) (channels_last : bool)
    : QLinearConv :=
  {| conv_attrs_ := conv_attrs;
     W_shape_ := [];
     packed_W_buffer_ := None;
     packed_W_size_ := 0;
     reordered_W_buffer_ := None;
     is_W_signed_ := false;
     is_W_packed_ := false;
     channels_last_ := channels_last |}.

(** ** PrePack (qlinearconv.cc, lines 202-276) *)

(** A run of [PrePack]: what it returns, the [is_packed] reference parameter,
    the kernel instance afterwards, and the trace. *)
Record PrePackRun : Type := MakePrePackRun {
  prepack_result : Outcome;
  is_packed : bool;
  prepack_self : QLinearConv;
  prepack_trace : list Event
}.

(** The product of [std::accumulate(..., 1LL, std::multiplies<int64_t>())]. *)
Definition accumulate_multiplies (l : list Z) : Z := fold_left Z.mul l 1.

(** Lines 268-275: the unpacked, reordered representation of the whole filter. *)
Definition PrePack_reorder (self : QLinearConv) (Wdata : list Z)
    (output_channels group_input_channels kernel_size : Z)
    (trace : list Event) : PrePackRun :=
  match SafeInt_mul 1 output_channels with
  | None => MakePrePackRun (Thrown "SafeInt overflow") false self trace
  | Some b1 =>
    match SafeInt_mul b1 group_input_channels with
    | None => MakePrePackRun (Thrown "SafeInt overflow") false self trace
    | Some b2 =>
      match SafeInt_mul b2 kernel_size with
      | None => MakePrePackRun (Thrown "SafeInt overflow") false self trace
      | Some bytes =>
        let reordered :=
          ReorderFilter Wdata output_channels group_input_channels kernel_size in
        MakePrePackRun (Returned Status_OK) true
          {| conv_attrs_ := conv_attrs_ self;
             W_shape_ := W_shape_ self;
             packed_W_buffer_ := packed_W_buffer_ self;
             packed_W_size_ := packed_W_size_ self;
             reordered_W_buffer_ := Some reordered;
             is_W_signed_ := is_W_signed_ self;
             is_W_packed_ := true;
             channels_last_ := channels_last_ self |}
          (trace ++ [Alloc bytes;
                     CallReorderFilter output_channels group_input_channels kernel_size])
      end
    end
  end.

(** [PrePack(tensor, input_idx, is_packed)].  The remainder [%] by a zero
    [group] is undefined in the source; [Z.rem] returns the dividend there.
    Allocation itself is assumed to succeed. *)
Definition PrePack (env : Platform) (self : QLinearConv)
    (tensor : WeightTensor) (input_idx : Z) : PrePackRun :=
  if negb (input_idx =? 3)
  then MakePrePackRun (Returned Status_OK) false self []
  else
    let shape := WShape tensor in
    let rank := Z.of_nat (length shape) in
    if rank <=? 2
    then MakePrePackRun (Returned Status_OK) false self []
    else if negb (Z.rem (dim shape 0) (ConvAttributes.group (conv_attrs_ self)) =? 0)
    then MakePrePackRun (Returned Status_OK) false self []
    else
      let output_channels := to_size_t (dim shape 0) in
      let group_input_channels := to_size_t (dim shape 1) in
      let kernel_size := to_size_t (accumulate_multiplies (skipn 2 shape)) in
      let Wdata := DataRaw tensor in
      let is_W_signed := IsInt8 tensor in
      let group_count := to_size_t (ConvAttributes.group (conv_attrs_ self)) in
      let group_output_channels := output_channels / group_count in
      let kernel_dim := to_size_t (group_input_channels * kernel_size) in
      let self1 :=
        {| conv_attrs_ := conv_attrs_ self;
           W_shape_ := shape;
           packed_W_buffer_ := packed_W_buffer_ self;
           packed_W_size_ := packed_W_size_ self;
           reordered_W_buffer_ := reordered_W_buffer_ self;
           is_W_signed_ := is_W_signed;
           is_W_packed_ := is_W_packed_ self;
           channels_last_ := channels_last_ self |} in
      (* Don't pack the filter buffer if the MlasConvDepthwise path is used. *)
      if negb (group_input_channels =? 1) && negb (group_output_channels =? 1)
      then
        let packed_W_size := MlasGemmPackBSize env group_output_channels kernel_dim true in
        let self2 :=
          {| conv_attrs_ := conv_attrs_ self1;
             W_shape_ := W_shape_ self1;
             packed_W_buffer_ := packed_W_buffer_ self1;
             packed_W_size_ := packed_W_size;
             reordered_W_buffer_ := reordered_W_buffer_ self1;
             is_W_signed_ := is_W_signed_ self1;
             is_W_packed_ := is_W_packed_ self1;
             channels_last_ := channels_last_ self1 |} in
        let query := [CallMlasGemmPackBSize group_output_channels kernel_dim true] in
        if negb (packed_W_size =? 0)
        then
          match SafeInt_mul group_count packed_W_size with
          | None => MakePrePackRun (Thrown "SafeInt overflow") false self2 query
          | Some packed_bytes =>
            let W_offset := to_size_t (group_output_channels * kernel_dim) in
            let groups := range (ConvAttributes.group (conv_attrs_ self)) in
            let group_reordered_W := fun group_id =>
              ReorderFilter (skipn (Z.to_nat (group_id * W_offset)) Wdata)
                            group_output_channels group_input_channels kernel_size in
            MakePrePackRun (Returned Status_OK) true
              {| conv_attrs_ := conv_attrs_ self2;
                 W_shape_ := W_shape_ self2;
                 packed_W_buffer_ :=
                   Some (map (fun group_id =>
                                MlasGemmPackB env group_output_channels kernel_dim
                                  (group_reordered_W group_id)
                                  group_output_channels is_W_signed)
                             groups);
                 packed_W_size_ := packed_W_size;
                 reordered_W_buffer_ := reordered_W_buffer_ self2;
                 is_W_signed_ := is_W_signed_ self2;
                 is_W_packed_ := true;
                 channels_last_ := channels_last_ self2 |}
              (query
               ++ [Alloc packed_bytes;
                   Alloc (to_size_t (to_size_t (group_output_channels * group_input_channels)
                                     * kernel_size))]
               ++ flat_map (fun group_id =>
                    [CallReorderFilter group_output_channels group_input_channels kernel_size;
                     CallMlasGemmPackB group_output_channels kernel_dim
                       (group_reordered_W group_id) group_output_channels is_W_signed])
                    groups)
          end
        else
          PrePack_reorder self2 Wdata output_channels group_input_channels kernel_size query
      else
        PrePack_reorder self1 Wdata output_channels group_input_channels kernel_size [].

(** ** The inputs of a call *)

(** [OpKernelContext]: the nine inputs by index (the last three are optional,
    [None] is the null pointer), the outcome of [GetTempSpaceAllocator], and
    the degree of parallelism of the operator thread pool. *)
Record OpKernelContext : Type := MakeContext {
  Input_X : Tensor Z;                        (* 0 *)
  Input_X_scale : Tensor float;              (* 1 *)
  Input_X_zero_point : Tensor Z;             (* 2 *)
  Input_W : WeightTensor;                    (* 3 *)
  Input_W_scale : Tensor float;              (* 4 *)
  Input_W_zero_point : Tensor Z;             (* 5 *)
  Input_Y_scale : option (Tensor float);     (* 6 *)
  Input_Y_zero_point : option (Tensor Z);    (* 7 *)
  Input_B : option (Tensor Z);               (* 8 *)
  GetTempSpaceAllocator : Status;
  DegreeOfParallelism : Z
}.

(** Modelled from the spec: [IsScalarOr1ElementVector], declared in
    core/providers/common.h, which is not among the sources: the tensor is a
    scalar or a one-dimensional tensor with a single element. *)
Definition IsScalarOr1ElementVector {A : Type} (input : Tensor A) : bool :=
  (NumDimensions (Shape input) =? 0)
  || ((NumDimensions (Shape input) =? 1) && (Size (Shape input) =? 1)).

(** ** CheckAndGetZeroPoint (qlinearconv.cc, lines 278-316) *)

(** The three reference parameters come in with the values the caller gave
    them and go out with what the function wrote before it returned:
    [(X_zero_point_value, Y_zero_point_value, W_zero_point_value)]. *)
Definition CheckAndGetZeroPoint
    (X_zero_point W_zero_point : Tensor Z) (Y_zero_point : option (Tensor Z))
    (conv_attrs : ConvAttributesInFlight.t)
    (X_zero_point_value Y_zero_point_value W_zero_point_value : Z)
    : Status * (Z * Z * Z) :=
  if negb (IsScalarOr1ElementVector X_zero_point)
  then (MakeStatus INVALID_ARGUMENT
          "QLinearConv : input zero point must be a scalar or 1D tensor of size 1",
        (X_zero_point_value, Y_zero_point_value, W_zero_point_value))
  else
    let X_zero_point_value := nth 0 (Data X_zero_point) 0 in
    let check_W := fun Y_zero_point_value =>
      let W_zero_point_shape := Shape W_zero_point in
      if (NumDimensions W_zero_point_shape =? 0)
         || ((NumDimensions W_zero_point_shape =? 1)
             && ((dim W_zero_point_shape 0 =? 1)
                 || (dim W_zero_point_shape 0 =? ConvAttributesInFlight.M conv_attrs)))
      then
        let W_zero_point_size := Size W_zero_point_shape in
        let W_zero_point_data := Data W_zero_point in
        let W_zero_point_value := nth 0 W_zero_point_data 0 in
        if existsb (fun i =>
                      negb (nth (Z.to_nat i) W_zero_point_data 0 =? W_zero_point_value))
                   (map (Z.add 1) (range (W_zero_point_size - 1)))
        then (MakeStatus INVALID_ARGUMENT
                "QLinearConv : filter zero point must be constant",
              (X_zero_point_value, Y_zero_point_value, W_zero_point_value))
        else (Status_OK,
              (X_zero_point_value, Y_zero_point_value, W_zero_point_value))
      else (MakeStatus INVALID_ARGUMENT
              "QLinearConv : filter zero point shape invalid",
            (X_zero_point_value, Y_zero_point_value, W_zero_point_value)) in
    match Y_zero_point with
    | Some Y_zero_point =>
      if negb (IsScalarOr1ElementVector Y_zero_point)
      then (MakeStatus INVALID_ARGUMENT
              "QLinearConv : result zero point must be a scalar or 1D tensor of size 1",
            (X_zero_point_value, Y_zero_point_value, W_zero_point_value))
      else check_W (nth 0 (Data Y_zero_point) 0)
    | None => check_W Y_zero_point_value
    end.

(** ** CheckAndGetScale (qlinearconv.cc, lines 318-355) *)

(** The reference parameters again go in and out:
    [(X_scale_value, Y_scale_value, output_scales)]. *)
Definition CheckAndGetScale
    (X_scale W_scale : Tensor float) (Y_scale : option (Tensor float))
    (conv_attrs : ConvAttributesInFlight.t)
    (X_scale_value Y_scale_value : float) (output_scales : list float)
    : Status * (float * float * list float) :=
  if negb (IsScalarOr1ElementVector X_scale)
  then (MakeStatus INVALID_ARGUMENT
          "QLinearConv : input scale must be a scalar or 1D tensor of size 1",
        (X_scale_value, Y_scale_value, output_scales))
  else
    let X_scale_value := nth 0 (Data X_scale) (S754_zero false) in
    let check_W := fun Y_scale_value =>
      let W_scale_shape := Shape W_scale in
      if (NumDimensions W_scale_shape =? 0)
         || ((NumDimensions W_scale_shape =? 1)
             && ((dim W_scale_shape 0 =? 1)
                 || (dim W_scale_shape 0 =? ConvAttributesInFlight.M conv_attrs)))
      then
        let W_scale_size := Size W_scale_shape in
        let W_scale_data := Data W_scale in
        let output_scales :=
          map (fun i =>
                 let W_scale_i := nth (Z.to_nat i) W_scale_data (S754_zero false) in
                 match Y_scale with
                 | Some _ => float_div (float_mul X_scale_value W_scale_i) Y_scale_value
                 | None => float_mul X_scale_value W_scale_i
                 end)
              (range W_scale_size) in
        (Status_OK, (X_scale_value, Y_scale_value, output_scales))
      else (MakeStatus INVALID_ARGUMENT "QLinearConv : filter scale shape invalid",
            (X_scale_value, Y_scale_value, output_scales)) in
    match Y_scale with
    | Some Y_scale =>
      if negb (IsScalarOr1ElementVector Y_scale)
      then (MakeStatus INVALID_ARGUMENT
              "QLinearConv : result scale must be a scalar or 1D tensor of size 1",
            (X_scale_value, Y_scale_value, output_scales))
      else check_W (nth 0 (Data Y_scale) (S754_zero false))
    | None => check_W Y_scale_value
    end.

(** ** Sequencing statements that may leave the function *)

(** A statement either falls through to the next one with a value, or leaves
    the function: a [return] or an exception. *)
Inductive Flow (A : Type) : Type :=
| Next (a : A)
| Leave (o : Outcome).
Arguments Next {A} _.
Arguments Leave {A} _.

(** The trace written so far, and how the statement ended. *)
Definition Exec (A : Type) : Type := (list Event * Flow A)%type.

Definition ret {A : Type} (a : A) : Exec A := ([], Next a).

Definition bind {A B : Type} (m : Exec A) (k : A -> Exec B) : Exec B :=
  match snd m with
  | Next a => (fst m ++ fst (k a), snd (k a))
  | Leave o => (fst m, Leave o)
  end.

Notation "x <- m ;; k" := (bind m (fun x => k))
  (at level 61, m at next level, right associativity).
Notation "m ;;; k" := (bind m (fun _ => k))
  (at level 61, right associativity).

Definition emit (trace : list Event) : Exec unit := (trace, Next tt).

Definition leave {A : Type} (o : Outcome) : Exec A := ([], Leave o).

(** [alloc->Alloc(SafeInt<size_t>(...) * ...)]: the allocation, or the
    exception of the size computation.  Allocation itself is assumed to
    succeed. *)
Definition alloc (bytes : option Z) : Exec unit :=
  match bytes with
  | Some b => emit [Alloc b]
  | None => leave (Thrown "SafeInt overflow")
  end.

(** [ORT_RETURN_IF_ERROR(expr)]. *)
Definition ORT_RETURN_IF_ERROR (s : Status) : Exec unit :=
  if IsOK s then ret tt else leave (Returned s).

(** Running a constructor whose [ORT_ENFORCE] may throw. *)
Definition construct {A : Type} (c : Construction A) : Exec A :=
  match c with
  | Constructed a => ret a
  | EnforceFailed what => leave (Thrown what)
  end.

(** A run of [Compute]: what it returns or throws, and the trace. *)
Record ComputeRun : Type := MakeComputeRun {
  compute_result : Outcome;
  compute_trace : list Event
}.

Definition finish (body : Exec Status) : ComputeRun :=
  match snd body with
  | Next s => MakeComputeRun (Returned s) (fst body)
  | Leave o => MakeComputeRun o (fst body)
  end.

(** ** Compute (qlinearconv.cc, lines 357-653) *)

Definition ptr_add (p : Pointer) (n : Z) : Pointer := At (base p) (offset p + n).

(** Lines 418-430: the test for depthwise convolution and the group geometry
    that the rest of [Compute] works with. *)
Record GroupDispatch : Type := MakeDispatch {
  is_depthwise_conv : bool;
  group_count : Z;
  group_input_channels : Z;
  group_output_channels : Z
}.

(** The division [/] by a zero [group] is undefined in the source; [Z.quot]
    returns [0] there. *)
Definition Compute_dispatch (conv_attrs : ConvAttributesInFlight.t)
    (W_shape : TensorShape) (reordered_W : option (list Z)) : GroupDispatch :=
  let group_count := ConvAttributesInFlight.group conv_attrs in
  let group_input_channels := dim W_shape 1 in
  let group_output_channels := Z.quot (ConvAttributesInFlight.M conv_attrs) group_count in
  (* Test for depthwise convolution. *)
  let is_depthwise_conv :=
    (match reordered_W with Some _ => true | None => false end)
    && (group_input_channels =? 1) && (group_output_channels =? 1) in
  if is_depthwise_conv
  then MakeDispatch true 1 group_count group_count
  else MakeDispatch false group_count group_input_channels group_output_channels.

(** The locals of [Compute] that the image loop and [conv_worker] read. *)
Record Locals : Type := MakeLocals {
  conv_attrs : ConvAttributesInFlight.t;
  dispatch : GroupDispatch;
  kernel_dim : Z;
  col_buffer_size : Z;
  has_col_buffer : bool;
  W_is_packed : bool;           (* [packed_W_buffer_] is not null *)
  packed_W_size : Z;
  is_W_signed : bool;
  X_zero_point_value : Z;
  Y_zero_point_value : Z;
  W_zero_point_value : Z;
  output_scales : list float;
  has_Bdata : bool;             (* [Bdata] is not null *)
  thread_count : Z
}.

(** Lines 549-623: one group of one tile: the im2col transform, if any, and
    the matrix multiply. *)
Definition conv_worker_group (l : Locals) (input_data : Pointer)
    (output_start output_count : Z) (worker_gemm_output : Pointer)
    (group_id : Z) : list Event :=
  let ca := conv_attrs l in
  let d := dispatch l in
  let prepared :=
    if has_col_buffer l
    then
      let worker_col_buffer := At col_buffer (output_start * kernel_dim l) in
      if ConvAttributesInFlight.kernel_rank ca =? 2
      then ([CallIm2col Im2col_2d
               (ptr_add input_data (group_id * group_input_channels d))
               (group_input_channels d) (ConvAttributesInFlight.C ca)
               output_start output_count worker_col_buffer (X_zero_point_value l)],
            worker_col_buffer)
      else if ConvAttributesInFlight.kernel_rank ca =? 1
      then ([CallIm2col Im2col_1d
               (ptr_add input_data (group_id * group_input_channels d))
               (group_input_channels d) (ConvAttributesInFlight.C ca)
               output_start output_count worker_col_buffer (X_zero_point_value l)],
            worker_col_buffer)
      else
        (* Use the im2col buffer prepared outside the thread, indexed by group. *)
        ([], ptr_add worker_col_buffer (group_id * col_buffer_size l))
    else ([], ptr_add input_data (output_start * kernel_dim l)) in
  let worker_gemm_input := snd prepared in
  fst prepared
  ++ [CallMlasGemm
        {| gemm_M := to_size_t output_count;
           gemm_N := to_size_t (group_output_channels d);
           gemm_K := to_size_t (kernel_dim l);
           gemm_A := worker_gemm_input;
           gemm_lda := to_size_t (kernel_dim l);
           gemm_ZeroPointA := X_zero_point_value l;
           gemm_B :=
             if W_is_packed l
             then At packed_W_buffer (group_id * packed_W_size l)
             else At reordered_W (group_id * group_output_channels d);
           gemm_ldb :=
             if W_is_packed l
             then None
             else Some (to_size_t (ConvAttributesInFlight.M ca));
           gemm_BIsPacked := W_is_packed l;
           gemm_ZeroPointB := W_zero_point_value l;
           gemm_BIsSigned := is_W_signed l;
           gemm_C := ptr_add worker_gemm_output (group_id * group_output_channels d);
           gemm_ldc := to_size_t (ConvAttributesInFlight.M ca) |}].

(** Lines 514-635: the lambda [conv_worker], one tile of one image. *)
Definition conv_worker (env : Platform) (l : Locals)
    (input_data output_data : Pointer) (batch : Z) : list Event :=
  let ca := conv_attrs l in
  let d := dispatch l in
  let work := PartitionWork env batch (thread_count l)
                            (ConvAttributesInFlight.output_image_size ca) in
  let output_start := fst work in
  let output_count := snd work - fst work in
  let worker_gemm_output :=
    At gemm_output (output_start * ConvAttributesInFlight.M ca) in
  let worker_requantize_output :=
    ptr_add output_data (output_start * ConvAttributesInFlight.M ca) in
  (if is_depthwise_conv d
   then
     let worker_col_buffer :=
       At col_buffer (output_start * ConvAttributesInFlight.kernel_size ca) in
     [CallIm2col Im2col_indirection input_data
        (ConvAttributesInFlight.C ca) (ConvAttributesInFlight.C ca)
        output_start output_count worker_col_buffer (X_zero_point_value l);
      CallMlasConvDepthwise worker_col_buffer (X_zero_point_value l)
        (At reordered_W 0) (W_zero_point_value l) (is_W_signed l)
        worker_gemm_output
        (to_size_t (ConvAttributesInFlight.M ca))
        (to_size_t output_count)
        (to_size_t (ConvAttributesInFlight.kernel_size ca))]
   else
     flat_map (conv_worker_group l input_data output_start output_count
                                 worker_gemm_output)
              (range (group_count d)))
  ++ [CallMlasRequantizeOutput worker_gemm_output worker_requantize_output
        (has_Bdata l)
        (to_size_t output_count)
        (to_size_t (ConvAttributesInFlight.M ca))
        (output_scales l)
        (1 <? Z.of_nat (length (output_scales l)))
        (Y_zero_point_value l)].

(** Lines 479-650: the body of the loop over the images of the batch.
    [TrySimpleParallelFor] runs [conv_worker] on every batch index below
    [thread_count]; the tiles are independent, the trace lists them in index
    order. *)
Definition Compute_image (env : Platform) (l : Locals) (image_id : Z)
    : list Event :=
  let ca := conv_attrs l in
  let d := dispatch l in
  let channels_last := ConvAttributesInFlight.channels_last_ ca in
  let X_offset := ConvAttributesInFlight.C ca * ConvAttributesInFlight.input_image_size ca in
  let Y_offset := ConvAttributesInFlight.M ca * ConvAttributesInFlight.output_image_size ca in
  let Xdata := At Xdata (image_id * X_offset) in
  let Ydata := At Ydata (image_id * Y_offset) in
  let input_data := if negb channels_last then At transpose_input_buffer 0 else Xdata in
  let output_data := if negb channels_last then At transpose_output_buffer 0 else Ydata in
  (if negb channels_last
   then [CallMlasTranspose Xdata (At transpose_input_buffer 0)
           (to_size_t (ConvAttributesInFlight.C ca))
           (to_size_t (ConvAttributesInFlight.input_image_size ca))]
   else [])
  ++ (if negb (is_depthwise_conv d) && has_col_buffer l
         && (ConvAttributesInFlight.kernel_rank ca >? 2)
      then map (fun group_id =>
                  CallIm2col Im2col_Nd
                    (ptr_add input_data (group_id * group_input_channels d))
                    (group_input_channels d) (ConvAttributesInFlight.C ca)
                    0 (ConvAttributesInFlight.output_image_size ca)
                    (At col_buffer (group_id * col_buffer_size l))
                    (X_zero_point_value l))
               (range (group_count d))
      else [])
  ++ flat_map (conv_worker env l input_data output_data) (range (thread_count l))
  ++ (if negb channels_last
      then [CallMlasTranspose output_data Ydata
              (to_size_t (ConvAttributesInFlight.output_image_size ca))
              (to_size_t (ConvAttributesInFlight.M ca))]
      else []).

(** Lines 398-416: the reordered filter that this call works with, [None]
    when the packed one is used. *)
Definition Compute_reordered_W (self : QLinearConv) (W : option WeightTensor)
    (W_shape : TensorShape) (ca : ConvAttributesInFlight.t)
    : Exec (option (list Z)) :=
  match packed_W_buffer_ self with
  | Some _ => ret None
  | None =>
    match W with
    | None =>
      (* Weight was constant and reordered. *)
      ret (reordered_W_buffer_ self)
    | Some W =>
      (* Weight tensor was not constant or prepacking is disabled. *)
      alloc (SafeInt_mul 1 (Size W_shape)) ;;;
      emit [CallReorderFilter (to_size_t (ConvAttributesInFlight.M ca))
                              (to_size_t (dim W_shape 1))
                              (to_size_t (ConvAttributesInFlight.kernel_size ca))] ;;;
      ret (Some (ReorderFilter (DataRaw W)
                   (to_size_t (ConvAttributesInFlight.M ca))
                   (to_size_t (dim W_shape 1))
                   (to_size_t (ConvAttributesInFlight.kernel_size ca))))
    end
  end.

(** Lines 458-473: the column buffer; the result tells whether [col_buffer]
    is set. *)
Definition Compute_col_buffer (self : QLinearConv) (ca : ConvAttributesInFlight.t)
    (d : GroupDispatch) (col_buffer_size : Z) : Exec bool :=
  if is_depthwise_conv d
  then
    (* Allocate indirection buffer pointers and prepare a padding vector for
       the im2col transform. *)
    alloc (match SafeInt_mul 8 (ConvAttributesInFlight.kernel_size ca) with
           | Some b => SafeInt_mul b (ConvAttributesInFlight.output_image_size ca)
           | None => None
           end) ;;;
    ret true
  else if negb (ConvAttributesInFlight.kernel_size ca =? 1)
          || negb (ConvAttributes.HasStridesOneAndNoPadding (conv_attrs_ self))
  then
    (* Pointwise convolutions can use the original input tensor in place,
       otherwise a temporary buffer is required for the im2col transform. *)
    let group_col_buffer_size :=
      if ConvAttributesInFlight.kernel_rank ca >? 2
      then group_count d * col_buffer_size
      else col_buffer_size in
    alloc (SafeInt_mul 1 group_col_buffer_size) ;;;
    ret true
  else ret false.

(** The filter shape that a call works with (line 360): the shape recorded by
    [PrePack] when the filter was prepared, the shape of input 3 otherwise. *)
Definition Compute_W_shape (self : QLinearConv) (context : OpKernelContext)
    : TensorShape :=
  if is_W_packed_ self then W_shape_ self else WShape (Input_W context).

(** Lines 357-477: everything [Compute] does before the loop over the images.
    It either leaves the function (the early [return], a failed
    [ORT_RETURN_IF_ERROR], an exception) or reaches the loop with its locals
    set. *)
Definition Compute_prepare (env : Platform) (self : QLinearConv)
    (context : OpKernelContext) : Exec Locals :=
  let X := Input_X context in
  let W := if is_W_packed_ self then None else Some (Input_W context) in
  let W_shape := Compute_W_shape self context in
  let is_W_signed := match W with Some W => IsInt8 W | None => is_W_signed_ self end in
  ca <- construct (ConvAttributesInFlight.ctor (conv_attrs_ self) (Shape X)
                                               W_shape (channels_last_ self)) ;;
  (* validate offsets *)
  let zero_points :=
    snd (CheckAndGetZeroPoint (Input_X_zero_point context)
           (Input_W_zero_point context) (Input_Y_zero_point context) ca 0 0 0) in
  (* validate scale *)
  let scales :=
    snd (CheckAndGetScale (Input_X_scale context) (Input_W_scale context)
           (Input_Y_scale context) ca float_one float_one []) in
  let B := Input_B context in
  emit [ContextOutput 0 (ConvAttributesInFlight.Y_shape ca)] ;;;
  (* Bail out early if one of the dimensions is zero. *)
  if Size (ConvAttributesInFlight.Y_shape ca) =? 0
  then leave (Returned Status_OK)
  else
    ORT_RETURN_IF_ERROR (GetTempSpaceAllocator context) ;;;
    (* Handle the case of a dynamic weight filter. *)
    reordered_W <- Compute_reordered_W self W W_shape ca ;;
    let d := Compute_dispatch ca W_shape reordered_W in
    let X_offset := ConvAttributesInFlight.C ca * ConvAttributesInFlight.input_image_size ca in
    let Y_offset := ConvAttributesInFlight.M ca * ConvAttributesInFlight.output_image_size ca in
    let kernel_dim := group_input_channels d * ConvAttributesInFlight.kernel_size ca in
    let col_buffer_size := kernel_dim * ConvAttributesInFlight.output_image_size ca in
    (* Use an intermediate int32_t buffer for the GEMM computation before
       requantizing to the output type. *)
    alloc (SafeInt_mul 4 Y_offset) ;;;
    (* Allocate temporary buffers for transposing to channels last format. *)
    (if negb (channels_last_ self)
     then alloc (SafeInt_mul 1 X_offset) ;;; alloc (SafeInt_mul 1 Y_offset)
     else ret tt) ;;;
    has_col_buffer <- Compute_col_buffer self ca d col_buffer_size ;;
    let thread_count :=
      ComputeMaxThreadCount (IsHybrid env)
        (ConvAttributesInFlight.output_image_size ca)
        (group_output_channels d) kernel_dim in
    let thread_count := Z.min thread_count (DegreeOfParallelism context) in
    ret {| conv_attrs := ca;
           dispatch := d;
           kernel_dim := kernel_dim;
           col_buffer_size := col_buffer_size;
           has_col_buffer := has_col_buffer;
           W_is_packed :=
             match packed_W_buffer_ self with Some _ => true | None => false end;
           packed_W_size := packed_W_size_ self;
           is_W_signed := is_W_signed;
           X_zero_point_value := fst (fst zero_points);
           Y_zero_point_value := snd (fst zero_points);
           W_zero_point_value := snd zero_points;
           output_scales := snd scales;
           has_Bdata := match B with Some _ => true | None => false end;
           thread_count := thread_count |}.

(** [Compute(context)]: the preparation, then the images of the batch one after
    the other.  The kernel instance is read, never written. *)
Definition Compute (env : Platform) (self : QLinearConv)
    (context : OpKernelContext) : ComputeRun :=
  finish (
    l <- Compute_prepare env self context ;;
    emit (flat_map (Compute_image env l)
                   (range (ConvAttributesInFlight.N (conv_attrs l)))) ;;;
    ret Status_OK).

(** ** Kernel instances that the framework hands to [Compute] *)

(** The session builds the kernel and then offers it each constant input
    once, through [PrePack]; only input 3 is taken. *)
Inductive Prepared (env : Platform) : QLinearConv -> Prop :=
| Prepared_new : forall conv_attrs channels_last,
    Prepared env (QLinearConv_new conv_attrs channels_last)
| Prepared_weight : forall conv_attrs channels_last tensor,
    Prepared env
      (prepack_self (PrePack env (QLinearConv_new conv_attrs channels_last) tensor 3))
| Prepared_other : forall self tensor input_idx,
    input_idx <> 3 ->
    Prepared env self ->
    Prepared env (prepack_self (PrePack env self tensor input_idx)).

(** ** Reading a trace *)

Definition is_Alloc (e : Event) : bool :=
  match e with Alloc _ => true | _ => false end.

Definition is_packing_call (e : Event) : bool :=
  match e with
  | CallMlasGemmPackBSize _ _ _ | CallMlasGemmPackB _ _ _ _ _ => true
  | _ => false
  end.

Definition is_MlasConvDepthwise (e : Event) : bool :=
  match e with CallMlasConvDepthwise _ _ _ _ _ _ _ _ _ => true | _ => false end.

Definition is_MlasGemm (e : Event) : bool :=
  match e with CallMlasGemm _ => true | _ => false end.

Definition is_MlasRequantizeOutput (e : Event) : bool :=
  match e with CallMlasRequantizeOutput _ _ _ _ _ _ _ _ => true | _ => false end.

(** The event resizes the output tensor or stores into it: the request for
    output 0, or a backend call whose destination is in [Ydata]. *)
Definition touches_output (e : Event) : bool :=
  match e with
  | ContextOutput _ _ => true
  | CallMlasTranspose _ Output _ _ =>
    match base Output with Ydata => true | _ => false end
  | CallMlasRequantizeOutput _ Output _ _ _ _ _ _ =>
    match base Output with Ydata => true | _ => false end
  | _ => false
  end.

(** ** What [PrePack] establishes *)

(** The kernel instances that [Compute] meets: a packed buffer is set only
    together with a recorded filter shape that has more than one input channel
    per group, and a prepared filter without packed buffer has its reordered
    buffer. *)
Definition consistent (self : QLinearConv) : Prop :=
  (packed_W_buffer_ self <> None ->
   is_W_packed_ self = true /\ dim (W_shape_ self) 1 <> 1)
  /\ (is_W_packed_ self = true -> packed_W_buffer_ self = None ->
      reordered_W_buffer_ self <> None).

(** The quantization parameters of the filter may be a scalar, a single
    element, or one element per output channel (lines 301-302 and 340-341). *)
Definition per_tensor_or_per_channel (shape : TensorShape) (M : Z) : Prop :=
  NumDimensions shape = 0
  \/ (NumDimensions shape = 1 /\ (dim shape 0 = 1 \/ dim shape 0 = M)).

(** The two results of the validation step of [Compute] (lines 365-384), for
    the statements about them. *)
Definition Compute_zero_points (context : OpKernelContext)
    (ca : ConvAttributesInFlight.t) : Status * (Z * Z * Z) :=
  CheckAndGetZeroPoint (Input_X_zero_point context) (Input_W_zero_point context)
                       (Input_Y_zero_point context) ca 0 0 0.

Definition Compute_scales (context : OpKernelContext)
    (ca : ConvAttributesInFlight.t) : Status * (float * float * list float) :=
  CheckAndGetScale (Input_X_scale context) (Input_W_scale context)
                   (Input_Y_scale context) ca float_one float_one [].

(** ** Sample inputs *)

(** A platform on which packing is supported, for running the model: a packed
    block of 64 bytes whatever the shape, tiles of equal size. *)
Definition sample_platform : Platform :=
  {| IsHybrid := false;
     MlasGemmPackBSize := fun _ _ _ => 64;
     MlasGemmPackB := fun _ _ B _ _ => B;
     PartitionWork := fun batch num_batches total =>
       (batch * (total / num_batches), (batch + 1) * (total / num_batches)) |}.

(** A kernel with [group = 1] and no other attribute, channels first. *)
Definition sample_kernel : QLinearConv :=
  QLinearConv_new (ConvAttributes.Make 1 [] [] []) false.

(** Scalar tensors. *)
Definition scalar {A : Type} (v : A) : Tensor A := MakeTensor [] [v].

(** A call with every quantization parameter a scalar: scales [1.f], zero
    points [0], no bias, the given input and filter. *)
Definition sample_context (X : Tensor Z) (W : WeightTensor) : OpKernelContext :=
  {| Input_X := X;
     Input_X_scale := scalar float_one;
     Input_X_zero_point := scalar 0;
     Input_W := W;
     Input_W_scale := scalar float_one;
     Input_W_zero_point := scalar 0;
     Input_Y_scale := Some (scalar float_one);
     Input_Y_zero_point := Some (scalar 0);
     Input_B := None;
     GetTempSpaceAllocator := Status_OK;
     DegreeOfParallelism := 4 |}.

(** The same call with another input zero point. *)
Definition with_X_zero_point (context : OpKernelContext) (zp : Tensor Z)
    : OpKernelContext :=
  {| Input_X := Input_X context;
     Input_X_scale := Input_X_scale context;
     Input_X_zero_point := zp;
     Input_W := Input_W context;
     Input_W_scale := Input_W_scale context;
     Input_W_zero_point := Input_W_zero_point context;
     Input_Y_scale := Input_Y_scale context;
     Input_Y_zero_point := Input_Y_zero_point context;
     Input_B := Input_B context;
     GetTempSpaceAllocator := GetTempSpaceAllocator context;
     DegreeOfParallelism := DegreeOfParallelism context |}.

(** The same call with another filter zero point. *)
Definition with_W_zero_point (context : OpKernelContext) (zp : Tensor Z)
    : OpKernelContext :=
  {| Input_X := Input_X context;
     Input_X_scale := Input_X_scale context;
     Input_X_zero_point := Input_X_zero_point context;
     Input_W := Input_W context;
     Input_W_scale := Input_W_scale context;
     Input_W_zero_point := zp;
     Input_Y_scale := Input_Y_scale context;
     Input_Y_zero_point := Input_Y_zero_point context;
     Input_B := Input_B context;
     GetTempSpaceAllocator := GetTempSpaceAllocator context;
     DegreeOfParallelism := DegreeOfParallelism context |}.

(** The same call with other output quantization parameters. *)
Definition with_Y_quantization (context : OpKernelContext)
    (Y_scale : option (Tensor float)) (Y_zero_point : option (Tensor Z))
    : OpKernelContext :=
  {| Input_X := Input_X context;
     Input_X_scale := Input_X_scale context;
     Input_X_zero_point := Input_X_zero_point context;
     Input_W := Input_W context;
     Input_W_scale := Input_W_scale context;
     Input_W_zero_point := Input_W_zero_point context;
     Input_Y_scale := Y_scale;
     Input_Y_zero_point := Y_zero_point;
     Input_B := Input_B context;
     GetTempSpaceAllocator := GetTempSpaceAllocator context;
     DegreeOfParallelism := DegreeOfParallelism context |}.

(** A 2x2 image with one channel under two 1x1 filters. *)
Definition pointwise_context : OpKernelContext :=
  sample_context (MakeTensor [1; 1; 2; 2] [1; 2; 3; 4])
                 (MakeWeight [2; 1; 1; 1] [1; 1] false).

(** The geometry that [pointwise_context] gives the sample kernel. *)
Definition pointwise_geometry : ConvAttributesInFlight.t :=
  {| ConvAttributesInFlight.M := 2;
     ConvAttributesInFlight.N := 1;
     ConvAttributesInFlight.C := 1;
     ConvAttributesInFlight.group := 1;
     ConvAttributesInFlight.channels_last_ := false;
     ConvAttributesInFlight.kernel_rank := 2;
     ConvAttributesInFlight.input_image_size := 4;
     ConvAttributesInFlight.output_image_size := 4;
     ConvAttributesInFlight.kernel_size := 1;
     ConvAttributesInFlight.pads := [0; 0; 0; 0];
     ConvAttributesInFlight.dilations := [1; 1];
     ConvAttributesInFlight.strides := [1; 1];
     ConvAttributesInFlight.kernel_shape := [1; 1];
     ConvAttributesInFlight.input_shape := [2; 2];
     ConvAttributesInFlight.output_shape := [2; 2];
     ConvAttributesInFlight.Y_shape := [1; 2; 2; 2] |}.

(** The call with an input zero point of two elements: a malformed shape. *)
Definition malformed_X_zero_point_context : OpKernelContext :=
  with_X_zero_point pointwise_context (MakeTensor [2] [5; 6]).

(** The call with a per-channel filter zero point that is not constant. *)
Definition non_constant_W_zero_point_context : OpKernelContext :=
  with_W_zero_point pointwise_context (MakeTensor [2] [3; 4]).

(** A 3x3 image with one channel under one 2x2 filter: one input and one
    output channel per group. *)
Definition depthwise_context : OpKernelContext :=
  sample_context (MakeTensor [1; 1; 3; 3] (repeat 2 9))
                 (MakeWeight [1; 1; 2; 2] [1; 1; 1; 1] false).

(** The locals with which [depthwise_context] reaches the image loop. *)
Definition depthwise_locals : Locals :=
  {| conv_attrs :=
       {| ConvAttributesInFlight.M := 1;
          ConvAttributesInFlight.N := 1;
          ConvAttributesInFlight.C := 1;
          ConvAttributesInFlight.group := 1;
          ConvAttributesInFlight.channels_last_ := false;
          ConvAttributesInFlight.kernel_rank := 2;
          ConvAttributesInFlight.input_image_size := 9;
          ConvAttributesInFlight.output_image_size := 4;
          ConvAttributesInFlight.kernel_size := 4;
          ConvAttributesInFlight.pads := [0; 0; 0; 0];
          ConvAttributesInFlight.dilations := [1; 1];
          ConvAttributesInFlight.strides := [1; 1];
          ConvAttributesInFlight.kernel_shape := [2; 2];
          ConvAttributesInFlight.input_shape := [3; 3];
          ConvAttributesInFlight.output_shape := [2; 2];
          ConvAttributesInFlight.Y_shape := [1; 1; 2; 2] |};
     dispatch := MakeDispatch true 1 1 1;
     kernel_dim := 4;
     col_buffer_size := 16;
     has_col_buffer := true;
     W_is_packed := false;
     packed_W_size := 0;
     is_W_signed := false;
     X_zero_point_value := 0;
     Y_zero_point_value := 0;
     W_zero_point_value := 0;
     output_scales := [float_one];
     has_Bdata := false;
     thread_count := 1 |}.

(** The binary32 values 1.5, 0.5, 2, 0.75 and 3. *)
Definition float_1_5 : float := S754_finite false 12582912 (-23).
Definition float_0_5 : float := S754_finite false 8388608 (-24).
Definition float_2 : float := S754_finite false 8388608 (-22).
Definition float_0_75 : float := S754_finite false 12582912 (-24).
Definition float_3 : float := S754_finite false 12582912 (-22).

(** The pointwise call with per-channel filter parameters and neither
    [Y_scale] nor [Y_zero_point]. *)
Definition unscaled_context : OpKernelContext :=
  {| Input_X := MakeTensor [1; 1; 2; 2] [1; 2; 3; 4];
     Input_X_scale := scalar float_1_5;
     Input_X_zero_point := scalar 7;
     Input_W := MakeWeight [2; 1; 1; 1] [1; 1] false;
     Input_W_scale := MakeTensor [2] [float_0_5; float_2];
     Input_W_zero_point := MakeTensor [2] [9; 9];
     Input_Y_scale := None;
     Input_Y_zero_point := None;
     Input_B := None;
     GetTempSpaceAllocator := Status_OK;
     DegreeOfParallelism := 4 |}.

(** The locals with which [unscaled_context] reaches the image loop. *)
Definition unscaled_locals : Locals :=
  {| conv_attrs := pointwise_geometry;
     dispatch := MakeDispatch false 1 1 2;
     kernel_dim := 1;
     col_buffer_size := 4;
     has_col_buffer := false;
     W_is_packed := false;
     packed_W_size := 0;
     is_W_signed := false;
     X_zero_point_value := 7;
     Y_zero_point_value := 0;
     W_zero_point_value := 9;
     output_scales := [float_0_75; float_3];
     has_Bdata := false;
     thread_count := 1 |}.

(** ** Binary64 arithmetic *)

(** binary64, the [double] of the source: IEEE 754 double precision as
    specified by the Standard Library. *)
Definition double : Type := spec_float.
Definition double_mul : double -> double -> double := SFmul 53 1024.
Definition double_div : double -> double -> double := SFdiv 53 1024.
Definition double_ltb : double -> double -> bool := SFltb.

(** [static_cast<double>(x)] of an integer: rounding to nearest, ties to
    even. *)
Definition double_of_int (x : Z) : double := binary_normalize 53 1024 x 0 false.

(** [static_cast<int32_t>(x)] of a [double]: truncation toward zero.  The
    conversion of a value outside the [int32_t] range, of an infinity or of a
    NaN is undefined in the source; the model wraps the former and yields the
    least [int32_t] for the latter. *)
Definition int32_of_double (x : double) : Z :=
  match x with
  | S754_zero _ => 0
  | S754_finite s m e =>
    to_int32 (cond_Zopp s (if 0 <=? e then Z.pos m * 2 ^ e else Z.pos m / 2 ^ (- e)))
  | S754_infinity _ | S754_nan => - 2 ^ 31
  end.

(** The doubles that the products of non-negative integers can be: [+0], or a
    normal number that is at least 1 (a full mantissa of 53 bits, an exponent
    of at least -52), or, out of range, [+inf] or a NaN. *)
Definition zero_or_at_least_one (x : double) : Prop :=
  match x with
  | S754_zero s => s = false
  | S754_infinity s => s = false
  | S754_nan => True
  | S754_finite s m e => s = false /\ 2 ^ 52 <= Z.pos m < 2 ^ 53 /\ - 52 <= e
  end.


(** [ComputeMaxThreadCount] once more (lines 131-158), with the [double]
    arithmetic of the source carried out in binary64: the conversions of the
    three [int64_t] values, the two products, the comparison with
    [thread_complexity * maximum_thread_count], the quotient and its
    truncation to [int32_t]. *)
Definition ComputeMaxThreadCount_binary64 (IsHybrid : bool)
    (output_image_size group_output_channels kernel_dim : Z) : Z :=
  let maximum_thread_count := if IsHybrid then 64 else 16 in
  let thread_complexity := double_of_int (64 * 1024) in
  let complexity :=
    double_mul (double_mul (double_of_int output_image_size)
                           (double_of_int group_output_channels))
               (double_of_int kernel_dim) in
  let thread_count :=
    if double_ltb complexity
                  (double_mul thread_complexity (double_of_int maximum_thread_count))
    then int32_of_double (double_div complexity thread_complexity) + 1
    else maximum_thread_count in
  let thread_count :=
    if thread_count >? output_image_size
    then to_int32 output_image_size
    else thread_count in
  thread_count.


(** A double [f] in the place of the integer [x >= 0]: [+0] for [0]; for
    [0 < x < 2^53] the normal double whose value is [x] itself; for
    [x >= 2^53] some normal double with a positive exponent, which is then at
    least [2^53] as well.  The exponent stays at or below [K]. *)
Definition double_holds (K : Z) (x : Z) (f : double) : Prop :=
  (x = 0 /\ f = S754_zero false)
  \/ exists m e,
       f = S754_finite false m e
       /\ 2 ^ 52 <= Z.pos m < 2 ^ 53
       /\ - 52 <= e <= K
       /\ ((e <= 0 /\ Z.pos m = x * 2 ^ (- e)) \/ (1 <= e /\ 2 ^ 53 <= x)).

(** ** Reading a trace, continued *)

Definition is_ContextOutput (e : Event) : bool :=
  match e with ContextOutput _ _ => true | _ => false end.

Definition is_ReorderFilter (e : Event) : bool :=
  match e with CallReorderFilter _ _ _ => true | _ => false end.

Definition is_MlasGemmPackB (e : Event) : bool :=
  match e with CallMlasGemmPackB _ _ _ _ _ => true | _ => false end.

Definition is_MlasTranspose (e : Event) : bool :=
  match e with CallMlasTranspose _ _ _ _ => true | _ => false end.

(** The event is a call into the math backend that reads the input or writes
    a result: a transpose, an im2col transform, a convolution, a matrix
    multiply or a requantization. *)
Definition is_backend_call (e : Event) : bool :=
  match e with
  | CallMlasTranspose _ _ _ _
  | CallIm2col _ _ _ _ _ _ _ _
  | CallMlasConvDepthwise _ _ _ _ _ _ _ _ _
  | CallMlasGemm _
  | CallMlasRequantizeOutput _ _ _ _ _ _ _ _ => true
  | _ => false
  end.

(** What a matrix multiply of a call on packed weights looks like: the packed
    operand, taken from the packed buffer, with no leading dimension. *)
Definition uses_packed_W (e : Event) : Prop :=
  match e with
  | CallMlasGemm p =>
    gemm_BIsPacked p = true /\ base (gemm_B p) = packed_W_buffer /\ gemm_ldb p = None
  | CallReorderFilter _ _ _ => False
  | CallMlasConvDepthwise _ _ _ _ _ _ _ _ _ => False
  | _ => True
  end.

(** The per-column flag that a requantization is called with. *)
Definition requantizes_per_column (flag : bool) (e : Event) : Prop :=
  match e with
  | CallMlasRequantizeOutput _ _ _ _ _ _ PerColumnScale _ => PerColumnScale = flag
  | _ => True
  end.

(** Where the convolution takes its input from: every im2col transform is of
    the given kind, none at all for [None]; every matrix multiply reads the
    column buffer after a transform, the buffer [input] without one. *)
Definition im2col_as (kind : option Im2colKind) (input : Buffer) (e : Event) : Prop :=
  match e with
  | CallIm2col k _ _ _ _ _ _ _ => kind = Some k
  | CallMlasGemm p =>
    base (gemm_A p) = match kind with Some _ => col_buffer | None => input end
  | _ => True
  end.

Definition is_Im2col_indirection (e : Event) : bool :=
  match e with CallIm2col Im2col_indirection _ _ _ _ _ _ _ => true | _ => false end.

(** The calls that carry out the convolution proper: an im2col transform, the
    depthwise primitive or a matrix multiply. *)
Definition is_convolution_call (e : Event) : bool :=
  match e with
  | CallIm2col _ _ _ _ _ _ _ _
  | CallMlasConvDepthwise _ _ _ _ _ _ _ _ _
  | CallMlasGemm _ => true
  | _ => false
  end.

(** A call of the convolution of a channels-first image: it is no transpose,
    it reads the image from the transposed input or from the column buffer,
    and it stores the requantized result into the scratch output. *)
Definition works_on_scratch (e : Event) : Prop :=
  match e with
  | CallMlasTranspose _ _ _ _ => False
  | CallIm2col _ data_im _ _ _ _ _ _ => base data_im = transpose_input_buffer
  | CallMlasGemm p =>
    base (gemm_A p) = col_buffer \/ base (gemm_A p) = transpose_input_buffer
  | CallMlasRequantizeOutput _ Output _ _ _ _ _ _ =>
    base Output = transpose_output_buffer
  | _ => True
  end.

(** ** Sample inputs, continued *)

(** The pointwise call in a context whose temporary allocator is missing. *)
Definition no_allocator_context : OpKernelContext :=
  {| Input_X := MakeTensor [1; 1; 2; 2] [1; 2; 3; 4];
     Input_X_scale := scalar float_one;
     Input_X_zero_point := scalar 0;
     Input_W := MakeWeight [2; 1; 1; 1] [1; 1] false;
     Input_W_scale := scalar float_one;
     Input_W_zero_point := scalar 0;
     Input_Y_scale := Some (scalar float_one);
     Input_Y_zero_point := Some (scalar 0);
     Input_B := None;
     GetTempSpaceAllocator := MakeStatus FAIL "no allocator";
     DegreeOfParallelism := 4 |}.

(** A kernel with [group = 2], channels first. *)
Definition grouped_kernel : QLinearConv :=
  QLinearConv_new (ConvAttributes.Make 2 [] [] []) false.

(** A 3x3 image with two channels under two 2x2 filters in two groups: a
    depthwise convolution with one input and one output channel per group. *)
Definition grouped_depthwise_context : OpKernelContext :=
  sample_context (MakeTensor [1; 2; 3; 3] (repeat 2 18))
                 (MakeWeight [2; 1; 2; 2] (repeat 1 8) false).

(** Two images of 128x256 positions with one channel under two 1x1 filters:
    a complexity of [64 * 1024], for two tiles per image. *)
Definition tiled_context : OpKernelContext :=
  sample_context (MakeTensor [2; 1; 128; 256] (repeat 0 (Z.to_nat 65536)))
                 (MakeWeight [2; 1; 1; 1] [1; 1] false).

(** The pointwise call with per-channel filter parameters and both [Y_scale]
    and [Y_zero_point]. *)
Definition scaled_context : OpKernelContext :=
  with_Y_quantization unscaled_context (Some (scalar float_2)) (Some (scalar 128)).

(** The locals with which [grouped_depthwise_context] reaches the image loop
    on [grouped_kernel]. *)
Definition grouped_depthwise_locals : Locals :=
  {| conv_attrs :=
       {| ConvAttributesInFlight.M := 2;
          ConvAttributesInFlight.N := 1;
          ConvAttributesInFlight.C := 2;
          ConvAttributesInFlight.group := 2;
          ConvAttributesInFlight.channels_last_ := false;
          ConvAttributesInFlight.kernel_rank := 2;
          ConvAttributesInFlight.input_image_size := 9;
          ConvAttributesInFlight.output_image_size := 4;
          ConvAttributesInFlight.kernel_size := 4;
          ConvAttributesInFlight.pads := [0; 0; 0; 0];
          ConvAttributesInFlight.dilations := [1; 1];
          ConvAttributesInFlight.strides := [1; 1];
          ConvAttributesInFlight.kernel_shape := [2; 2];
          ConvAttributesInFlight.input_shape := [3; 3];
          ConvAttributesInFlight.output_shape := [2; 2];
          ConvAttributesInFlight.Y_shape := [1; 2; 2; 2] |};
     dispatch := MakeDispatch true 1 2 2;
     kernel_dim := 8;
     col_buffer_size := 32;
     has_col_buffer := true;
     W_is_packed := false;
     packed_W_size := 0;
     is_W_signed := false;
     X_zero_point_value := 0;
     Y_zero_point_value := 0;
     W_zero_point_value := 0;
     output_scales := [float_one];
     has_Bdata := false;
     thread_count := 1 |}.

(** The locals with which [tiled_context] reaches the image loop. *)
Definition tiled_locals : Locals :=
  {| conv_attrs :=
       {| ConvAttributesInFlight.M := 2;
          ConvAttributesInFlight.N := 2;
          ConvAttributesInFlight.C := 1;
          ConvAttributesInFlight.group := 1;
          ConvAttributesInFlight.channels_last_ := false;
          ConvAttributesInFlight.kernel_rank := 2;
          ConvAttributesInFlight.input_image_size := 32768;
          ConvAttributesInFlight.output_image_size := 32768;
          ConvAttributesInFlight.kernel_size := 1;
          ConvAttributesInFlight.pads := [0; 0; 0; 0];
          ConvAttributesInFlight.dilations := [1; 1];
          ConvAttributesInFlight.strides := [1; 1];
          ConvAttributesInFlight.kernel_shape := [1; 1];
          ConvAttributesInFlight.input_shape := [128; 256];
          ConvAttributesInFlight.output_shape := [128; 256];
          ConvAttributesInFlight.Y_shape := [2; 2; 128; 256] |};
     dispatch := MakeDispatch false 1 1 2;
     kernel_dim := 1;
     col_buffer_size := 32768;
     has_col_buffer := false;
     W_is_packed := false;
     packed_W_size := 0;
     is_W_signed := false;
     X_zero_point_value := 0;
     Y_zero_point_value := 0;
     W_zero_point_value := 0;
     output_scales := [float_one];
     has_Bdata := false;
     thread_count := 2 |}.

(** The locals with which [scaled_context] reaches the image loop. *)
Definition scaled_locals : Locals :=
  {| conv_attrs := pointwise_geometry;
     dispatch := MakeDispatch false 1 1 2;
     kernel_dim := 1;
     col_buffer_size := 4;
     has_col_buffer := false;
     W_is_packed := false;
     packed_W_size := 0;
     is_W_signed := false;
     X_zero_point_value := 7;
     Y_zero_point_value := 128;
     W_zero_point_value := 9;
     output_scales := [float_div float_0_75 float_2; float_div float_3 float_2];
     has_Bdata := false;
     thread_count := 1 |}.

(** * Properties *)

(** ** Lists written by nested counting loops *)

Lemma range_length (n : Z) : length (range n) = Z.to_nat n.
Proof. unfold range. now rewrite length_map, length_seq. Qed.

Lemma range_nth (n : Z) (i : nat) :
  (i < Z.to_nat n)%nat -> nth i (range n) 0 = Z.of_nat i.
Proof.
  intros Hi. unfold range.
  change 0 with (Z.of_nat 0).
  rewrite map_nth, seq_nth by assumption. reflexivity.
Qed.

Lemma map_nth_in {A B : Type} (f : A -> B) (l : list A) (da : A) (db : B) (i : nat) :
  (i < length l)%nat -> nth i (map f l) db = f (nth i l da).
Proof.
  intros Hi. rewrite (nth_indep _ db (f da)) by (now rewrite length_map).
  apply map_nth.
Qed.

Lemma flat_map_length_uniform {A B : Type} (f : A -> list B) (m : nat) (l : list A) :
  (forall x, length (f x) = m) ->
  length (flat_map f l) = (length l * m)%nat.
Proof.
  intros Hf. induction l as [|a l IH]; simpl; [reflexivity|].
  now rewrite length_app, Hf, IH.
Qed.

Lemma flat_map_nth_uniform {A B : Type} (f : A -> list B) (m : nat)
    (l : list A) (da : A) (db : B) (i j : nat) :
  (forall x, length (f x) = m) ->
  (i < length l)%nat -> (j < m)%nat ->
  nth (i * m + j) (flat_map f l) db = nth j (f (nth i l da)) db.
Proof.
  intros Hf. revert i. induction l as [|a l IH]; intros i Hi Hj; simpl in Hi.
  - lia.
  - simpl flat_map. destruct i as [|i].
    + simpl. rewrite app_nth1 by (rewrite Hf; exact Hj). reflexivity.
    + rewrite app_nth2 by (rewrite Hf; simpl; lia).
      rewrite Hf. replace (S i * m + j - m)%nat with (i * m + j)%nat by (simpl; lia).
      simpl nth. apply IH; lia.
Qed.

(** C6. [ReorderFilter] is a pure index permutation from output-channel-major
    to kernel-minor order: for all [oc < output_channels],
    [ic < input_channels] and [k < kernel_size] of a filter that fits the
    address space, the output element at position
    [(k*input_channels + ic)*output_channels + oc] is the input element at
    position [(oc*input_channels + ic)*kernel_size + k]. *)
Theorem ReorderFilter_permutation :
  forall (input : list Z) (output_channels input_channels kernel_size oc ic k : Z),
    0 <= oc < output_channels ->
    0 <= ic < input_channels ->
    0 <= k < kernel_size ->
    output_channels * input_channels * kernel_size < size_t_range ->
    nth (Z.to_nat ((k * input_channels + ic) * output_channels + oc))
        (ReorderFilter input output_channels input_channels kernel_size) 0
    = nth (Z.to_nat ((oc * input_channels + ic) * kernel_size + k)) input 0.
Proof.
  intros input OC IC KS oc ic k Hoc Hic Hk Hfit.
  unfold ReorderFilter.
  set (inner := fun k0 ic0 =>
    map (fun oc0 => nth (Z.to_nat (ReorderFilter_index IC KS oc0 ic0 k0)) input 0)
        (range OC)).
  set (mid := fun k0 => flat_map (inner k0) (range IC)).
  assert (Hinner : forall k0 ic0, length (inner k0 ic0) = Z.to_nat OC).
  { intros. unfold inner. now rewrite length_map, range_length. }
  assert (Hmid : forall k0, length (mid k0) = (Z.to_nat IC * Z.to_nat OC)%nat).
  { intros. unfold mid.
    rewrite (flat_map_length_uniform _ (Z.to_nat OC)) by apply Hinner.
    now rewrite range_length. }
  replace (Z.to_nat ((k * IC + ic) * OC + oc))
    with (Z.to_nat k * (Z.to_nat IC * Z.to_nat OC)
          + (Z.to_nat ic * Z.to_nat OC + Z.to_nat oc))%nat by nia.
  rewrite (flat_map_nth_uniform mid _ _ 0 0) by
    (try apply Hmid; try rewrite range_length; nia).
  rewrite range_nth by lia.
  unfold mid.
  rewrite (flat_map_nth_uniform (inner _) _ _ 0 0) by
    (try apply Hinner; try rewrite range_length; lia).
  rewrite range_nth by lia.
  unfold inner.
  rewrite (map_nth_in _ _ 0 0) by (rewrite range_length; lia).
  rewrite range_nth by lia.
  rewrite !Z2Nat.id by lia.
  unfold ReorderFilter_index, to_size_t.
  assert (Hlow : 0 <= oc * IC * KS + ic * KS + k).
  { assert (0 <= oc * IC) by (apply Z.mul_nonneg_nonneg; lia).
    assert (0 <= oc * IC * KS) by (apply Z.mul_nonneg_nonneg; lia).
    assert (0 <= ic * KS) by (apply Z.mul_nonneg_nonneg; lia).
    lia. }
  assert (Hhigh : oc * IC * KS + ic * KS + k < OC * IC * KS).
  { assert ((oc + 1) * (IC * KS) <= OC * (IC * KS)) by (apply Z.mul_le_mono_nonneg_r; [apply Z.mul_nonneg_nonneg|]; lia).
    assert ((ic + 1) * KS <= IC * KS) by (apply Z.mul_le_mono_nonneg_r; lia).
    lia. }
  rewrite Z.mod_small by lia.
  f_equal. f_equal. ring.
Qed.

Lemma ReorderFilter_permutation_witness :
  nth (Z.to_nat ((1 * 2 + 1) * 2 + 0)) (ReorderFilter [10; 11; 12; 13; 14; 15; 16; 17] 2 2 2) 0
  = nth (Z.to_nat ((0 * 2 + 1) * 2 + 1)) [10; 11; 12; 13; 14; 15; 16; 17] 0.
Proof.
  apply (ReorderFilter_permutation [10; 11; 12; 13; 14; 15; 16; 17] 2 2 2 0 1 1);
    unfold size_t_range; lia.
Defined.

Example ComputeMaxThreadCount_small :
  ComputeMaxThreadCount false 4 1 4 = 1.
Proof. reflexivity. Qed.

Example ComputeMaxThreadCount_medium :
  ComputeMaxThreadCount false 1024 64 9 = 10.
Proof. reflexivity. Qed.

Example ComputeMaxThreadCount_large :
  ComputeMaxThreadCount true 1000000 64 576 = 64
  /\ ComputeMaxThreadCount false 1000000 64 576 = 16.
Proof. split; reflexivity. Qed.

Example ComputeMaxThreadCount_few_outputs :
  ComputeMaxThreadCount true 3 4096 4096 = 3.
Proof. reflexivity. Qed.

Lemma to_int32_small (x : Z) : - 2 ^ 31 <= x < 2 ^ 31 -> to_int32 x = x.
Proof.
  intros Hx. unfold to_int32. rewrite Z.mod_small by lia. lia.
Qed.

(** C8. For every geometry with [output_image_size >= 1] (and channel and
    kernel counts that are not negative), [ComputeMaxThreadCount] returns a
    thread count that is at least 1, at most [output_image_size], and at most
    the cap: 64 on hybrid CPU topologies, 16 on homogeneous ones. *)
Theorem ComputeMaxThreadCount_bounds :
  forall (IsHybrid : bool) (output_image_size group_output_channels kernel_dim : Z),
    1 <= output_image_size ->
    0 <= group_output_channels ->
    0 <= kernel_dim ->
    let thread_count :=
      ComputeMaxThreadCount IsHybrid output_image_size group_output_channels kernel_dim in
    1 <= thread_count
    /\ thread_count <= output_image_size
    /\ thread_count <= (if IsHybrid then 64 else 16).
Proof.
  intros IsHybrid ois goc kd Hois Hgoc Hkd. cbv zeta.
  unfold ComputeMaxThreadCount, double_to_int32.
  set (cap := if IsHybrid then 64 else 16).
  assert (Hcap : 16 <= cap <= 64) by (subst cap; destruct IsHybrid; lia).
  set (c := ois * goc * kd).
  assert (Hc : 0 <= c).
  { subst c. apply Z.mul_nonneg_nonneg; [apply Z.mul_nonneg_nonneg|]; lia. }
  change (64 * 1024) with 65536.
  assert (Hfirst :
    1 <= (if c <? 65536 * cap then to_int32 (Z.quot c 65536) + 1 else cap) <= cap).
  { destruct (Z.ltb_spec c (65536 * cap)) as [Hlt|Hge]; [|lia].
    assert (Hq : 0 <= Z.quot c 65536 < cap).
    { rewrite Z.quot_div_nonneg by lia. split.
      - apply Z.div_pos; lia.
      - apply Z.div_lt_upper_bound; lia. }
    rewrite to_int32_small by lia. lia. }
  set (t := if c <? 65536 * cap then to_int32 (Z.quot c 65536) + 1 else cap) in *.
  destruct (Z.gtb_spec t ois) as [Hgt|Hle].
  - rewrite to_int32_small by lia. lia.
  - lia.
Qed.

Lemma ComputeMaxThreadCount_bounds_witness :
  1 <= ComputeMaxThreadCount true 3 4096 4096
  /\ ComputeMaxThreadCount true 3 4096 4096 <= 3
  /\ ComputeMaxThreadCount true 3 4096 4096 <= 64.
Proof.
  apply (ComputeMaxThreadCount_bounds true 3 4096 4096); lia.
Defined.

(** ** PrePack *)

Example PrePack_packs_a_generic_filter :
  let run := PrePack sample_platform sample_kernel
               (MakeWeight [4; 2; 1; 1] [1; 2; 3; 4; 5; 6; 7; 8] false) 3 in
  prepack_result run = Returned Status_OK
  /\ is_packed run = true
  /\ packed_W_buffer_ (prepack_self run) = Some [[1; 3; 5; 7; 2; 4; 6; 8]]
  /\ prepack_trace run =
       [CallMlasGemmPackBSize 4 2 true; Alloc 64; Alloc 8; CallReorderFilter 4 2 1;
        CallMlasGemmPackB 4 2 [1; 3; 5; 7; 2; 4; 6; 8] 4 false].
Proof. repeat split; reflexivity. Qed.

(** C9. For every weight tensor with rank at most 2, or with output channels
    not divisible by [group], [PrePack] returns a success status with
    [is_packed] left false, allocates no buffer (its trace is empty) and leaves
    the kernel instance unchanged. *)
Theorem PrePack_declines :
  forall (env : Platform) (self : QLinearConv) (tensor : WeightTensor) (input_idx : Z),
    (Z.of_nat (length (WShape tensor)) <= 2
     \/ (ConvAttributes.group (conv_attrs_ self) <> 0
         /\ Z.rem (dim (WShape tensor) 0) (ConvAttributes.group (conv_attrs_ self)) <> 0)) ->
    PrePack env self tensor input_idx
    = {| prepack_result := Returned Status_OK;
         is_packed := false;
         prepack_self := self;
         prepack_trace := [] |}.
Proof.
  intros env self tensor input_idx Hdecline.
  unfold PrePack.
  destruct (input_idx =? 3); simpl; [|reflexivity].
  destruct (Z.leb_spec (Z.of_nat (length (WShape tensor))) 2) as [Hrank|Hrank];
    [reflexivity|].
  destruct Hdecline as [Hle|[_ Hrem]]; [lia|].
  destruct (Z.eqb_spec (Z.rem (dim (WShape tensor) 0)
                              (ConvAttributes.group (conv_attrs_ self))) 0)
    as [Hzero|_]; [contradiction|reflexivity].
Qed.

Lemma PrePack_declines_witness :
  PrePack sample_platform
          (QLinearConv_new (ConvAttributes.Make 2 [] [] []) false)
          (MakeWeight [3; 1; 2; 2] (repeat 1%Z 12) false) 3
  = {| prepack_result := Returned Status_OK;
       is_packed := false;
       prepack_self := QLinearConv_new (ConvAttributes.Make 2 [] [] []) false;
       prepack_trace := [] |}.
Proof.
  apply (PrePack_declines sample_platform
           (QLinearConv_new (ConvAttributes.Make 2 [] [] []) false)
           (MakeWeight [3; 1; 2; 2] (repeat 1%Z 12) false) 3).
  right. simpl. split; intro H; discriminate H.
Defined.

(** What line 238 tests: with [&&], packing is tried only when neither the
    group input channels nor the group output channels equal 1.  As soon as
    one of them is 1, no packing routine is called and no packed buffer is
    set, whatever the platform supports. *)
Lemma PrePack_no_packing_when_one_channel :
  forall (env : Platform) (self : QLinearConv) (tensor : WeightTensor),
    let shape := WShape tensor in
    let group_input_channels := to_size_t (dim shape 1) in
    let group_output_channels :=
      to_size_t (dim shape 0) / to_size_t (ConvAttributes.group (conv_attrs_ self)) in
    group_input_channels = 1 \/ group_output_channels = 1 ->
    let run := PrePack env self tensor 3 in
    existsb is_packing_call (prepack_trace run) = false
    /\ packed_W_buffer_ (prepack_self run) = packed_W_buffer_ self.
Proof.
  intros env self tensor shape gic goc Hone run.
  subst run. unfold PrePack. simpl (negb (3 =? 3)). cbv iota.
  fold shape.
  destruct (Z.of_nat (length shape) <=? 2); [split; reflexivity|].
  destruct (negb (Z.rem (dim shape 0) (ConvAttributes.group (conv_attrs_ self)) =? 0));
    [split; reflexivity|].
  fold gic. fold goc.
  assert (Htest : negb (gic =? 1) && negb (goc =? 1) = false).
  { destruct Hone as [H|H]; rewrite H; simpl; [reflexivity|].
    now rewrite andb_false_r. }
  cbv zeta. fold gic. fold goc. rewrite Htest.
  unfold PrePack_reorder.
  repeat match goal with
         | |- context [match SafeInt_mul ?a ?b with _ => _ end] =>
           destruct (SafeInt_mul a b)
         end; split; reflexivity.
Qed.

(** C3. A filter of shape [[4; 1; 3; 3]] with [group = 1] has one input channel
    and four output channels per group, which is not depthwise-eligible, and
    the platform supports packing (block size 64): yet [PrePack] calls no
    packing routine and keeps the unpacked reordered filter. *)
Theorem PrePack_skips_packing_of_non_depthwise_filter :
  let run := PrePack sample_platform sample_kernel
               (MakeWeight [4; 1; 3; 3] (repeat 1 36) false) 3 in
  MlasGemmPackBSize sample_platform 4 9 true <> 0
  /\ prepack_result run = Returned Status_OK
  /\ is_packed run = true
  /\ packed_W_buffer_ (prepack_self run) = None
  /\ reordered_W_buffer_ (prepack_self run) = Some (repeat 1 36)
  /\ prepack_trace run = [Alloc 36; CallReorderFilter 4 1 9].
Proof.
  cbv zeta. split; [discriminate|]. repeat split; reflexivity.
Qed.

(** ** Statements in sequence *)

Section ExecLemmas.

Context {A B : Type}.

Lemma bind_Next (m : Exec A) (k : A -> Exec B) (a : A) :
  snd m = Next a -> bind m k = (fst m ++ fst (k a), snd (k a)).
Proof. intros H. unfold bind. now rewrite H. Qed.

Lemma bind_Leave (m : Exec A) (k : A -> Exec B) (o : Outcome) :
  snd m = Leave o -> bind m k = (fst m, Leave o).
Proof. intros H. unfold bind. now rewrite H. Qed.

(** How a sequence leaves the function: in its first statement, or in the
    rest after the first has fallen through. *)
Lemma bind_leaves (m : Exec A) (k : A -> Exec B) (o : Outcome) :
  snd (bind m k) = Leave o ->
  snd m = Leave o \/ exists a, snd m = Next a /\ snd (k a) = Leave o.
Proof.
  unfold bind. destruct (snd m) as [a|o'] eqn:Hm; simpl; intros H.
  - right. exists a. split; [reflexivity|exact H].
  - left. f_equal. now inversion H.
Qed.

(** When a sequence falls through, both parts did. *)
Lemma bind_falls_through (m : Exec A) (k : A -> Exec B) (b : B) :
  snd (bind m k) = Next b ->
  exists a, snd m = Next a /\ snd (k a) = Next b
            /\ fst (bind m k) = fst m ++ fst (k a).
Proof.
  unfold bind. destruct (snd m) as [a|o'] eqn:Hm; simpl; intros H.
  - exists a. repeat split; assumption || reflexivity.
  - discriminate H.
Qed.

(** The trace of a sequence is the trace of its first statement followed,
    when that falls through, by the trace of the rest. *)
Lemma bind_trace_Forall (P : Event -> Prop) (m : Exec A) (k : A -> Exec B) :
  Forall P (fst m) ->
  (forall a, snd m = Next a -> Forall P (fst (k a))) ->
  Forall P (fst (bind m k)).
Proof.
  intros Hm Hk. unfold bind. destruct (snd m) as [a|o] eqn:E; simpl.
  - apply Forall_app. split; [exact Hm|apply Hk; reflexivity].
  - exact Hm.
Qed.

End ExecLemmas.

Lemma alloc_leaves (bytes : option Z) (o : Outcome) :
  snd (alloc bytes) = Leave o -> o = Thrown "SafeInt overflow".
Proof. destruct bytes; simpl; intros H; [discriminate H|]. now inversion H. Qed.

Lemma alloc_trace_Forall (P : Event -> Prop) (bytes : option Z) :
  (forall b, P (Alloc b)) -> Forall P (fst (alloc bytes)).
Proof. intros H. destruct bytes; simpl; auto. Qed.

(** ** The constructor of ConvAttributesInFlight *)

Lemma ctor_fails (conv_attrs : ConvAttributes.t) (X_shape W_shape : TensorShape)
    (channel_last : bool) :
  IsOK (fst (ConvAttributesInFlight.inferred conv_attrs X_shape W_shape channel_last))
  = false ->
  ConvAttributesInFlight.ctor conv_attrs X_shape W_shape channel_last
  = EnforceFailed ConvAttributesInFlight.enforce_message.
Proof.
  intros H. unfold ConvAttributesInFlight.ctor. cbv zeta. rewrite H. reflexivity.
Qed.

Lemma ctor_succeeds (conv_attrs : ConvAttributes.t) (X_shape W_shape : TensorShape)
    (channel_last : bool) (ca : ConvAttributesInFlight.t) :
  ConvAttributesInFlight.ctor conv_attrs X_shape W_shape channel_last = Constructed ca ->
  IsOK (fst (ConvAttributesInFlight.inferred conv_attrs X_shape W_shape channel_last))
  = true
  /\ ConvAttributesInFlight.M ca = dim W_shape 0
  /\ ConvAttributesInFlight.N ca = dim X_shape 0
  /\ ConvAttributesInFlight.group ca = ConvAttributes.group conv_attrs
  /\ ConvAttributesInFlight.channels_last_ ca = channel_last.
Proof.
  unfold ConvAttributesInFlight.ctor. cbv zeta.
  destruct (IsOK (fst (ConvAttributesInFlight.inferred conv_attrs X_shape W_shape
                                                       channel_last))).
  - simpl. intros H. inversion H. simpl. repeat split; reflexivity.
  - simpl. intros H. discriminate H.
Qed.

(** What the spec-modelled shape inference rejects: a count of pads, strides
    or dilations that does not fit the kernel rank, or a negative inferred
    dimension; and it rejects with [InvalidShape] only. *)
Lemma InferOutputShape_fails_iff (input_shape : TensorShape)
    (kernel_shape strides dilations pads Y_dims : list Z) :
  let rank := length kernel_shape in
  let status := fst (ConvAttributes.InferOutputShape input_shape kernel_shape
                                                     strides dilations pads Y_dims) in
  (IsOK status = false <-> Code status = INVALID_SHAPE)
  /\ (Code status = INVALID_SHAPE <->
      (length pads <> (2 * rank)%nat \/ length strides <> rank
       \/ length dilations <> rank
       \/ exists i, (i < rank)%nat /\
            ConvAttributes.ComputeOutputDim (nth i input_shape 0)
              (nth i pads 0) (nth (rank + i) pads 0)
              (nth i dilations 1) (nth i kernel_shape 0) (nth i strides 1) < 0)).
Proof.
  cbv zeta. unfold ConvAttributes.InferOutputShape.
  set (rank := length kernel_shape).
  set (f := fun i : nat => ConvAttributes.ComputeOutputDim _ _ _ _ _ _).
  destruct (Nat.eqb_spec (length pads) (2 * rank)) as [Hp|Hp];
    [|simpl; split; split; intros _; (reflexivity || (left; exact Hp))].
  destruct (Nat.eqb_spec (length strides) rank) as [Hs|Hs];
    [|simpl; split; split; intros _; (reflexivity || (right; left; exact Hs))].
  destruct (Nat.eqb_spec (length dilations) rank) as [Hd|Hd];
    [|simpl; split; split; intros _; (reflexivity || (right; right; left; exact Hd))].
  simpl andb. cbv iota.
  destruct (existsb (fun d => d <? 0) (map f (seq 0 rank))) eqn:Hex; simpl.
  - split; split; intros _; try reflexivity.
    right. right. right.
    apply existsb_exists in Hex. destruct Hex as [d [Hin Hneg]].
    apply in_map_iff in Hin. destruct Hin as [i [Hfi Hi]].
    apply in_seq in Hi. exists i. split; [lia|].
    subst f. simpl in Hfi. rewrite Hfi. now apply Z.ltb_lt.
  - split; split; intros H; try discriminate H.
    destruct H as [H|[H|[H|[i [Hi Hneg]]]]]; try contradiction.
    exfalso.
    assert (Hsome : existsb (fun d => d <? 0) (map f (seq 0 rank)) = true).
    { apply existsb_exists. exists (f i). split.
      - apply in_map. apply in_seq. lia.
      - apply Z.ltb_lt. exact Hneg. }
    congruence.
Qed.

(** ** Compute: leaving before the loop *)

Lemma Compute_when_ctor_fails (env : Platform) (self : QLinearConv)
    (context : OpKernelContext) (what : string) :
  ConvAttributesInFlight.ctor (conv_attrs_ self) (Shape (Input_X context))
    (Compute_W_shape self context) (channels_last_ self) = EnforceFailed what ->
  Compute env self context = {| compute_result := Thrown what; compute_trace := [] |}.
Proof.
  intros H. unfold Compute, Compute_prepare. cbv zeta. rewrite H. reflexivity.
Qed.

(** C4 (as amended). For every call whose output-shape inference fails with
    [InvalidShape] (a negative dimension, or a count of pads, strides or
    dilations that does not fit the kernel rank), [Compute] fails by raising
    the [ORT_ENFORCE] exception of the [ConvAttributesInFlight] constructor:
    it returns no status, and it has neither requested the output nor
    allocated anything. *)
Theorem Compute_throws_on_shape_inference_failure :
  forall (env : Platform) (self : QLinearConv) (context : OpKernelContext),
    Code (fst (ConvAttributesInFlight.inferred (conv_attrs_ self)
                 (Shape (Input_X context)) (Compute_W_shape self context)
                 (channels_last_ self))) = INVALID_SHAPE ->
    Compute env self context
    = {| compute_result := Thrown ConvAttributesInFlight.enforce_message;
         compute_trace := [] |}.
Proof.
  intros env self context Hcode.
  apply Compute_when_ctor_fails. apply ctor_fails.
  unfold IsOK. now rewrite Hcode.
Qed.

Lemma Compute_throws_on_shape_inference_failure_witness :
  Compute sample_platform sample_kernel
    (sample_context (MakeTensor [1; 1; 1; 1] [1])
                    (MakeWeight [1; 1; 3; 3] (repeat 1 9) false))
  = {| compute_result := Thrown ConvAttributesInFlight.enforce_message;
       compute_trace := [] |}.
Proof.
  apply (Compute_throws_on_shape_inference_failure sample_platform sample_kernel
           (sample_context (MakeTensor [1; 1; 1; 1] [1])
                           (MakeWeight [1; 1; 3; 3] (repeat 1 9) false))).
  reflexivity.
Defined.

(** C4 as stated fails: a 1x1 image under a 3x3 kernel infers the spatial
    dimensions [-1; -1], shape inference reports [InvalidShape], and [Compute]
    returns no status at all. *)
Lemma Compute_shape_failure_is_not_a_returned_status :
  let context := sample_context (MakeTensor [1; 1; 1; 1] [1])
                                (MakeWeight [1; 1; 3; 3] (repeat 1 9) false) in
  Code (fst (ConvAttributesInFlight.inferred (conv_attrs_ sample_kernel)
               (Shape (Input_X context)) (Compute_W_shape sample_kernel context)
               (channels_last_ sample_kernel))) = INVALID_SHAPE
  /\ ~ (exists s : Status,
          compute_result (Compute sample_platform sample_kernel context) = Returned s).
Proof.
  cbv zeta. split; [reflexivity|].
  intros [s Hs]. vm_compute in Hs. discriminate Hs.
Qed.

(** C7. For every call whose geometry is constructed and whose output tensor
    has size zero, [Compute] returns success, and all it has done is request
    the (empty) output: no temporary buffer is allocated, no backend routine
    is called. *)
Theorem Compute_empty_output :
  forall (env : Platform) (self : QLinearConv) (context : OpKernelContext)
         (ca : ConvAttributesInFlight.t),
    ConvAttributesInFlight.ctor (conv_attrs_ self) (Shape (Input_X context))
      (Compute_W_shape self context) (channels_last_ self) = Constructed ca ->
    Size (ConvAttributesInFlight.Y_shape ca) = 0 ->
    Compute env self context
    = {| compute_result := Returned Status_OK;
         compute_trace := [ContextOutput 0 (ConvAttributesInFlight.Y_shape ca)] |}.
Proof.
  intros env self context ca Hctor Hsize.
  unfold Compute, Compute_prepare. cbv zeta. rewrite Hctor.
  simpl construct. unfold bind at 2. simpl snd. cbv iota. simpl fst.
  unfold bind at 2. simpl snd. cbv iota.
  rewrite Hsize. simpl. reflexivity.
Qed.

Lemma Compute_empty_output_witness :
  Compute sample_platform sample_kernel
    (sample_context (MakeTensor [1; 1; 1; 1] [1])
                    (MakeWeight [1; 1; 2; 2] (repeat 1 4) false))
  = {| compute_result := Returned Status_OK;
       compute_trace := [ContextOutput 0 [1; 1; 0; 0]] |}.
Proof.
  apply (Compute_empty_output sample_platform sample_kernel
           (sample_context (MakeTensor [1; 1; 1; 1] [1])
                           (MakeWeight [1; 1; 2; 2] (repeat 1 4) false))
           {| ConvAttributesInFlight.M := 1;
              ConvAttributesInFlight.N := 1;
              ConvAttributesInFlight.C := 1;
              ConvAttributesInFlight.group := 1;
              ConvAttributesInFlight.channels_last_ := false;
              ConvAttributesInFlight.kernel_rank := 2;
              ConvAttributesInFlight.input_image_size := 1;
              ConvAttributesInFlight.output_image_size := 0;
              ConvAttributesInFlight.kernel_size := 4;
              ConvAttributesInFlight.pads := [0; 0; 0; 0];
              ConvAttributesInFlight.dilations := [1; 1];
              ConvAttributesInFlight.strides := [1; 1];
              ConvAttributesInFlight.kernel_shape := [2; 2];
              ConvAttributesInFlight.input_shape := [1; 1];
              ConvAttributesInFlight.output_shape := [0; 0];
              ConvAttributesInFlight.Y_shape := [1; 1; 0; 0] |});
    reflexivity.
Defined.

(** ** Compute: what it can return *)

Lemma construct_leaves {A : Type} (c : Construction A) (o : Outcome) :
  snd (construct c) = Leave o -> exists what, o = Thrown what.
Proof.
  destruct c as [a|what]; simpl; intros H; [discriminate H|].
  exists what. now inversion H.
Qed.

Lemma Compute_reordered_W_leaves (self : QLinearConv) (W : option WeightTensor)
    (W_shape : TensorShape) (ca : ConvAttributesInFlight.t) (o : Outcome) :
  snd (Compute_reordered_W self W W_shape ca) = Leave o ->
  exists what, o = Thrown what.
Proof.
  unfold Compute_reordered_W.
  destruct (packed_W_buffer_ self); [discriminate|].
  destruct W as [W|]; [|discriminate].
  intros H. apply bind_leaves in H. destruct H as [H|[a [_ H]]].
  - apply alloc_leaves in H. eauto.
  - discriminate H.
Qed.

Lemma Compute_col_buffer_leaves (self : QLinearConv) (ca : ConvAttributesInFlight.t)
    (d : GroupDispatch) (col_buffer_size : Z) (o : Outcome) :
  snd (Compute_col_buffer self ca d col_buffer_size) = Leave o ->
  exists what, o = Thrown what.
Proof.
  unfold Compute_col_buffer.
  destruct (is_depthwise_conv d).
  - intros H. apply bind_leaves in H. destruct H as [H|[a [_ H]]];
      [apply alloc_leaves in H; eauto|discriminate H].
  - destruct (negb (ConvAttributesInFlight.kernel_size ca =? 1)
              || negb (ConvAttributes.HasStridesOneAndNoPadding (conv_attrs_ self)));
      [|discriminate].
    intros H. apply bind_leaves in H. destruct H as [H|[a [_ H]]];
      [apply alloc_leaves in H; eauto|discriminate H].
Qed.

(** The ways out of [Compute] before the loop: the early [return] of
    [Status::OK()], the status of [GetTempSpaceAllocator] when that is an
    error, or an exception.  No other status leaves. *)
Lemma Compute_prepare_leaves (env : Platform) (self : QLinearConv)
    (context : OpKernelContext) (o : Outcome) :
  snd (Compute_prepare env self context) = Leave o ->
  o = Returned Status_OK
  \/ (o = Returned (GetTempSpaceAllocator context)
      /\ IsOK (GetTempSpaceAllocator context) = false)
  \/ exists what, o = Thrown what.
Proof.
  unfold Compute_prepare. cbv zeta. intros H.
  apply bind_leaves in H. destruct H as [H|[ca [_ H]]].
  { right. right. eapply construct_leaves. exact H. }
  apply bind_leaves in H. destruct H as [H|[[] [_ H]]]; [discriminate H|].
  destruct (Size (ConvAttributesInFlight.Y_shape ca) =? 0).
  { left. now inversion H. }
  apply bind_leaves in H. destruct H as [H|[[] [_ H]]].
  { right. left. unfold ORT_RETURN_IF_ERROR in H.
    destruct (IsOK (GetTempSpaceAllocator context)) eqn:Hok; [discriminate H|].
    split; [now inversion H|reflexivity]. }
  right. right.
  apply bind_leaves in H. destruct H as [H|[rw [_ H]]].
  { eapply Compute_reordered_W_leaves. exact H. }
  apply bind_leaves in H. destruct H as [H|[[] [_ H]]].
  { apply alloc_leaves in H. eauto. }
  apply bind_leaves in H. destruct H as [H|[[] [_ H]]].
  { destruct (negb (channels_last_ self)); [|discriminate H].
    apply bind_leaves in H. destruct H as [H|[[] [_ H]]];
      apply alloc_leaves in H; eauto. }
  apply bind_leaves in H. destruct H as [H|[hc [_ H]]].
  { eapply Compute_col_buffer_leaves. exact H. }
  discriminate H.
Qed.

(** No validation failure is ever reported: a status that [Compute] returns
    is [Status::OK()] or the error of [GetTempSpaceAllocator]. *)
Lemma Compute_returned_status (env : Platform) (self : QLinearConv)
    (context : OpKernelContext) (s : Status) :
  compute_result (Compute env self context) = Returned s ->
  s = Status_OK \/ s = GetTempSpaceAllocator context.
Proof.
  unfold Compute, finish.
  destruct (snd (_ <- Compute_prepare env self context;; _)) as [s'|o] eqn:Hbody;
    simpl; intros H.
  - apply bind_falls_through in Hbody. destruct Hbody as [l [_ [Hrest _]]].
    apply bind_falls_through in Hrest. destruct Hrest as [[] [_ [Hret _]]].
    simpl in Hret. left. inversion Hret. inversion H. congruence.
  - subst o. apply bind_leaves in Hbody. destruct Hbody as [Hp|[l [_ Hrest]]].
    + apply Compute_prepare_leaves in Hp.
      destruct Hp as [Hp|[[Hp _]|[what Hp]]].
      * left. now inversion Hp.
      * right. now inversion Hp.
      * discriminate Hp.
    + apply bind_leaves in Hrest. destruct Hrest as [Hr|[[] [_ Hr]]]; discriminate.
Qed.

Lemma Compute_never_returns_INVALID_ARGUMENT (env : Platform) (self : QLinearConv)
    (context : OpKernelContext) (s : Status) :
  IsOK (GetTempSpaceAllocator context) = true ->
  compute_result (Compute env self context) = Returned s ->
  Code s <> INVALID_ARGUMENT.
Proof.
  intros Halloc H. apply Compute_returned_status in H.
  destruct H as [H|H]; subst s; [discriminate|].
  unfold IsOK in Halloc. destruct (Code (GetTempSpaceAllocator context)); discriminate.
Qed.

(** ** CheckAndGetZeroPoint *)

(** The validation function itself does reject a filter zero point of length
    [M] that holds two distinct values: the defect lies in its caller. *)
Lemma CheckAndGetZeroPoint_rejects_non_constant
    (X_zero_point : Tensor Z) (W_zero_point_data : list Z)
    (Y_zero_point : option (Tensor Z)) (ca : ConvAttributesInFlight.t)
    (x y w : Z) (i : nat) :
  IsScalarOr1ElementVector X_zero_point = true ->
  match Y_zero_point with
  | Some t => IsScalarOr1ElementVector t = true
  | None => True
  end ->
  Z.of_nat (length W_zero_point_data) = ConvAttributesInFlight.M ca ->
  (i < length W_zero_point_data)%nat ->
  nth i W_zero_point_data 0 <> nth 0 W_zero_point_data 0 ->
  Code (fst (CheckAndGetZeroPoint X_zero_point
               (MakeTensor [ConvAttributesInFlight.M ca] W_zero_point_data)
               Y_zero_point ca x y w)) = INVALID_ARGUMENT.
Proof.
  intros HX HY Hlen Hi Hdiff.
  unfold CheckAndGetZeroPoint. rewrite HX. simpl negb. cbv iota zeta.
  cbn [Shape Data].
  assert (Hshape :
    (NumDimensions [ConvAttributesInFlight.M ca] =? 0)
    || ((NumDimensions [ConvAttributesInFlight.M ca] =? 1)
        && ((dim [ConvAttributesInFlight.M ca] 0 =? 1)
            || (dim [ConvAttributesInFlight.M ca] 0 =? ConvAttributesInFlight.M ca)))
    = true).
  { unfold NumDimensions, dim. simpl. now rewrite Z.eqb_refl, orb_true_r. }
  assert (Hex : existsb (fun i0 =>
                    negb (nth (Z.to_nat i0) W_zero_point_data 0
                          =? nth 0 W_zero_point_data 0))
                 (map (Z.add 1) (range (Size [ConvAttributesInFlight.M ca] - 1)))
                = true).
  { apply existsb_exists. exists (Z.of_nat i). split.
    - destruct i as [|i]; [contradiction Hdiff; reflexivity|].
      apply in_map_iff. exists (Z.of_nat i). split; [lia|].
      unfold range. apply in_map. apply in_seq.
      unfold Size. simpl fold_right. lia.
    - rewrite Nat2Z.id. apply negb_true_iff. apply Z.eqb_neq. exact Hdiff. }
  destruct Y_zero_point as [t|].
  - rewrite HY. simpl negb. cbv iota. rewrite Hshape, Hex. reflexivity.
  - rewrite Hshape, Hex. reflexivity.
Qed.

Example pointwise_geometry_constructed :
  ConvAttributesInFlight.ctor (conv_attrs_ sample_kernel)
    (Shape (Input_X pointwise_context))
    (Compute_W_shape sample_kernel pointwise_context)
    (channels_last_ sample_kernel)
  = Constructed pointwise_geometry.
Proof. reflexivity. Qed.

(** C1. A call whose input zero point has two elements fails validation:
    [CheckAndGetZeroPoint] returns [INVALID_ARGUMENT].  [Compute] drops that
    status (lines 372-373): it returns [Status::OK()], has requested the output
    with its full shape, has run the matrix multiply and the requantization,
    and has stored the result into the output. *)
Theorem Compute_proceeds_after_failed_validation :
  let context := malformed_X_zero_point_context in
  let run := Compute sample_platform sample_kernel context in
  Code (fst (CheckAndGetZeroPoint (Input_X_zero_point context)
               (Input_W_zero_point context) (Input_Y_zero_point context)
               pointwise_geometry 0 0 0)) = INVALID_ARGUMENT
  /\ compute_result run = Returned Status_OK
  /\ In (ContextOutput 0 [1; 2; 2; 2]) (compute_trace run)
  /\ existsb is_MlasGemm (compute_trace run) = true
  /\ In (CallMlasTranspose (At transpose_output_buffer 0) (At Ydata 0) 4 2)
        (compute_trace run)
  /\ existsb touches_output (compute_trace run) = true.
Proof.
  cbv zeta. repeat split; try reflexivity; vm_compute; tauto.
Qed.

(** C2. A filter zero point of length [M = 2] holding the two values [3] and
    [4] is rejected by [CheckAndGetZeroPoint] with [INVALID_ARGUMENT], but
    [Compute] drops that status (lines 372-373): it returns [Status::OK()] and
    runs the matrix multiply with the first element, [3], as the zero point
    of the filter. *)
Theorem Compute_uses_first_filter_zero_point :
  let context := non_constant_W_zero_point_context in
  let run := Compute sample_platform sample_kernel context in
  fst (CheckAndGetZeroPoint (Input_X_zero_point context)
         (Input_W_zero_point context) (Input_Y_zero_point context)
         pointwise_geometry 0 0 0)
  = MakeStatus INVALID_ARGUMENT "QLinearConv : filter zero point must be constant"
  /\ compute_result run = Returned Status_OK
  /\ exists Parameters,
       In (CallMlasGemm Parameters) (compute_trace run)
       /\ gemm_ZeroPointB Parameters = 3.
Proof.
  cbv zeta. split; [reflexivity|]. split; [reflexivity|].
  eexists. split.
  - vm_compute. do 7 right. left. reflexivity.
  - reflexivity.
Qed.

(** ** Compute: reaching the loop *)

(** When [Compute] reaches the loop over the images, its locals are the ones
    that lines 357-477 computed. *)
Lemma Compute_prepare_reaches_loop (env : Platform) (self : QLinearConv)
    (context : OpKernelContext) (l : Locals) :
  snd (Compute_prepare env self context) = Next l ->
  exists reordered_W,
    ConvAttributesInFlight.ctor (conv_attrs_ self) (Shape (Input_X context))
      (Compute_W_shape self context) (channels_last_ self)
    = Constructed (conv_attrs l)
    /\ snd (Compute_reordered_W self
              (if is_W_packed_ self then None else Some (Input_W context))
              (Compute_W_shape self context) (conv_attrs l)) = Next reordered_W
    /\ dispatch l = Compute_dispatch (conv_attrs l) (Compute_W_shape self context)
                                     reordered_W
    /\ Y_zero_point_value l = snd (fst (snd (Compute_zero_points context (conv_attrs l))))
    /\ W_zero_point_value l = snd (snd (Compute_zero_points context (conv_attrs l)))
    /\ output_scales l = snd (snd (Compute_scales context (conv_attrs l))).
Proof.
  unfold Compute_prepare. cbv zeta. intros H.
  apply bind_falls_through in H. destruct H as [ca [Hctor [H _]]].
  assert (Hca : ConvAttributesInFlight.ctor (conv_attrs_ self) (Shape (Input_X context))
                  (Compute_W_shape self context) (channels_last_ self) = Constructed ca).
  { destruct (ConvAttributesInFlight.ctor _ _ _ _) as [ca'|w]; simpl in Hctor;
      [now inversion Hctor|discriminate Hctor]. }
  clear Hctor.
  apply bind_falls_through in H. destruct H as [[] [_ [H _]]].
  destruct (Size (ConvAttributesInFlight.Y_shape ca) =? 0); [discriminate H|].
  apply bind_falls_through in H. destruct H as [[] [_ [H _]]].
  apply bind_falls_through in H. destruct H as [rw [Hrw [H _]]].
  apply bind_falls_through in H. destruct H as [[] [_ [H _]]].
  apply bind_falls_through in H. destruct H as [[] [_ [H _]]].
  apply bind_falls_through in H. destruct H as [hc [_ [H _]]].
  simpl in H. inversion H. subst l. clear H. simpl.
  exists rw. repeat split; assumption || reflexivity.
Qed.

(** ** The invariant of prepared kernels *)

Lemma consistent_new (conv_attrs : ConvAttributes.t) (channels_last : bool) :
  consistent (QLinearConv_new conv_attrs channels_last).
Proof.
  split; simpl.
  - intros H. contradiction H. reflexivity.
  - intros H. discriminate H.
Qed.

Lemma to_size_t_1 : to_size_t 1 = 1.
Proof. reflexivity. Qed.

Lemma PrePack_reorder_consistent (self : QLinearConv) (Wdata : list Z)
    (output_channels group_input_channels kernel_size : Z) (trace : list Event) :
  consistent self ->
  packed_W_buffer_ self = None ->
  consistent (prepack_self (PrePack_reorder self Wdata output_channels
                              group_input_channels kernel_size trace)).
Proof.
  intros Hself Hnone. unfold PrePack_reorder.
  destruct (SafeInt_mul 1 output_channels) as [b1|]; [|exact Hself].
  destruct (SafeInt_mul b1 group_input_channels) as [b2|]; [|exact Hself].
  destruct (SafeInt_mul b2 kernel_size) as [b3|]; [|exact Hself].
  split; simpl.
  - intros H. contradiction.
  - intros _ _. discriminate.
Qed.

Lemma PrePack_new_consistent (env : Platform) (conv_attrs : ConvAttributes.t)
    (channels_last : bool) (tensor : WeightTensor) (input_idx : Z) :
  consistent (prepack_self (PrePack env (QLinearConv_new conv_attrs channels_last)
                                    tensor input_idx)).
Proof.
  unfold PrePack.
  destruct (negb (input_idx =? 3)); [apply consistent_new|].
  destruct (Z.of_nat (length (WShape tensor)) <=? 2); [apply consistent_new|].
  destruct (negb (Z.rem _ _ =? 0)); [apply consistent_new|].
  cbv zeta.
  destruct (negb (to_size_t (dim (WShape tensor) 1) =? 1)) eqn:Hgic; simpl andb.
  - destruct (negb (_ / _ =? 1)); cbv iota.
    + destruct (negb (MlasGemmPackBSize env _ _ true =? 0)).
      * destruct (SafeInt_mul _ _); simpl.
        -- split; simpl.
           ++ intros _. split; [reflexivity|].
              intros H1. rewrite H1, to_size_t_1 in Hgic. discriminate Hgic.
           ++ intros _ H. discriminate H.
        -- split; simpl; [intros H; contradiction H; reflexivity|intros H; discriminate H].
      * apply PrePack_reorder_consistent; [|reflexivity].
        split; simpl; [intros H; contradiction H; reflexivity|intros H; discriminate H].
    + apply PrePack_reorder_consistent; [|reflexivity].
      split; simpl; [intros H; contradiction H; reflexivity|intros H; discriminate H].
  - cbv iota. apply PrePack_reorder_consistent; [|reflexivity].
    split; simpl; [intros H; contradiction H; reflexivity|intros H; discriminate H].
Qed.

Lemma PrePack_other_input (env : Platform) (self : QLinearConv)
    (tensor : WeightTensor) (input_idx : Z) :
  input_idx <> 3 -> prepack_self (PrePack env self tensor input_idx) = self.
Proof.
  intros H. unfold PrePack.
  destruct (Z.eqb_spec input_idx 3); [contradiction|reflexivity].
Qed.

Lemma Prepared_consistent (env : Platform) (self : QLinearConv) :
  Prepared env self -> consistent self.
Proof.
  induction 1 as [a c|a c t|self t idx Hidx Hprep IH].
  - apply consistent_new.
  - apply PrePack_new_consistent.
  - now rewrite PrePack_other_input.
Qed.

(** ** The depthwise test *)

(** In a call on a prepared kernel the reordered filter is missing only when
    the packed one is used, and then a group has more than one input
    channel. *)
Lemma reordered_W_missing (self : QLinearConv) (context : OpKernelContext)
    (ca : ConvAttributesInFlight.t) :
  consistent self ->
  snd (Compute_reordered_W self
         (if is_W_packed_ self then None else Some (Input_W context))
         (Compute_W_shape self context) ca) = Next None ->
  dim (Compute_W_shape self context) 1 <> 1.
Proof.
  intros [Hpacked Hreordered]. unfold Compute_reordered_W, Compute_W_shape.
  destruct (packed_W_buffer_ self) as [blocks|] eqn:Hbuf.
  - intros _. destruct Hpacked as [Hflag Hdim]; [discriminate|].
    now rewrite Hflag.
  - destruct (is_W_packed_ self) eqn:Hflag.
    + simpl. intros H. inversion H as [Hnone].
      exfalso. now apply Hreordered.
    + intros H. apply bind_falls_through in H. destruct H as [[] [_ [H _]]].
      apply bind_falls_through in H. destruct H as [[] [_ [H _]]].
      simpl in H. discriminate H.
Qed.

Lemma Compute_dispatch_depthwise (ca : ConvAttributesInFlight.t)
    (W_shape : TensorShape) (reordered_W : option (list Z)) :
  (reordered_W = None -> dim W_shape 1 <> 1) ->
  let d := Compute_dispatch ca W_shape reordered_W in
  is_depthwise_conv d
  = (dim W_shape 1 =? 1)
    && (Z.quot (ConvAttributesInFlight.M ca) (ConvAttributesInFlight.group ca) =? 1).
Proof.
  intros Hmissing. cbv zeta. unfold Compute_dispatch. cbv zeta.
  destruct reordered_W as [buffer|]; simpl.
  - destruct ((dim W_shape 1 =? 1) && (_ =? 1)); reflexivity.
  - destruct (Z.eqb_spec (dim W_shape 1) 1) as [H1|H1]; [|reflexivity].
    exfalso. now apply Hmissing.
Qed.

Lemma Compute_dispatch_collapse (ca : ConvAttributesInFlight.t)
    (W_shape : TensorShape) (reordered_W : option (list Z)) :
  let d := Compute_dispatch ca W_shape reordered_W in
  (is_depthwise_conv d = true ->
   group_count d = 1
   /\ group_input_channels d = ConvAttributesInFlight.group ca
   /\ group_output_channels d = ConvAttributesInFlight.group ca)
  /\ (is_depthwise_conv d = false ->
      group_count d = ConvAttributesInFlight.group ca
      /\ group_input_channels d = dim W_shape 1
      /\ group_output_channels d
         = Z.quot (ConvAttributesInFlight.M ca) (ConvAttributesInFlight.group ca)).
Proof.
  cbv zeta. unfold Compute_dispatch. cbv zeta.
  destruct (_ && _ && _); simpl; split; intros H;
    try discriminate H; repeat split; reflexivity.
Qed.

(** One group of a tile calls the matrix multiply once and the depthwise
    primitive never. *)
Lemma conv_worker_group_calls (l : Locals) (input_data : Pointer)
    (output_start output_count : Z) (worker_gemm_output : Pointer) (group_id : Z) :
  let events := conv_worker_group l input_data output_start output_count
                                  worker_gemm_output group_id in
  length (filter is_MlasGemm events) = 1%nat
  /\ filter is_MlasConvDepthwise events = [].
Proof.
  cbv zeta. unfold conv_worker_group. cbv zeta.
  destruct (has_col_buffer l); [|split; reflexivity].
  destruct (ConvAttributesInFlight.kernel_rank (conv_attrs l) =? 2);
    [split; reflexivity|].
  destruct (ConvAttributesInFlight.kernel_rank (conv_attrs l) =? 1);
    split; reflexivity.
Qed.

Lemma filter_flat_map {A B : Type} (p : B -> bool) (f : A -> list B) (xs : list A) :
  filter p (flat_map f xs) = flat_map (fun x => filter p (f x)) xs.
Proof.
  induction xs as [|x xs IH]; simpl; [reflexivity|].
  now rewrite filter_app, IH.
Qed.

Lemma flat_map_nil {A B : Type} (f : A -> list B) (xs : list A) :
  (forall x, f x = []) -> flat_map f xs = [].
Proof.
  intros H. induction xs as [|x xs IH]; simpl; [reflexivity|].
  now rewrite H, IH.
Qed.

(** ** Optional output quantization parameters *)

Lemma per_tensor_or_per_channel_test (shape : TensorShape) (M : Z) :
  per_tensor_or_per_channel shape M ->
  (NumDimensions shape =? 0)
  || ((NumDimensions shape =? 1) && ((dim shape 0 =? 1) || (dim shape 0 =? M)))
  = true.
Proof.
  intros [H0|[H1 [Hd|Hd]]].
  - rewrite H0. reflexivity.
  - rewrite H1, Hd. reflexivity.
  - rewrite H1, Hd, !Z.eqb_refl. simpl. apply orb_true_r.
Qed.

(** Without [Y_zero_point], [CheckAndGetZeroPoint] never writes
    [Y_zero_point_value]. *)
Lemma CheckAndGetZeroPoint_keeps_Y (X_zero_point W_zero_point : Tensor Z)
    (ca : ConvAttributesInFlight.t) (x y w : Z) :
  snd (fst (snd (CheckAndGetZeroPoint X_zero_point W_zero_point None ca x y w))) = y.
Proof.
  unfold CheckAndGetZeroPoint.
  destruct (negb (IsScalarOr1ElementVector X_zero_point)); [reflexivity|].
  cbv zeta.
  destruct (_ || _); [|reflexivity].
  destruct (existsb _ _); reflexivity.
Qed.

(** Without [Y_zero_point], a well-formed input zero point and a constant
    filter zero point of a valid shape are accepted. *)
Lemma CheckAndGetZeroPoint_accepts_without_Y (X_zero_point W_zero_point : Tensor Z)
    (ca : ConvAttributesInFlight.t) (x y w : Z) :
  IsScalarOr1ElementVector X_zero_point = true ->
  per_tensor_or_per_channel (Shape W_zero_point) (ConvAttributesInFlight.M ca) ->
  (forall i, 1 <= i < Size (Shape W_zero_point) ->
             nth (Z.to_nat i) (Data W_zero_point) 0 = nth 0 (Data W_zero_point) 0) ->
  CheckAndGetZeroPoint X_zero_point W_zero_point None ca x y w
  = (Status_OK, (nth 0 (Data X_zero_point) 0, y, nth 0 (Data W_zero_point) 0)).
Proof.
  intros HX HW Hconst. unfold CheckAndGetZeroPoint.
  rewrite HX. simpl negb. cbv iota zeta.
  rewrite (per_tensor_or_per_channel_test _ _ HW).
  assert (Hex : existsb (fun i =>
                   negb (nth (Z.to_nat i) (Data W_zero_point) 0
                         =? nth 0 (Data W_zero_point) 0))
                  (map (Z.add 1) (range (Size (Shape W_zero_point) - 1))) = false).
  { destruct (existsb _ _) eqn:Hex; [|reflexivity]. exfalso.
    apply existsb_exists in Hex. destruct Hex as [i [Hin Hneq]].
    apply in_map_iff in Hin. destruct Hin as [j [Hij Hj]].
    unfold range in Hj. apply in_map_iff in Hj. destruct Hj as [n [Hn Hseq]].
    apply in_seq in Hseq.
    apply negb_true_iff, Z.eqb_neq in Hneq. apply Hneq, Hconst. lia. }
  rewrite Hex. reflexivity.
Qed.

(** Without [Y_scale], a well-formed input scale and a filter scale of a valid
    shape are accepted, and every output scale is the product
    [X_scale * W_scale[i]]: nothing is divided. *)
Lemma CheckAndGetScale_without_Y (X_scale W_scale : Tensor float)
    (ca : ConvAttributesInFlight.t) (x y : float) (scales : list float) :
  IsScalarOr1ElementVector X_scale = true ->
  per_tensor_or_per_channel (Shape W_scale) (ConvAttributesInFlight.M ca) ->
  CheckAndGetScale X_scale W_scale None ca x y scales
  = (Status_OK,
     (nth 0 (Data X_scale) (S754_zero false), y,
      map (fun i => float_mul (nth 0 (Data X_scale) (S754_zero false))
                              (nth (Z.to_nat i) (Data W_scale) (S754_zero false)))
          (range (Size (Shape W_scale))))).
Proof.
  intros HX HW. unfold CheckAndGetScale.
  rewrite HX. simpl negb. cbv iota zeta.
  rewrite (per_tensor_or_per_channel_test _ _ HW). reflexivity.
Qed.

Example only_Y_scale_supplied :
  let context := with_Y_quantization unscaled_context (Some (scalar float_2)) None in
  let run := Compute sample_platform sample_kernel context in
  compute_result run = Returned Status_OK
  /\ filter is_MlasRequantizeOutput (compute_trace run)
     = [CallMlasRequantizeOutput (At gemm_output 0) (At transpose_output_buffer 0)
          false 4 2
          [float_div float_0_75 float_2; float_div float_3 float_2] true 0].
Proof. split; reflexivity. Qed.

Example only_Y_zero_point_supplied :
  let context := with_Y_quantization unscaled_context None (Some (scalar 128)) in
  let run := Compute sample_platform sample_kernel context in
  compute_result run = Returned Status_OK
  /\ filter is_MlasRequantizeOutput (compute_trace run)
     = [CallMlasRequantizeOutput (At gemm_output 0) (At transpose_output_buffer 0)
          false 4 2 [float_0_75; float_3] true 128].
Proof. split; reflexivity. Qed.

(** ** ComputeMaxThreadCount in binary64 *)


Lemma digits2_pos_bounds (p : positive) :
  2 ^ (Z.pos (digits2_pos p) - 1) <= Z.pos p < 2 ^ Z.pos (digits2_pos p).
Proof.
  induction p as [p IH|p IH|]; simpl digits2_pos.
  - rewrite Pos2Z.inj_succ.
    replace (Z.succ (Z.pos (digits2_pos p)) - 1) with (Z.succ (Z.pos (digits2_pos p) - 1)) by lia.
    rewrite !Z.pow_succ_r by lia. lia.
  - rewrite Pos2Z.inj_succ.
    replace (Z.succ (Z.pos (digits2_pos p)) - 1) with (Z.succ (Z.pos (digits2_pos p) - 1)) by lia.
    rewrite !Z.pow_succ_r by lia. lia.
  - simpl. lia.
Qed.

Lemma digits2_pos_unique (p : positive) (k : Z) :
  2 ^ (k - 1) <= Z.pos p < 2 ^ k -> Z.pos (digits2_pos p) = k.
Proof.
  intros [Hlo Hhi]. pose proof (digits2_pos_bounds p) as [Blo Bhi].
  set (d := Z.pos (digits2_pos p)) in *.
  assert (Hd : 0 < d) by (subst d; lia).
  assert (Hk : 0 < k).
  { destruct (Z.ltb_spec 0 k); [assumption|].
    exfalso. destruct (Z.eq_dec k 0) as [->|Hne].
    - simpl in Hhi. lia.
    - rewrite (Z.pow_neg_r 2 k) in Hhi by lia. lia. }
  destruct (Z.lt_trichotomy d k) as [Hlt|[Heq|Hgt]]; [|exact Heq|].
  - exfalso. assert (2 ^ d <= 2 ^ (k - 1)) by (apply Z.pow_le_mono_r; lia). lia.
  - exfalso. assert (2 ^ k <= 2 ^ (d - 1)) by (apply Z.pow_le_mono_r; lia). lia.
Qed.

Lemma shr_1_mantissa (mrs : shr_record) :
  0 <= shr_m mrs -> shr_m (shr_1 mrs) = shr_m mrs / 2.
Proof.
  destruct mrs as [m r s]. simpl. intros Hm.
  destruct m as [|[p|p|]|p]; simpl; try lia; try reflexivity.
  - apply Z.div_unique with (r := 1); lia.
  - apply Z.div_unique with (r := 0); lia.
Qed.

Lemma shr_1_nonneg (mrs : shr_record) : 0 <= shr_m mrs -> 0 <= shr_m (shr_1 mrs).
Proof.
  intros H. rewrite shr_1_mantissa by assumption. apply Z.div_pos; lia.
Qed.

Lemma pow2_xI (n : positive) : 2 ^ Z.pos n~1 = 2 * 2 ^ Z.pos n * 2 ^ Z.pos n.
Proof.
  rewrite (Pos2Z.inj_xI n).
  replace (2 * Z.pos n + 1) with (1 + Z.pos n + Z.pos n) by lia.
  rewrite Z.pow_add_r, Z.pow_add_r by lia. reflexivity.
Qed.

Lemma pow2_xO (n : positive) : 2 ^ Z.pos n~0 = 2 ^ Z.pos n * 2 ^ Z.pos n.
Proof.
  rewrite (Pos2Z.inj_xO n).
  replace (2 * Z.pos n) with (Z.pos n + Z.pos n) by lia.
  rewrite Z.pow_add_r by lia. reflexivity.
Qed.

Lemma iter_shr_1_mantissa (n : positive) (mrs : shr_record) :
  0 <= shr_m mrs ->
  shr_m (iter_pos shr_1 n mrs) = shr_m mrs / 2 ^ Z.pos n
  /\ 0 <= shr_m (iter_pos shr_1 n mrs).
Proof.
  revert mrs. induction n as [n IH|n IH|]; intros mrs Hm; simpl iter_pos.
  - destruct (IH (shr_1 mrs) (shr_1_nonneg mrs Hm)) as [H1 P1].
    destruct (IH _ P1) as [H2 P2]. split; [|exact P2].
    rewrite H2, H1, shr_1_mantissa by assumption.
    assert (0 < 2 ^ Z.pos n) by (apply Z.pow_pos_nonneg; lia).
    rewrite !Z.div_div by lia.
    rewrite pow2_xI. f_equal. ring.
  - destruct (IH mrs Hm) as [H1 P1].
    destruct (IH _ P1) as [H2 P2]. split; [|exact P2].
    rewrite H2, H1.
    assert (0 < 2 ^ Z.pos n) by (apply Z.pow_pos_nonneg; lia).
    rewrite !Z.div_div by lia.
    rewrite pow2_xO. f_equal.
  - split; [|apply shr_1_nonneg; assumption].
    rewrite shr_1_mantissa by assumption. reflexivity.
Qed.

Lemma shr_record_of_loc_mantissa (m : Z) (l : location) :
  shr_m (shr_record_of_loc m l) = m.
Proof. destruct l as [|[]]; reflexivity. Qed.

Lemma round_nearest_even_range (mx : Z) (lx : location) :
  mx <= round_nearest_even mx lx <= mx + 1.
Proof.
  destruct lx as [|[]]; simpl; try lia. destruct (Z.even mx); lia.
Qed.

(** Shifting a mantissa of at least 53 bits down to 53 bits. *)
Lemma shr_fexp_normal (m : positive) (e : Z) (l : location) :
  let d := Z.pos (digits2_pos m) in
  53 <= d -> - 1074 <= d + e - 53 ->
  exists mrs,
    shr_fexp 53 1024 (Z.pos m) e l = (mrs, d + e - 53)
    /\ shr_m mrs = Z.pos m / 2 ^ (d - 53).
Proof.
  intros d Hd He. unfold shr_fexp, fexp, emin. simpl Zdigits2. fold d.
  replace (Z.max (d + e - 53) (3 - 1024 - 53) - e) with (d - 53) by lia.
  unfold shr. destruct (d - 53) as [|k|k] eqn:Hk.
  - eexists. split.
    + f_equal. lia.
    + rewrite shr_record_of_loc_mantissa. simpl. now rewrite Z.div_1_r.
  - eexists. split.
    + f_equal. lia.
    + destruct (iter_shr_1_mantissa k (shr_record_of_loc (Z.pos m) l)) as [Hiter _].
      * rewrite shr_record_of_loc_mantissa. lia.
      * rewrite Hiter, shr_record_of_loc_mantissa. reflexivity.
  - lia.
Qed.

Lemma pow2_split (d : Z) : 53 <= d ->
  2 ^ (d - 1) = 2 ^ 52 * 2 ^ (d - 53) /\ 2 ^ d = 2 ^ 53 * 2 ^ (d - 53)
  /\ 0 < 2 ^ (d - 53).
Proof.
  intros Hd. repeat split.
  - rewrite <- Z.pow_add_r by lia. f_equal. lia.
  - rewrite <- Z.pow_add_r by lia. f_equal. lia.
  - apply Z.pow_pos_nonneg; lia.
Qed.

(** Rounding a mantissa of at least 53 bits gives a normal number with the
    exponent of its leading bit, or overflows. *)
Lemma binary_round_aux_normal (m : positive) (e : Z) (l : location) :
  let d := Z.pos (digits2_pos m) in
  53 <= d -> - 52 <= d + e - 53 ->
  zero_or_at_least_one (binary_round_aux 53 1024 false (Z.pos m) e l).
Proof.
  intros d Hd He. unfold binary_round_aux.
  destruct (shr_fexp_normal m e l Hd) as [mrs [Hshift Hmant]]; [fold d; lia|].
  fold d in Hshift, Hmant. rewrite Hshift.
  pose proof (digits2_pos_bounds m) as Hbounds. fold d in Hbounds.
  destruct (pow2_split d Hd) as [Hlo [Hhi Hpos]].
  clearbody d.
  assert (Hq : 2 ^ 52 <= shr_m mrs < 2 ^ 53).
  { rewrite Hmant. split.
    - apply Z.div_le_lower_bound; lia.
    - apply Z.div_lt_upper_bound; lia. }
  pose proof (round_nearest_even_range (shr_m mrs) (loc_of_shr_record mrs)) as Hround.
  set (m2 := round_nearest_even (shr_m mrs) (loc_of_shr_record mrs)) in *.
  assert (Hm2 : 2 ^ 52 <= m2 <= 2 ^ 53) by lia.
  destruct m2 as [|p2|p2] eqn:Ep2; try lia.
  destruct (Z.eq_dec (Z.pos p2) (2 ^ 53)) as [Htop|Hbelow].
  - assert (Hd2 : Z.pos (digits2_pos p2) = 54).
    { apply digits2_pos_unique. rewrite Htop. simpl. lia. }
    destruct (shr_fexp_normal p2 (d + e - 53) loc_Exact) as [mrs2 [Hshift2 Hmant2]];
      try (rewrite Hd2; lia).
    rewrite Hd2 in Hshift2, Hmant2. rewrite Hshift2.
    rewrite Htop in Hmant2. change (2 ^ 53 / 2 ^ (54 - 53)) with (2 ^ 52) in Hmant2.
    rewrite Hmant2. change (2 ^ 52) with (Z.pos 4503599627370496).
    destruct (54 + (d + e - 53) - 53 <=? 1024 - 53); [|reflexivity].
    unfold zero_or_at_least_one.
    split; [reflexivity|]. split; [|lia].
    split; [discriminate|reflexivity].
  - assert (Hd2 : Z.pos (digits2_pos p2) = 53).
    { apply digits2_pos_unique. simpl (53 - 1). lia. }
    destruct (shr_fexp_normal p2 (d + e - 53) loc_Exact) as [mrs2 [Hshift2 Hmant2]];
      try (rewrite Hd2; lia).
    rewrite Hd2 in Hshift2, Hmant2. rewrite Hshift2.
    change (2 ^ (53 - 53)) with 1 in Hmant2. rewrite Z.div_1_r in Hmant2.
    rewrite Hmant2.
    destruct (53 + (d + e - 53) - 53 <=? 1024 - 53); [|reflexivity].
    unfold zero_or_at_least_one.
    repeat split; lia.
Qed.

Lemma iter_xO_value (k p : positive) :
  Z.pos (Pos.iter xO p k) = Z.pos p * 2 ^ Z.pos k.
Proof.
  induction k as [|k IH] using Pos.peano_ind.
  - simpl. lia.
  - rewrite Pos.iter_succ, Pos2Z.inj_xO, IH, Pos2Z.inj_succ, Z.pow_succ_r by lia. ring.
Qed.

(** The conversion of a non-negative integer. *)
Lemma double_of_int_normal (x : Z) :
  0 <= x -> zero_or_at_least_one (double_of_int x).
Proof.
  intros Hx. unfold double_of_int, binary_normalize.
  destruct x as [|p|p]; [reflexivity| |lia].
  unfold binary_round, shl_align, fexp, emin.
  pose proof (digits2_pos_bounds p) as Hbounds.
  set (d := Z.pos (digits2_pos p)) in *.
  assert (Hd : 1 <= d) by (subst d; lia).
  rewrite Z.add_0_r.
  replace (Z.max (d - 53) (3 - 1024 - 53) - 0) with (d - 53) by lia.
  destruct (d - 53) as [|k|k] eqn:Hk.
  - apply binary_round_aux_normal; fold d; lia.
  - apply binary_round_aux_normal; fold d; lia.
  - assert (Hdigits : Z.pos (digits2_pos (Pos.iter xO p k)) = 53).
    { apply digits2_pos_unique. rewrite iter_xO_value.
      assert (Hkd : Z.pos k = 53 - d) by lia. rewrite Hkd.
      assert (H52 : 2 ^ (53 - 1) = 2 ^ (d - 1) * 2 ^ (53 - d)).
      { rewrite <- Z.pow_add_r by lia. f_equal. lia. }
      assert (H53 : 2 ^ 53 = 2 ^ d * 2 ^ (53 - d)).
      { rewrite <- Z.pow_add_r by lia. f_equal. lia. }
      assert (0 < 2 ^ (53 - d)) by (apply Z.pow_pos_nonneg; lia).
      rewrite H52, H53. split.
      - apply Z.mul_le_mono_nonneg_r; lia.
      - apply Z.mul_lt_mono_pos_r; lia. }
    apply binary_round_aux_normal; rewrite Hdigits; lia.
Qed.

(** The product of two such doubles is one of them again. *)
Lemma double_mul_normal (x y : double) :
  zero_or_at_least_one x -> zero_or_at_least_one y ->
  zero_or_at_least_one (double_mul x y).
Proof.
  unfold double_mul.
  destruct x as [sx|sx| |sx mx ex], y as [sy|sy| |sy my ey]; simpl;
    try (intros; subst; exact I || reflexivity);
    try (intros [-> _] ->; reflexivity);
    try (intros -> [-> _]; reflexivity).
  intros [-> [Hmx Hex]] [-> [Hmy Hey]]. simpl xorb.
  pose proof (digits2_pos_bounds (mx * my)) as Hbounds.
  set (d := Z.pos (digits2_pos (mx * my))) in *.
  rewrite Pos2Z.inj_mul in Hbounds.
  assert (Hprod : 2 ^ 104 <= Z.pos mx * Z.pos my).
  { change (2 ^ 104) with (2 ^ 52 * 2 ^ 52).
    apply Z.mul_le_mono_nonneg; lia. }
  assert (Hd : 105 <= d).
  { destruct (Z.le_gt_cases 105 d) as [H|H]; [exact H|exfalso].
    assert (2 ^ d <= 2 ^ 104) by (apply Z.pow_le_mono_r; lia). lia. }
  apply binary_round_aux_normal; fold d; lia.
Qed.

(** Below a power of two [2^(52 + eL)]: the exponent is below [eL]. *)
Lemma double_ltb_power_of_two (x : double) (eL : Z) :
  zero_or_at_least_one x ->
  double_ltb x (S754_finite false 4503599627370496 eL) = true ->
  x = S754_zero false
  \/ exists m e, x = S754_finite false m e
                 /\ 2 ^ 52 <= Z.pos m < 2 ^ 53 /\ - 52 <= e < eL.
Proof.
  unfold double_ltb, SFltb.
  destruct x as [s|s| |s m e]; cbn [zero_or_at_least_one SFcompare].
  - intros -> _. left. reflexivity.
  - intros ->. discriminate.
  - discriminate.
  - intros [-> [Hm He]]. right. exists m, e. split; [reflexivity|].
    split; [exact Hm|]. split; [exact He|].
    destruct (Z.compare_spec e eL) as [Heq|Hlt|Hgt]; [|exact Hlt|discriminate].
    exfalso.
    destruct (Pos.compare_cont Eq m 4503599627370496) eqn:Hc; try discriminate.
    pose proof (Pos.compare_lt_iff m 4503599627370496) as Hiff.
    unfold Pos.compare in Hiff. apply Hiff in Hc. clear Hiff.
    apply Pos2Z.pos_lt_pos in Hc.
    assert (H52 : 2 ^ 52 = Z.pos 4503599627370496) by reflexivity.
    rewrite H52 in Hm. destruct Hm as [Hm _].
    apply Z.le_ngt in Hm. contradiction.
Qed.

(** Dividing a normal double by [2^16] lowers its exponent by 16. *)
Lemma double_div_65536 (m : positive) (e : Z) :
  2 ^ 52 <= Z.pos m < 2 ^ 53 -> - 52 <= e <= 900 ->
  double_div (S754_finite false m e) (double_of_int (64 * 1024))
  = S754_finite false m (e - 16).
Proof.
  intros Hm He.
  assert (Hdigits : Z.pos (digits2_pos m) = 53).
  { apply digits2_pos_unique. simpl (53 - 1). exact Hm. }
  change (double_of_int (64 * 1024)) with (S754_finite false 4503599627370496 (-36)).
  unfold double_div, SFdiv, SFdiv_core_binary.
  cbn [Zdigits2]. rewrite Hdigits.
  change (Z.pos (digits2_pos 4503599627370496)) with 53.
  unfold fexp, emin.
  replace (Z.min (Z.max (53 + e - (53 + -36) - 53) (3 - 1024 - 53)) (e - -36))
    with (e - 17) by lia.
  replace (e - -36 - (e - 17)) with 53 by lia.
  cbv iota.
  assert (Hshift : Z.shiftl (Z.pos m) 53 = Z.pos m * 2 ^ 53) by (apply Z.shiftl_mul_pow2; lia).
  rewrite Hshift.
  pose proof (Z_div_mod (Z.pos m * 2 ^ 53) (Z.pos 4503599627370496) eq_refl) as Hdiv.
  destruct (Z.div_eucl (Z.pos m * 2 ^ 53) (Z.pos 4503599627370496)) as [q r].
  assert (H53 : 2 ^ 53 = 9007199254740992) by reflexivity.
  rewrite H53 in Hdiv.
  assert (Hq : q = Z.pos m~0) by lia.
  assert (Hr : r = 0) by lia.
  subst q r. cbn [xorb].
  change (new_location (Z.pos 4503599627370496) 0) with loc_Exact.
  unfold binary_round_aux.
  assert (Hd2 : Z.pos (digits2_pos m~0) = 54).
  { cbn [digits2_pos]. rewrite Pos2Z.inj_succ, Hdigits. reflexivity. }
  assert (Hstep1 : shr_fexp 53 1024 (Z.pos m~0) (e - 17) loc_Exact
                   = (Build_shr_record (Z.pos m) false false, e - 16)).
  { unfold shr_fexp, fexp, emin. cbn [Zdigits2]. rewrite Hd2.
    replace (Z.max (54 + (e - 17) - 53) (3 - 1024 - 53) - (e - 17)) with 1 by lia.
    cbn. f_equal. lia. }
  rewrite Hstep1. cbn [shr_m loc_of_shr_record round_nearest_even].
  assert (Hstep2 : shr_fexp 53 1024 (Z.pos m) (e - 16) loc_Exact
                   = (Build_shr_record (Z.pos m) false false, e - 16)).
  { unfold shr_fexp, fexp, emin. cbn [Zdigits2]. rewrite Hdigits.
    replace (Z.max (53 + (e - 16) - 53) (3 - 1024 - 53) - (e - 16)) with 0 by lia.
    reflexivity. }
  rewrite Hstep2. cbn [shr_m].
  destruct (Z.leb_spec (e - 16) (1024 - 53)) as [_|Hbig]; [reflexivity|lia].
Qed.

(** The thread count of the first [if]: a complexity below
    [2^(52 + eL) = thread_complexity * 2^(eL + 36)] asks for at most
    [2^(eL + 36)] threads. *)
Lemma thread_count_by_complexity (complexity : double) (eL : Z) :
  zero_or_at_least_one complexity ->
  - 36 <= eL <= - 16 ->
  double_ltb complexity (S754_finite false 4503599627370496 eL) = true ->
  1 <= int32_of_double (double_div complexity (double_of_int (64 * 1024))) + 1
    <= 2 ^ (eL + 36).
Proof.
  intros Hc HeL Hlt.
  assert (Hcap : 1 <= 2 ^ (eL + 36)).
  { change 1 with (2 ^ 0). apply Z.pow_le_mono_r; lia. }
  destruct (double_ltb_power_of_two complexity eL Hc Hlt)
    as [->|[m [e [-> [Hm He]]]]].
  - change (double_div (S754_zero false) (double_of_int (64 * 1024)))
      with (S754_zero false).
    simpl int32_of_double. lia.
  - rewrite double_div_65536 by lia.
    unfold int32_of_double, cond_Zopp.
    destruct (Z.leb_spec 0 (e - 16)) as [Hpos|_]; [lia|].
    assert (Hpow : 0 < 2 ^ (- (e - 16))) by (apply Z.pow_pos_nonneg; lia).
    assert (Hquot : 0 <= Z.pos m / 2 ^ (- (e - 16)) < 2 ^ (eL + 36)).
    { split; [apply Z.div_pos; lia|].
      apply Z.div_lt_upper_bound; [exact Hpow|].
      assert (Hsplit : 2 ^ 53 <= 2 ^ (- (e - 16)) * 2 ^ (eL + 36)).
      { rewrite <- Z.pow_add_r by lia. apply Z.pow_le_mono_r; lia. }
      lia. }
    assert (Hmax : 2 ^ (eL + 36) <= 2 ^ 20) by (apply Z.pow_le_mono_r; lia).
    change (2 ^ 20) with 1048576 in Hmax.
    rewrite to_int32_small by (change (2 ^ 31) with 2147483648; lia). lia.
Qed.

(** X18. Carried out in binary64, as the source does, the thread count is at least
    1, at most [output_image_size] and at most the cap of the CPU topology,
    for every [output_image_size >= 1] and all channel and kernel counts that
    are not negative, also where a conversion or a product rounds or
    overflows to infinity. *)
Theorem ComputeMaxThreadCount_binary64_bounds :
  forall (IsHybrid : bool) (output_image_size group_output_channels kernel_dim : Z),
    1 <= output_image_size ->
    0 <= group_output_channels ->
    0 <= kernel_dim ->
    let thread_count :=
      ComputeMaxThreadCount_binary64 IsHybrid output_image_size group_output_channels kernel_dim in
    1 <= thread_count
    /\ thread_count <= output_image_size
    /\ thread_count <= (if IsHybrid then 64 else 16).
Proof.
  intros IsHybrid ois goc kd Hois Hgoc Hkd. cbv zeta.
  unfold ComputeMaxThreadCount_binary64.
  set (cap := if IsHybrid then 64 else 16).
  set (complexity := double_mul (double_mul (double_of_int ois) (double_of_int goc))
                                (double_of_int kd)).
  assert (Hc : zero_or_at_least_one complexity).
  { subst complexity. repeat apply double_mul_normal; apply double_of_int_normal; lia. }
  set (limit := double_mul (double_of_int (64 * 1024)) (double_of_int cap)).
  assert (Hfirst :
    1 <= (if double_ltb complexity limit
          then int32_of_double (double_div complexity (double_of_int (64 * 1024))) + 1
          else cap) <= cap).
  { destruct (double_ltb complexity limit) eqn:Hlt.
    - subst limit cap. destruct IsHybrid.
      + change (double_mul (double_of_int (64 * 1024)) (double_of_int 64))
          with (S754_finite false 4503599627370496 (-30)) in Hlt.
        apply (thread_count_by_complexity complexity (-30) Hc); [lia|exact Hlt].
      + change (double_mul (double_of_int (64 * 1024)) (double_of_int 16))
          with (S754_finite false 4503599627370496 (-32)) in Hlt.
        apply (thread_count_by_complexity complexity (-32) Hc); [lia|exact Hlt].
    - subst cap. destruct IsHybrid; lia. }
  set (t := if double_ltb complexity limit
            then int32_of_double (double_div complexity (double_of_int (64 * 1024))) + 1
            else cap) in *.
  assert (Hcap : cap <= 64) by (subst cap; destruct IsHybrid; lia).
  destruct (Z.gtb_spec t ois) as [Hgt|Hle].
  - rewrite to_int32_small by (change (2 ^ 31) with 2147483648; lia). lia.
  - lia.
Qed.

(** ** ReorderFilter: size and round trip *)

(** The element that [ReorderFilter] stores at the position of [(k, ic, oc)]. *)
Lemma ReorderFilter_nth_at (input : list Z) (OC IC KS oc ic k : Z) :
  0 <= oc < OC -> 0 <= ic < IC -> 0 <= k < KS ->
  OC * IC * KS < size_t_range ->
  nth (Z.to_nat ((k * IC + ic) * OC + oc)) (ReorderFilter input OC IC KS) 0
  = nth (Z.to_nat ((oc * IC + ic) * KS + k)) input 0.
Proof.
  intros Hoc Hic Hk Hfit. unfold ReorderFilter.
  set (inner := fun k0 ic0 =>
    map (fun oc0 => nth (Z.to_nat (ReorderFilter_index IC KS oc0 ic0 k0)) input 0)
        (range OC)).
  assert (Hinner : forall k0 ic0, length (inner k0 ic0) = Z.to_nat OC).
  { intros. unfold inner. now rewrite length_map, range_length. }
  assert (Hmid : forall k0, length (flat_map (inner k0) (range IC))
                            = (Z.to_nat IC * Z.to_nat OC)%nat).
  { intros. rewrite (flat_map_length_uniform _ (Z.to_nat OC)) by apply Hinner.
    now rewrite range_length. }
  replace (Z.to_nat ((k * IC + ic) * OC + oc))
    with (Z.to_nat k * (Z.to_nat IC * Z.to_nat OC)
          + (Z.to_nat ic * Z.to_nat OC + Z.to_nat oc))%nat by nia.
  rewrite (flat_map_nth_uniform (fun k0 => flat_map (inner k0) (range IC)) _ _ 0 0)
    by (try apply Hmid; try rewrite range_length; nia).
  rewrite range_nth by lia.
  rewrite (flat_map_nth_uniform (inner _) _ _ 0 0)
    by (try apply Hinner; try rewrite range_length; lia).
  rewrite range_nth by lia.
  unfold inner. rewrite (map_nth_in _ _ 0 0) by (rewrite range_length; lia).
  rewrite range_nth by lia. rewrite !Z2Nat.id by lia.
  unfold ReorderFilter_index, to_size_t.
  assert (0 <= oc * IC) by (apply Z.mul_nonneg_nonneg; lia).
  assert (0 <= oc * IC * KS) by (apply Z.mul_nonneg_nonneg; lia).
  assert (0 <= ic * KS) by (apply Z.mul_nonneg_nonneg; lia).
  assert ((oc + 1) * (IC * KS) <= OC * (IC * KS))
    by (apply Z.mul_le_mono_nonneg_r; [apply Z.mul_nonneg_nonneg|]; lia).
  assert ((ic + 1) * KS <= IC * KS) by (apply Z.mul_le_mono_nonneg_r; lia).
  rewrite Z.mod_small by lia.
  f_equal. f_equal. ring.
Qed.

(** One position per triple of a kernel position, an input channel and an
    output channel. *)
Lemma ReorderFilter_positions (input : list Z) (OC IC KS : Z) :
  length (ReorderFilter input OC IC KS)
  = (Z.to_nat KS * (Z.to_nat IC * Z.to_nat OC))%nat.
Proof.
  unfold ReorderFilter.
  rewrite (flat_map_length_uniform _ (Z.to_nat IC * Z.to_nat OC)).
  - now rewrite range_length.
  - intros k. rewrite (flat_map_length_uniform _ (Z.to_nat OC)).
    + now rewrite range_length.
    + intros ic. now rewrite length_map, range_length.
Qed.

(** X1. [ReorderFilter] writes exactly
    [output_channels * input_channels * kernel_size] elements, whatever the
    length of its input. *)
Theorem ReorderFilter_length :
  forall (input : list Z) (output_channels input_channels kernel_size : Z),
    0 <= output_channels -> 0 <= input_channels -> 0 <= kernel_size ->
    Z.of_nat (length (ReorderFilter input output_channels input_channels kernel_size))
    = output_channels * input_channels * kernel_size.
Proof.
  intros input OC IC KS HOC HIC HKS. rewrite ReorderFilter_positions. nia.
Qed.

Lemma ReorderFilter_length_witness :
  Z.of_nat (length (ReorderFilter [10; 11; 12; 13; 14; 15] 3 1 2)) = 3 * 1 * 2.
Proof.
  apply (ReorderFilter_length [10; 11; 12; 13; 14; 15] 3 1 2); lia.
Defined.

(** X2. Reordering back, with the roles of the output channels and of the kernel
    positions exchanged, restores the filter: [ReorderFilter] loses and
    duplicates nothing. *)
Theorem ReorderFilter_round_trip :
  forall (input : list Z) (output_channels input_channels kernel_size : Z),
    0 <= output_channels -> 0 <= input_channels -> 0 <= kernel_size ->
    output_channels * input_channels * kernel_size < size_t_range ->
    Z.of_nat (length input) = output_channels * input_channels * kernel_size ->
    ReorderFilter
      (ReorderFilter input output_channels input_channels kernel_size)
      kernel_size input_channels output_channels
    = input.
Proof.
  intros input OC IC KS HOC HIC HKS Hfit Hlen.
  assert (Hlen2 : Z.of_nat (length (ReorderFilter (ReorderFilter input OC IC KS) KS IC OC))
                  = KS * IC * OC) by (rewrite ReorderFilter_positions; nia).
  apply (nth_ext _ _ 0 0); [nia|].
  intros n Hn.
  assert (Hp : 0 <= Z.of_nat n < OC * IC * KS) by nia.
  set (p := Z.of_nat n) in *.
  assert (HKSpos : 0 < KS) by nia.
  assert (HICpos : 0 < IC) by nia.
  assert (HOCpos : 0 < OC) by nia.
  (* p = (oc * IC + ic) * KS + k *)
  set (k := p mod KS). set (q := p / KS).
  set (ic := q mod IC). set (oc := q / IC).
  assert (Hk : 0 <= k < KS) by (apply Z.mod_pos_bound; lia).
  assert (Hpq : p = KS * q + k) by (apply Z.div_mod; lia).
  assert (Hq : 0 <= q < OC * IC).
  { split; [apply Z.div_pos; lia|].
    apply Z.div_lt_upper_bound; [lia|]. nia. }
  assert (Hic : 0 <= ic < IC) by (apply Z.mod_pos_bound; lia).
  assert (Hqq : q = IC * oc + ic) by (apply Z.div_mod; lia).
  assert (Hoc : 0 <= oc < OC).
  { split; [apply Z.div_pos; lia|].
    apply Z.div_lt_upper_bound; [lia|]. nia. }
  replace n with (Z.to_nat ((oc * IC + ic) * KS + k)) by (subst p; nia).
  rewrite (ReorderFilter_nth_at (ReorderFilter input OC IC KS) KS IC OC k ic oc)
    by (try assumption; nia).
  rewrite (ReorderFilter_nth_at input OC IC KS oc ic k) by assumption.
  reflexivity.
Qed.

Lemma ReorderFilter_round_trip_witness :
  ReorderFilter (ReorderFilter [10; 11; 12; 13; 14; 15; 16; 17; 18; 19; 20; 21] 2 3 2)
                2 3 2
  = [10; 11; 12; 13; 14; 15; 16; 17; 18; 19; 20; 21].
Proof.
  apply (ReorderFilter_round_trip [10; 11; 12; 13; 14; 15; 16; 17; 18; 19; 20; 21] 2 3 2);
    unfold size_t_range; simpl; lia.
Defined.

(** ** The validation functions *)

Lemma per_tensor_or_per_channel_iff (shape : TensorShape) (M : Z) :
  (NumDimensions shape =? 0)
  || ((NumDimensions shape =? 1) && ((dim shape 0 =? 1) || (dim shape 0 =? M)))
  = true
  <-> per_tensor_or_per_channel shape M.
Proof.
  split; [|apply per_tensor_or_per_channel_test].
  unfold per_tensor_or_per_channel. intros H.
  apply orb_true_iff in H. destruct H as [H|H].
  - left. now apply Z.eqb_eq.
  - right. apply andb_true_iff in H. destruct H as [H1 H2].
    split; [now apply Z.eqb_eq|].
    apply orb_true_iff in H2. destruct H2 as [H2|H2]; [left|right]; now apply Z.eqb_eq.
Qed.

Lemma constant_from_second (data : list Z) (size : Z) :
  existsb (fun i => negb (nth (Z.to_nat i) data 0 =? nth 0 data 0))
          (map (Z.add 1) (range (size - 1))) = false
  <-> forall i, 1 <= i < size -> nth (Z.to_nat i) data 0 = nth 0 data 0.
Proof.
  split.
  - intros Hex i Hi.
    destruct (Z.eqb_spec (nth (Z.to_nat i) data 0) (nth 0 data 0)) as [Heq|Hne];
      [exact Heq|exfalso].
    assert (Htrue : existsb (fun i => negb (nth (Z.to_nat i) data 0 =? nth 0 data 0))
                            (map (Z.add 1) (range (size - 1))) = true).
    { apply existsb_exists. exists i. split.
      - apply in_map_iff. exists (i - 1). split; [lia|].
        unfold range. apply in_map_iff. exists (Z.to_nat (i - 1)). split; [lia|].
        apply in_seq. lia.
      - apply negb_true_iff. now apply Z.eqb_neq. }
    congruence.
  - intros Hall.
    destruct (existsb _ _) eqn:Hex; [exfalso|reflexivity].
    apply existsb_exists in Hex. destruct Hex as [i [Hin Hneq]].
    apply in_map_iff in Hin. destruct Hin as [j [Hij Hj]].
    unfold range in Hj. apply in_map_iff in Hj. destruct Hj as [n [Hn Hseq]].
    apply in_seq in Hseq.
    apply negb_true_iff, Z.eqb_neq in Hneq. apply Hneq, Hall. lia.
Qed.

(** X3. [CheckAndGetZeroPoint] returns [Status::OK()] exactly when the input zero
    point is a scalar or a single element, the output zero point is absent or
    a scalar or a single element, the filter zero point is a scalar, a single
    element or one element per output channel, and all elements of the filter
    zero point equal the first.  It then hands out the first element of each
    tensor, and leaves [Y_zero_point_value] as it was when [Y_zero_point] is
    absent.  Every failure is an [INVALID_ARGUMENT]. *)
Theorem CheckAndGetZeroPoint_accepts_iff :
  forall (X_zero_point W_zero_point : Tensor Z) (Y_zero_point : option (Tensor Z))
         (ca : ConvAttributesInFlight.t) (x y w : Z),
    let result := CheckAndGetZeroPoint X_zero_point W_zero_point Y_zero_point ca x y w in
    (fst result = Status_OK <->
     IsScalarOr1ElementVector X_zero_point = true
     /\ match Y_zero_point with
        | Some t => IsScalarOr1ElementVector t = true
        | None => True
        end
     /\ per_tensor_or_per_channel (Shape W_zero_point) (ConvAttributesInFlight.M ca)
     /\ forall i, 1 <= i < Size (Shape W_zero_point) ->
                  nth (Z.to_nat i) (Data W_zero_point) 0 = nth 0 (Data W_zero_point) 0)
    /\ (fst result = Status_OK ->
        snd result
        = (nth 0 (Data X_zero_point) 0,
           match Y_zero_point with Some t => nth 0 (Data t) 0 | None => y end,
           nth 0 (Data W_zero_point) 0))
    /\ (fst result <> Status_OK -> Code (fst result) = INVALID_ARGUMENT).
Proof.
  intros X W Y ca x y w. cbv zeta. unfold CheckAndGetZeroPoint.
  destruct (IsScalarOr1ElementVector X) eqn:HX; simpl negb; cbv iota;
    [|split; [split; [discriminate|intros [H _]; discriminate H]
             |split; [discriminate|reflexivity]]].
  cbv zeta.
  pose proof (per_tensor_or_per_channel_iff (Shape W) (ConvAttributesInFlight.M ca))
    as Hshape.
  pose proof (constant_from_second (Data W) (Size (Shape W))) as Hconst.
  assert (Hcheck : forall y' : Z,
    let r :=
      if (NumDimensions (Shape W) =? 0)
         || ((NumDimensions (Shape W) =? 1)
             && ((dim (Shape W) 0 =? 1)
                 || (dim (Shape W) 0 =? ConvAttributesInFlight.M ca)))
      then
        if existsb (fun i => negb (nth (Z.to_nat i) (Data W) 0 =? nth 0 (Data W) 0))
                   (map (Z.add 1) (range (Size (Shape W) - 1)))
        then (MakeStatus INVALID_ARGUMENT
                "QLinearConv : filter zero point must be constant",
              (nth 0 (Data X) 0, y', nth 0 (Data W) 0))
        else (Status_OK, (nth 0 (Data X) 0, y', nth 0 (Data W) 0))
      else (MakeStatus INVALID_ARGUMENT
              "QLinearConv : filter zero point shape invalid",
            (nth 0 (Data X) 0, y', w)) in
    (fst r = Status_OK <->
     per_tensor_or_per_channel (Shape W) (ConvAttributesInFlight.M ca)
     /\ forall i, 1 <= i < Size (Shape W) ->
                  nth (Z.to_nat i) (Data W) 0 = nth 0 (Data W) 0)
    /\ (fst r = Status_OK -> snd r = (nth 0 (Data X) 0, y', nth 0 (Data W) 0))
    /\ (fst r <> Status_OK -> Code (fst r) = INVALID_ARGUMENT)).
  { intros y'. cbv zeta.
    destruct ((NumDimensions (Shape W) =? 0) || _) eqn:Htest.
    - destruct (existsb _ _) eqn:Hex; simpl.
      + split; [split; [discriminate|]|split; [discriminate|reflexivity]].
        intros [_ Hall]. apply Hconst in Hall. congruence.
      + split; [split; [intros _|reflexivity]|split; [reflexivity|congruence]].
        split; [now apply Hshape|now apply Hconst].
    - simpl. split; [split; [discriminate|]|split; [discriminate|reflexivity]].
      intros [Hs _]. apply Hshape in Hs. congruence. }
  destruct Y as [t|].
  - destruct (IsScalarOr1ElementVector t) eqn:HY; simpl negb; cbv iota.
    + specialize (Hcheck (nth 0 (Data t) 0)). cbv zeta in Hcheck.
      destruct Hcheck as [Hiff [Hval Herr]].
      split; [|split; assumption].
      rewrite Hiff. tauto.
    + simpl. split; [split; [discriminate|]|split; [discriminate|reflexivity]].
      intros [_ [H _]]. discriminate H.
  - specialize (Hcheck y). cbv zeta in Hcheck.
    destruct Hcheck as [Hiff [Hval Herr]].
    split; [|split; assumption].
    rewrite Hiff. tauto.
Qed.

(** X4. [CheckAndGetScale] returns [Status::OK()] exactly when the input scale is
    a scalar or a single element, the output scale is absent or a scalar or a
    single element, and the filter scale is a scalar, a single element or one
    element per output channel.  It then writes one output scale per element
    of the filter scale, [X_scale * W_scale[i] / Y_scale], or
    [X_scale * W_scale[i]] without [Y_scale].  When it fails, with
    [INVALID_ARGUMENT], it has not touched [output_scales]. *)
Theorem CheckAndGetScale_accepts_iff :
  forall (X_scale W_scale : Tensor float) (Y_scale : option (Tensor float))
         (ca : ConvAttributesInFlight.t) (x y : float) (scales : list float),
    let result := CheckAndGetScale X_scale W_scale Y_scale ca x y scales in
    let X_scale_value := nth 0 (Data X_scale) (S754_zero false) in
    (fst result = Status_OK <->
     IsScalarOr1ElementVector X_scale = true
     /\ match Y_scale with
        | Some t => IsScalarOr1ElementVector t = true
        | None => True
        end
     /\ per_tensor_or_per_channel (Shape W_scale) (ConvAttributesInFlight.M ca))
    /\ (fst result = Status_OK ->
        snd (snd result)
        = map (fun i =>
                 let W_scale_i := nth (Z.to_nat i) (Data W_scale) (S754_zero false) in
                 match Y_scale with
                 | Some t =>
                   float_div (float_mul X_scale_value W_scale_i)
                             (nth 0 (Data t) (S754_zero false))
                 | None => float_mul X_scale_value W_scale_i
                 end)
              (range (Size (Shape W_scale))))
    /\ (fst result <> Status_OK ->
        Code (fst result) = INVALID_ARGUMENT /\ snd (snd result) = scales).
Proof.
  intros X W Y ca x y scales. cbv zeta. unfold CheckAndGetScale.
  destruct (IsScalarOr1ElementVector X) eqn:HX; simpl negb; cbv iota;
    [|split; [split; [discriminate|intros [H _]; discriminate H]
             |split; [discriminate|split; reflexivity]]].
  cbv zeta.
  pose proof (per_tensor_or_per_channel_iff (Shape W) (ConvAttributesInFlight.M ca))
    as Hshape.
  destruct Y as [t|].
  - destruct (IsScalarOr1ElementVector t) eqn:HY; simpl negb; cbv iota.
    + destruct ((NumDimensions (Shape W) =? 0) || _) eqn:Htest; simpl.
      * split; [split; [intros _|reflexivity]|split; [reflexivity|congruence]].
        repeat split. now apply Hshape.
      * split; [split; [discriminate|]|split; [discriminate|split; reflexivity]].
        intros [_ [_ Hs]]. apply Hshape in Hs. congruence.
    + simpl. split; [split; [discriminate|]|split; [discriminate|split; reflexivity]].
      intros [_ [H _]]. discriminate H.
  - destruct ((NumDimensions (Shape W) =? 0) || _) eqn:Htest; simpl.
    + split; [split; [intros _|reflexivity]|split; [reflexivity|congruence]].
      repeat split. now apply Hshape.
    + split; [split; [discriminate|]|split; [discriminate|split; reflexivity]].
      intros [_ [_ Hs]]. apply Hshape in Hs. congruence.
Qed.

(** ** PrePack: the three outcomes *)

Lemma PrePack_reorder_outcome (self : QLinearConv) (Wdata : list Z)
    (output_channels group_input_channels kernel_size : Z) (trace : list Event) :
  let run := PrePack_reorder self Wdata output_channels group_input_channels
                             kernel_size trace in
  (is_packed run = true /\ prepack_result run = Returned Status_OK
   /\ is_W_packed_ (prepack_self run) = true
   /\ W_shape_ (prepack_self run) = W_shape_ self
   /\ is_W_signed_ (prepack_self run) = is_W_signed_ self
   /\ conv_attrs_ (prepack_self run) = conv_attrs_ self
   /\ channels_last_ (prepack_self run) = channels_last_ self
   /\ packed_W_buffer_ (prepack_self run) = packed_W_buffer_ self
   /\ reordered_W_buffer_ (prepack_self run)
      = Some (ReorderFilter Wdata output_channels group_input_channels kernel_size))
  \/ (is_packed run = false /\ prepack_result run = Thrown "SafeInt overflow"
      /\ prepack_self run = self).
Proof.
  cbv zeta. unfold PrePack_reorder.
  destruct (SafeInt_mul 1 output_channels) as [b1|]; [|right; repeat split].
  destruct (SafeInt_mul b1 group_input_channels) as [b2|]; [|right; repeat split].
  destruct (SafeInt_mul b2 kernel_size) as [b3|]; [|right; repeat split].
  left. repeat split.
Qed.

(** X5. [PrePack] never returns an error status.  When it sets [is_packed] it
    returns [Status::OK()] for input 3, for a filter of rank above 2 whose
    output channels the group count divides; the kernel then has
    [is_W_packed_] set, has recorded the shape and the signedness of the
    filter, and holds a packed or a reordered buffer.  When it leaves
    [is_packed] false it has either declined, with [Status::OK()], an
    unchanged kernel and nothing allocated, or thrown on a size overflow. *)
Theorem PrePack_outcomes :
  forall (env : Platform) (self : QLinearConv) (tensor : WeightTensor) (input_idx : Z),
    let run := PrePack env self tensor input_idx in
    conv_attrs_ (prepack_self run) = conv_attrs_ self
    /\ channels_last_ (prepack_self run) = channels_last_ self
    /\ (is_packed run = true ->
        prepack_result run = Returned Status_OK
        /\ input_idx = 3
        /\ 2 < Z.of_nat (length (WShape tensor))
        /\ Z.rem (dim (WShape tensor) 0) (ConvAttributes.group (conv_attrs_ self)) = 0
        /\ is_W_packed_ (prepack_self run) = true
        /\ W_shape_ (prepack_self run) = WShape tensor
        /\ is_W_signed_ (prepack_self run) = IsInt8 tensor
        /\ (packed_W_buffer_ (prepack_self run) <> None
            \/ reordered_W_buffer_ (prepack_self run) <> None))
    /\ (is_packed run = false ->
        (prepack_result run = Returned Status_OK
         /\ prepack_self run = self /\ prepack_trace run = [])
        \/ prepack_result run = Thrown "SafeInt overflow").
Proof.
  intros env self tensor input_idx. cbv zeta. unfold PrePack.
  destruct (Z.eqb_spec input_idx 3) as [Hidx|Hidx]; simpl negb; cbv iota;
    [|simpl; repeat split; try discriminate; intros _; left; repeat split].
  destruct (Z.leb_spec (Z.of_nat (length (WShape tensor))) 2) as [Hrank|Hrank];
    [simpl; repeat split; try discriminate; intros _; left; repeat split|].
  destruct (Z.eqb_spec (Z.rem (dim (WShape tensor) 0)
                              (ConvAttributes.group (conv_attrs_ self))) 0)
    as [Hrem|Hrem]; simpl negb; cbv iota;
    [|simpl; repeat split; try discriminate; intros _; left; repeat split].
  cbv zeta.
  match goal with
  | |- context [if ?test then _ else PrePack_reorder ?s ?d ?oc ?gic ?ks []] =>
    destruct test;
      [|destruct (PrePack_reorder_outcome s d oc gic ks [])
          as [[H1 [H2 [H3 [H4 [H5 [H6 [H7 [H8 H9]]]]]]]]|[H1 [H2 H3]]];
        rewrite ?H1, ?H2, ?H3, ?H4, ?H5, ?H6, ?H7, ?H9; simpl;
        repeat split; try assumption; try discriminate; try congruence;
        try (intros _; right; reflexivity);
        try (right; discriminate)]
  end.
  destruct (negb (MlasGemmPackBSize env _ _ true =? 0)).
  - destruct (SafeInt_mul _ _); simpl.
    + repeat split; try assumption; try discriminate. left. discriminate.
    + repeat split; try discriminate. intros _. right. reflexivity.
  - match goal with
    | |- context [PrePack_reorder ?s ?d ?oc ?gic ?ks ?t] =>
      destruct (PrePack_reorder_outcome s d oc gic ks t)
        as [[H1 [H2 [H3 [H4 [H5 [H6 [H7 [H8 H9]]]]]]]]|[H1 [H2 H3]]];
        rewrite ?H1, ?H2, ?H3, ?H4, ?H5, ?H6, ?H7, ?H9; simpl;
        repeat split; try assumption; try discriminate; try congruence;
        try (intros _; right; reflexivity);
        try (right; discriminate)
    end.
Qed.

(** X6. When [PrePack] installs a packed buffer, neither channel count of a group
    is 1, the backend reported a block size other than 0, and the buffer holds
    one block per group: for group [g], the packed form of the reordered
    slice of the filter that starts at [g * W_offset].  The packing routine was
    called once per group. *)
Theorem PrePack_packs_each_group :
  forall (env : Platform) (self : QLinearConv) (tensor : WeightTensor)
         (blocks : list (list Z)),
    let run := PrePack env self tensor 3 in
    let shape := WShape tensor in
    let group := ConvAttributes.group (conv_attrs_ self) in
    let group_input_channels := to_size_t (dim shape 1) in
    let kernel_size := to_size_t (accumulate_multiplies (skipn 2 shape)) in
    let group_output_channels := to_size_t (dim shape 0) / to_size_t group in
    let kernel_dim := to_size_t (group_input_channels * kernel_size) in
    let W_offset := to_size_t (group_output_channels * kernel_dim) in
    packed_W_buffer_ self = None ->
    packed_W_buffer_ (prepack_self run) = Some blocks ->
    group_input_channels <> 1
    /\ group_output_channels <> 1
    /\ packed_W_size_ (prepack_self run)
       = MlasGemmPackBSize env group_output_channels kernel_dim true
    /\ packed_W_size_ (prepack_self run) <> 0
    /\ blocks
       = map (fun group_id =>
                MlasGemmPackB env group_output_channels kernel_dim
                  (ReorderFilter (skipn (Z.to_nat (group_id * W_offset)) (DataRaw tensor))
                                 group_output_channels group_input_channels kernel_size)
                  group_output_channels (IsInt8 tensor))
             (range group)
    /\ length blocks = Z.to_nat group
    /\ length (filter is_MlasGemmPackB (prepack_trace run)) = Z.to_nat group
    /\ reordered_W_buffer_ (prepack_self run) = reordered_W_buffer_ self.
Proof.
  intros env self tensor blocks. cbv zeta. intros Hnone. unfold PrePack.
  simpl (negb (3 =? 3)). cbv iota.
  destruct (Z.of_nat (length (WShape tensor)) <=? 2);
    [simpl; rewrite Hnone; discriminate|].
  destruct (negb (Z.rem _ _ =? 0)); [simpl; rewrite Hnone; discriminate|].
  cbv zeta.
  set (gic := to_size_t (dim (WShape tensor) 1)).
  set (ks := to_size_t (accumulate_multiplies (skipn 2 (WShape tensor)))).
  set (goc := to_size_t (dim (WShape tensor) 0)
              / to_size_t (ConvAttributes.group (conv_attrs_ self))).
  set (kd := to_size_t (gic * ks)).
  assert (Hreorder : forall s t,
            packed_W_buffer_ s = None ->
            packed_W_buffer_
              (prepack_self (PrePack_reorder s (DataRaw tensor)
                               (to_size_t (dim (WShape tensor) 0)) gic ks t))
            <> Some blocks).
  { intros s t Hs.
    destruct (PrePack_reorder_outcome s (DataRaw tensor)
                (to_size_t (dim (WShape tensor) 0)) gic ks t)
      as [[_ [_ [_ [_ [_ [_ [_ [H _]]]]]]]]|[_ [_ H]]].
    - rewrite H, Hs. discriminate.
    - rewrite H, Hs. discriminate. }
  destruct (Z.eqb_spec gic 1) as [Hgic|Hgic]; simpl negb; simpl andb; cbv iota;
    [intros H; exfalso; revert H; apply Hreorder; exact Hnone|].
  destruct (Z.eqb_spec goc 1) as [Hgoc|Hgoc]; simpl negb; cbv iota;
    [intros H; exfalso; revert H; apply Hreorder; exact Hnone|].
  destruct (Z.eqb_spec (MlasGemmPackBSize env goc kd true) 0) as [Hsize|Hsize];
    simpl negb; cbv iota;
    [intros H; exfalso; revert H; apply Hreorder; exact Hnone|].
  destruct (SafeInt_mul _ _) as [bytes|]; simpl;
    [|rewrite Hnone; discriminate].
  intros Hblocks. inversion Hblocks as [Heq]. clear Hblocks.
  repeat split; try assumption.
  - now rewrite length_map, range_length.
  - rewrite filter_flat_map.
    rewrite (flat_map_length_uniform _ 1) by (intros g; reflexivity).
    rewrite range_length. lia.
Qed.

Lemma PrePack_packs_each_group_witness :
  let run := PrePack sample_platform sample_kernel
               (MakeWeight [4; 2; 1; 1] [1; 2; 3; 4; 5; 6; 7; 8] false) 3 in
  length (filter is_MlasGemmPackB (prepack_trace run)) = 1%nat
  /\ packed_W_size_ (prepack_self run) = 64.
Proof.
  cbv zeta.
  destruct (PrePack_packs_each_group sample_platform sample_kernel
              (MakeWeight [4; 2; 1; 1] [1; 2; 3; 4; 5; 6; 7; 8] false)
              [[1; 3; 5; 7; 2; 4; 6; 8]] eq_refl eq_refl)
    as [_ [_ [Hsize [_ [_ [_ [Hcalls _]]]]]]].
  split; [exact Hcalls|exact Hsize].
Defined.

(** X7. When [PrePack] takes a filter and does not pack it (a group has one input
    channel or one output channel, or the backend reports block size 0), it
    keeps the whole filter reordered at once, with all output channels
    together, and reports it packed; the packing routine is not called. *)
Theorem PrePack_reorders_whole_filter :
  forall (env : Platform) (self : QLinearConv) (tensor : WeightTensor),
    let run := PrePack env self tensor 3 in
    let shape := WShape tensor in
    let group := ConvAttributes.group (conv_attrs_ self) in
    let output_channels := to_size_t (dim shape 0) in
    let group_input_channels := to_size_t (dim shape 1) in
    let kernel_size := to_size_t (accumulate_multiplies (skipn 2 shape)) in
    let group_output_channels := output_channels / to_size_t group in
    let kernel_dim := to_size_t (group_input_channels * kernel_size) in
    2 < Z.of_nat (length shape) ->
    group <> 0 ->
    Z.rem (dim shape 0) group = 0 ->
    (group_input_channels = 1 \/ group_output_channels = 1
     \/ MlasGemmPackBSize env group_output_channels kernel_dim true = 0) ->
    output_channels * group_input_channels < size_t_range ->
    output_channels * group_input_channels * kernel_size < size_t_range ->
    prepack_result run = Returned Status_OK
    /\ is_packed run = true
    /\ is_W_packed_ (prepack_self run) = true
    /\ W_shape_ (prepack_self run) = shape
    /\ reordered_W_buffer_ (prepack_self run)
       = Some (ReorderFilter (DataRaw tensor) output_channels group_input_channels
                             kernel_size)
    /\ packed_W_buffer_ (prepack_self run) = packed_W_buffer_ self
    /\ filter is_MlasGemmPackB (prepack_trace run) = [].
Proof.
  intros env self tensor. cbv zeta. intros Hrank Hgroup Hrem Hwhy Hfit2 Hfit.
  unfold PrePack. simpl (negb (3 =? 3)). cbv iota.
  destruct (Z.leb_spec (Z.of_nat (length (WShape tensor))) 2) as [H|_]; [lia|].
  rewrite Hrem. simpl (negb (0 =? 0)). cbv iota zeta.
  set (oc := to_size_t (dim (WShape tensor) 0)) in *.
  set (gic := to_size_t (dim (WShape tensor) 1)) in *.
  set (ks := to_size_t (accumulate_multiplies (skipn 2 (WShape tensor)))) in *.
  set (goc := oc / to_size_t (ConvAttributes.group (conv_attrs_ self))) in *.
  set (kd := to_size_t (gic * ks)) in *.
  assert (Hoc : 0 <= oc) by (apply Z.mod_pos_bound; reflexivity).
  assert (Hgic : 0 <= gic) by (apply Z.mod_pos_bound; reflexivity).
  assert (Hks : 0 <= ks) by (apply Z.mod_pos_bound; reflexivity).
  assert (Hreorder : forall s t,
    filter is_MlasGemmPackB t = [] ->
    let run := PrePack_reorder s (DataRaw tensor) oc gic ks t in
    prepack_result run = Returned Status_OK
    /\ is_packed run = true
    /\ is_W_packed_ (prepack_self run) = true
    /\ W_shape_ (prepack_self run) = W_shape_ s
    /\ reordered_W_buffer_ (prepack_self run)
       = Some (ReorderFilter (DataRaw tensor) oc gic ks)
    /\ packed_W_buffer_ (prepack_self run) = packed_W_buffer_ s
    /\ filter is_MlasGemmPackB (prepack_trace run) = []).
  { intros s t Ht. cbv zeta. unfold PrePack_reorder, SafeInt_mul.
    assert (H1 : 0 <= 1 * oc < size_t_range).
    { split; [lia|]. rewrite Z.mul_1_l. apply Z.mod_pos_bound. reflexivity. }
    assert (H2 : 0 <= 1 * oc * gic) by (apply Z.mul_nonneg_nonneg; lia).
    assert (H3 : 0 <= 1 * oc * gic * ks) by (apply Z.mul_nonneg_nonneg; lia).
    assert (H4 : 1 * oc * gic * ks < size_t_range) by lia.
    assert (H5 : 1 * oc * gic < size_t_range) by lia.
    destruct (Z.leb_spec 0 (1 * oc)); [|lia].
    destruct (Z.ltb_spec (1 * oc) size_t_range); [|lia]. simpl andb. cbv iota.
    destruct (Z.leb_spec 0 (1 * oc * gic)); [|lia].
    destruct (Z.ltb_spec (1 * oc * gic) size_t_range); [|lia]. simpl andb. cbv iota.
    destruct (Z.leb_spec 0 (1 * oc * gic * ks)); [|lia].
    destruct (Z.ltb_spec (1 * oc * gic * ks) size_t_range); [|lia].
    simpl. repeat split. rewrite filter_app, Ht. reflexivity. }
  assert (Hdone : forall s t,
    filter is_MlasGemmPackB t = [] ->
    W_shape_ s = WShape tensor ->
    packed_W_buffer_ s = packed_W_buffer_ self ->
    let run := PrePack_reorder s (DataRaw tensor) oc gic ks t in
    prepack_result run = Returned Status_OK
    /\ is_packed run = true
    /\ is_W_packed_ (prepack_self run) = true
    /\ W_shape_ (prepack_self run) = WShape tensor
    /\ reordered_W_buffer_ (prepack_self run)
       = Some (ReorderFilter (DataRaw tensor) oc gic ks)
    /\ packed_W_buffer_ (prepack_self run) = packed_W_buffer_ self
    /\ filter is_MlasGemmPackB (prepack_trace run) = []).
  { intros s t Ht Hs Hp. cbv zeta.
    destruct (Hreorder s t Ht) as [R1 [R2 [R3 [R4 [R5 [R6 R7]]]]]].
    repeat split; try assumption; congruence. }
  destruct Hwhy as [Hone|[Hone|Hzero]].
  - destruct (Z.eqb_spec gic 1) as [_|Hne]; [|contradiction].
    simpl. apply Hdone; reflexivity.
  - destruct (Z.eqb_spec goc 1) as [_|Hne]; [|contradiction].
    simpl negb. rewrite andb_false_r. apply Hdone; reflexivity.
  - destruct (negb (gic =? 1) && negb (goc =? 1)).
    + rewrite Hzero. simpl (negb (0 =? 0)). cbv iota.
      apply Hdone; reflexivity.
    + apply Hdone; reflexivity.
Qed.

Lemma PrePack_reorders_whole_filter_witness :
  reordered_W_buffer_
    (prepack_self (PrePack sample_platform sample_kernel
                     (MakeWeight [2; 1; 2; 1] [1; 2; 3; 4] false) 3))
  = Some (ReorderFilter [1; 2; 3; 4] 2 1 2).
Proof.
  apply (PrePack_reorders_whole_filter sample_platform sample_kernel
           (MakeWeight [2; 1; 2; 1] [1; 2; 3; 4] false)); simpl.
  - lia.
  - discriminate.
  - reflexivity.
  - left. reflexivity.
  - reflexivity.
  - reflexivity.
Defined.

(** ** Compute: the shape of a run *)

(** A run of [Compute] is its preparation, followed, when the preparation
    reaches the loop, by the images of the batch, and then it returns
    [Status::OK()]; otherwise it leaves as the preparation left. *)
Lemma Compute_run (env : Platform) (self : QLinearConv) (context : OpKernelContext) :
  match snd (Compute_prepare env self context) with
  | Next l =>
    Compute env self context
    = {| compute_result := Returned Status_OK;
         compute_trace :=
           fst (Compute_prepare env self context)
           ++ flat_map (Compute_image env l)
                       (range (ConvAttributesInFlight.N (conv_attrs l))) |}
  | Leave o =>
    Compute env self context
    = {| compute_result := o;
         compute_trace := fst (Compute_prepare env self context) |}
  end.
Proof.
  unfold Compute, finish, bind.
  destruct (snd (Compute_prepare env self context)) as [l|o]; simpl.
  - now rewrite app_nil_r.
  - reflexivity.
Qed.

(** The preparation only requests the output, allocates and reorders. *)
Lemma Compute_prepare_trace (env : Platform) (self : QLinearConv)
    (context : OpKernelContext) :
  Forall (fun e => is_ContextOutput e = true \/ is_Alloc e = true
                   \/ is_ReorderFilter e = true)
         (fst (Compute_prepare env self context)).
Proof.
  unfold Compute_prepare. cbv zeta.
  apply bind_trace_Forall.
  { destruct (ConvAttributesInFlight.ctor _ _ _ _); constructor. }
  intros ca _. apply bind_trace_Forall.
  { repeat constructor. }
  intros [] _.
  destruct (Size (ConvAttributesInFlight.Y_shape ca) =? 0); [constructor|].
  apply bind_trace_Forall.
  { unfold ORT_RETURN_IF_ERROR. destruct (IsOK _); constructor. }
  intros [] _. apply bind_trace_Forall.
  { unfold Compute_reordered_W.
    destruct (packed_W_buffer_ self); [constructor|].
    destruct (if is_W_packed_ self then None else Some (Input_W context));
      [|constructor].
    apply bind_trace_Forall; [apply alloc_trace_Forall; intros; right; left; reflexivity|].
    intros [] _. apply bind_trace_Forall; [|intros; constructor].
    constructor; [right; right; reflexivity|constructor]. }
  intros rw _. apply bind_trace_Forall.
  { apply alloc_trace_Forall. intros. right. left. reflexivity. }
  intros [] _. apply bind_trace_Forall.
  { destruct (negb (channels_last_ self)); [|constructor].
    apply bind_trace_Forall; [|intros [] _];
      apply alloc_trace_Forall; intros; right; left; reflexivity. }
  intros [] _. apply bind_trace_Forall.
  { unfold Compute_col_buffer.
    destruct (is_depthwise_conv _).
    - apply bind_trace_Forall; [|intros; constructor].
      apply alloc_trace_Forall. intros. right. left. reflexivity.
    - destruct (_ || _); [|constructor].
      apply bind_trace_Forall; [|intros; constructor].
      apply alloc_trace_Forall. intros. right. left. reflexivity. }
  intros hc _. constructor.
Qed.

Lemma filter_nil_Forall {A : Type} (p : A -> bool) (xs : list A) :
  Forall (fun x => p x = false) xs -> filter p xs = [].
Proof.
  induction 1 as [|x xs Hx _ IH]; simpl; [reflexivity|]. now rewrite Hx.
Qed.

Lemma Compute_prepare_no_backend_call (env : Platform) (self : QLinearConv)
    (context : OpKernelContext) :
  filter is_backend_call (fst (Compute_prepare env self context)) = [].
Proof.
  apply filter_nil_Forall.
  eapply Forall_impl; [|apply Compute_prepare_trace].
  intros e He. destruct e; simpl in *; try reflexivity;
    destruct He as [He|[He|He]]; discriminate He.
Qed.

(** X8. A run of [Compute] that does not return [Status::OK()], because a size
    computation overflowed, the constructor threw or the temporary allocator
    was not available, has made no call into the math backend: it has read no
    input and written no result. *)
Theorem Compute_fails_before_any_backend_call :
  forall (env : Platform) (self : QLinearConv) (context : OpKernelContext),
    compute_result (Compute env self context) <> Returned Status_OK ->
    filter is_backend_call (compute_trace (Compute env self context)) = [].
Proof.
  intros env self context Hfail.
  pose proof (Compute_run env self context) as Hrun.
  destruct (snd (Compute_prepare env self context)) as [l|o].
  - rewrite Hrun in Hfail. simpl in Hfail. contradiction Hfail. reflexivity.
  - rewrite Hrun. simpl. apply Compute_prepare_no_backend_call.
Qed.

Lemma Compute_fails_before_any_backend_call_witness :
  filter is_backend_call
    (compute_trace
       (Compute sample_platform sample_kernel
          (sample_context (MakeTensor [1; 1; 1; 1] [1])
                          (MakeWeight [1; 1; 3; 3] (repeat 1 9) false)))) = [].
Proof.
  apply (Compute_fails_before_any_backend_call sample_platform sample_kernel
           (sample_context (MakeTensor [1; 1; 1; 1] [1])
                           (MakeWeight [1; 1; 3; 3] (repeat 1 9) false))).
  simpl. discriminate.
Defined.

(** X9. When the temporary allocator is not available, [Compute] returns the
    error of [GetTempSpaceAllocator] as it is, after requesting the output and
    before allocating anything. *)
Theorem Compute_returns_allocator_error :
  forall (env : Platform) (self : QLinearConv) (context : OpKernelContext)
         (ca : ConvAttributesInFlight.t),
    ConvAttributesInFlight.ctor (conv_attrs_ self) (Shape (Input_X context))
      (Compute_W_shape self context) (channels_last_ self) = Constructed ca ->
    Size (ConvAttributesInFlight.Y_shape ca) <> 0 ->
    IsOK (GetTempSpaceAllocator context) = false ->
    Compute env self context
    = {| compute_result := Returned (GetTempSpaceAllocator context);
         compute_trace := [ContextOutput 0 (ConvAttributesInFlight.Y_shape ca)] |}.
Proof.
  intros env self context ca Hctor Hsize Halloc.
  pose proof (Compute_run env self context) as Hrun.
  assert (Hprepare : Compute_prepare env self context
                     = ([ContextOutput 0 (ConvAttributesInFlight.Y_shape ca)],
                        Leave (Returned (GetTempSpaceAllocator context)))).
  { unfold Compute_prepare. cbv zeta. rewrite Hctor.
    rewrite (bind_Next _ _ ca) by reflexivity.
    rewrite (bind_Next _ _ tt) by reflexivity.
    destruct (Z.eqb_spec (Size (ConvAttributesInFlight.Y_shape ca)) 0) as [H|_];
      [contradiction|].
    rewrite (bind_Leave _ _ (Returned (GetTempSpaceAllocator context)))
      by (unfold ORT_RETURN_IF_ERROR; rewrite Halloc; reflexivity).
    unfold ORT_RETURN_IF_ERROR. rewrite Halloc. reflexivity. }
  rewrite Hprepare in Hrun. exact Hrun.
Qed.

Lemma Compute_returns_allocator_error_witness :
  Compute sample_platform sample_kernel no_allocator_context
  = {| compute_result := Returned (MakeStatus FAIL "no allocator");
       compute_trace := [ContextOutput 0 [1; 2; 2; 2]] |}.
Proof.
  apply (Compute_returns_allocator_error sample_platform sample_kernel
           no_allocator_context pointwise_geometry);
    [reflexivity|discriminate|reflexivity].
Defined.

(** ** Compute: the locals at the loop, continued *)

Lemma Compute_prepare_locals (env : Platform) (self : QLinearConv)
    (context : OpKernelContext) (l : Locals) :
  snd (Compute_prepare env self context) = Next l ->
  ConvAttributesInFlight.channels_last_ (conv_attrs l) = channels_last_ self
  /\ W_is_packed l = match packed_W_buffer_ self with Some _ => true | None => false end
  /\ packed_W_size l = packed_W_size_ self
  /\ kernel_dim l
     = group_input_channels (dispatch l)
       * ConvAttributesInFlight.kernel_size (conv_attrs l)
  /\ thread_count l
     = Z.min (ComputeMaxThreadCount (IsHybrid env)
                (ConvAttributesInFlight.output_image_size (conv_attrs l))
                (group_output_channels (dispatch l)) (kernel_dim l))
             (DegreeOfParallelism context)
  /\ has_Bdata l = match Input_B context with Some _ => true | None => false end
  /\ Size (ConvAttributesInFlight.Y_shape (conv_attrs l)) <> 0
  /\ IsOK (GetTempSpaceAllocator context) = true.
Proof.
  unfold Compute_prepare. cbv zeta. intros H.
  apply bind_falls_through in H. destruct H as [ca [Hctor [H _]]].
  assert (Hca : ConvAttributesInFlight.ctor (conv_attrs_ self) (Shape (Input_X context))
                  (Compute_W_shape self context) (channels_last_ self) = Constructed ca).
  { destruct (ConvAttributesInFlight.ctor _ _ _ _) as [ca'|w]; simpl in Hctor;
      [now inversion Hctor|discriminate Hctor]. }
  clear Hctor. apply ctor_succeeds in Hca. destruct Hca as [_ [_ [_ [_ Hlast]]]].
  apply bind_falls_through in H. destruct H as [[] [_ [H _]]].
  destruct (Z.eqb_spec (Size (ConvAttributesInFlight.Y_shape ca)) 0) as [|Hsize];
    [discriminate H|].
  apply bind_falls_through in H. destruct H as [[] [Halloc [H _]]].
  assert (Hok : IsOK (GetTempSpaceAllocator context) = true).
  { unfold ORT_RETURN_IF_ERROR in Halloc.
    destruct (IsOK (GetTempSpaceAllocator context)); [reflexivity|discriminate Halloc]. }
  apply bind_falls_through in H. destruct H as [rw [_ [H _]]].
  apply bind_falls_through in H. destruct H as [[] [_ [H _]]].
  apply bind_falls_through in H. destruct H as [[] [_ [H _]]].
  apply bind_falls_through in H. destruct H as [hc [_ [H _]]].
  simpl in H. inversion H. subst l. clear H. simpl.
  repeat split; assumption || reflexivity.
Qed.

(** Every event of an image is a call into the math backend. *)
Lemma conv_worker_group_backend (l : Locals) (input_data : Pointer)
    (output_start output_count : Z) (worker_gemm_output : Pointer) (group_id : Z) :
  Forall (fun e => is_backend_call e = true)
         (conv_worker_group l input_data output_start output_count
                            worker_gemm_output group_id).
Proof.
  unfold conv_worker_group. cbv zeta.
  destruct (has_col_buffer l); [|repeat constructor].
  destruct (_ =? 2); [repeat constructor|].
  destruct (_ =? 1); repeat constructor.
Qed.

Lemma conv_worker_backend (env : Platform) (l : Locals)
    (input_data output_data : Pointer) (batch : Z) :
  Forall (fun e => is_backend_call e = true)
         (conv_worker env l input_data output_data batch).
Proof.
  unfold conv_worker. cbv zeta. apply Forall_app. split; [|repeat constructor].
  destruct (is_depthwise_conv (dispatch l)); [repeat constructor|].
  apply Forall_flat_map. apply Forall_forall. intros g _.
  apply conv_worker_group_backend.
Qed.

Lemma Compute_image_backend (env : Platform) (l : Locals) (image_id : Z) :
  Forall (fun e => is_backend_call e = true) (Compute_image env l image_id).
Proof.
  unfold Compute_image. cbv zeta.
  repeat (apply Forall_app; split).
  - destruct (negb _); repeat constructor.
  - destruct (_ && _ && _); [|constructor].
    apply Forall_forall. intros e He. apply in_map_iff in He.
    destruct He as [g [<- _]]. reflexivity.
  - apply Forall_flat_map. apply Forall_forall. intros b _. apply conv_worker_backend.
  - destruct (negb _); repeat constructor.
Qed.

Lemma filter_nil_when_other {A : Type} (p q : A -> bool) (xs : list A) :
  (forall x, q x = true -> p x = false) ->
  Forall (fun x => q x = true) xs -> filter p xs = [].
Proof.
  intros Hpq Hq. apply filter_nil_Forall.
  eapply Forall_impl; [|exact Hq]. intros x Hx. now apply Hpq.
Qed.

(** X10. In every run whose geometry is constructed, [Compute] requests the output
    tensor first, with the inferred shape, and never again. *)
Theorem Compute_requests_output_once :
  forall (env : Platform) (self : QLinearConv) (context : OpKernelContext)
         (ca : ConvAttributesInFlight.t),
    ConvAttributesInFlight.ctor (conv_attrs_ self) (Shape (Input_X context))
      (Compute_W_shape self context) (channels_last_ self) = Constructed ca ->
    exists rest,
      compute_trace (Compute env self context)
      = ContextOutput 0 (ConvAttributesInFlight.Y_shape ca) :: rest
      /\ filter is_ContextOutput rest = [].
Proof.
  intros env self context ca Hctor.
  assert (Hprepare : exists rest,
            fst (Compute_prepare env self context)
            = ContextOutput 0 (ConvAttributesInFlight.Y_shape ca) :: rest
            /\ filter is_ContextOutput rest = []).
  { pose proof (Compute_prepare_trace env self context) as Hall.
    unfold Compute_prepare in *. cbv zeta in *. rewrite Hctor in *.
    rewrite (bind_Next _ _ ca) in * by reflexivity.
    rewrite (bind_Next _ _ tt) in * by reflexivity.
    simpl fst in *. simpl app in *.
    eexists. split; [reflexivity|].
    destruct (Size (ConvAttributesInFlight.Y_shape ca) =? 0); [reflexivity|].
    (* after the request, only allocations and the reordering *)
    match goal with
    | |- filter _ (fst ?m) = [] =>
      assert (Hm : Forall (fun e => is_Alloc e = true \/ is_ReorderFilter e = true)
                          (fst m))
    end.
    { apply bind_trace_Forall.
      { unfold ORT_RETURN_IF_ERROR. destruct (IsOK _); constructor. }
      intros [] _. apply bind_trace_Forall.
      { unfold Compute_reordered_W.
        destruct (packed_W_buffer_ self); [constructor|].
        destruct (if is_W_packed_ self then None else Some (Input_W context));
          [|constructor].
        apply bind_trace_Forall; [apply alloc_trace_Forall; intros; left; reflexivity|].
        intros [] _. apply bind_trace_Forall; [|intros; constructor].
        constructor; [right; reflexivity|constructor]. }
      intros rw _. apply bind_trace_Forall.
      { apply alloc_trace_Forall. intros. left. reflexivity. }
      intros [] _. apply bind_trace_Forall.
      { destruct (negb (channels_last_ self)); [|constructor].
        apply bind_trace_Forall; [|intros [] _];
          apply alloc_trace_Forall; intros; left; reflexivity. }
      intros [] _. apply bind_trace_Forall.
      { unfold Compute_col_buffer.
        destruct (is_depthwise_conv _).
        - apply bind_trace_Forall; [|intros; constructor].
          apply alloc_trace_Forall. intros. left. reflexivity.
        - destruct (_ || _); [|constructor].
          apply bind_trace_Forall; [|intros; constructor].
          apply alloc_trace_Forall. intros. left. reflexivity. }
      intros hc _. constructor. }
    apply filter_nil_Forall. eapply Forall_impl; [|exact Hm].
    intros e [He|He]; destruct e; simpl in *; try reflexivity; discriminate He. }
  destruct Hprepare as [rest [Hrest Hnone]].
  pose proof (Compute_run env self context) as Hrun.
  destruct (snd (Compute_prepare env self context)) as [l|o]; rewrite Hrun; simpl;
    rewrite Hrest.
  - eexists. split; [reflexivity|].
    rewrite filter_app, Hnone. simpl.
    rewrite filter_flat_map. apply flat_map_nil. intros i.
    apply (filter_nil_when_other _ is_backend_call); [|apply Compute_image_backend].
    intros e He. destruct e; simpl in *; try reflexivity; discriminate He.
  - exists rest. split; [reflexivity|exact Hnone].
Qed.

Lemma Compute_requests_output_once_witness :
  exists rest,
    compute_trace (Compute sample_platform sample_kernel pointwise_context)
    = ContextOutput 0 [1; 2; 2; 2] :: rest
    /\ filter is_ContextOutput rest = [].
Proof.
  apply (Compute_requests_output_once sample_platform sample_kernel pointwise_context
           pointwise_geometry).
  reflexivity.
Defined.

(** ** Compute: counting the calls of a run *)

Lemma filter_backend_prepare (env : Platform) (self : QLinearConv)
    (context : OpKernelContext) (p : Event -> bool) :
  (forall e, p e = true -> is_backend_call e = true) ->
  filter p (fst (Compute_prepare env self context)) = [].
Proof.
  intros Hp. pose proof (Compute_prepare_no_backend_call env self context) as Hnone.
  induction (fst (Compute_prepare env self context)) as [|e es IH]; [reflexivity|].
  simpl in Hnone. simpl.
  destruct (is_backend_call e) eqn:He; [discriminate Hnone|].
  destruct (p e) eqn:Hpe.
  - apply Hp in Hpe. congruence.
  - now apply IH.
Qed.

Lemma conv_worker_no_transpose (env : Platform) (l : Locals)
    (input_data output_data : Pointer) (batch : Z) :
  filter is_MlasTranspose (conv_worker env l input_data output_data batch) = [].
Proof.
  unfold conv_worker. cbv zeta. rewrite filter_app. simpl. rewrite app_nil_r.
  destruct (is_depthwise_conv (dispatch l)); [reflexivity|].
  rewrite filter_flat_map. apply flat_map_nil. intros g.
  unfold conv_worker_group. cbv zeta.
  destruct (has_col_buffer l); [|reflexivity].
  destruct (_ =? 2); [reflexivity|]. destruct (_ =? 1); reflexivity.
Qed.

Lemma filter_map_none {A B : Type} (p : B -> bool) (f : A -> B) (xs : list A) :
  (forall x, p (f x) = false) -> filter p (map f xs) = [].
Proof.
  intros H. induction xs as [|x xs IH]; simpl; [reflexivity|]. now rewrite H.
Qed.

(** ** Compute on packed weights *)

Lemma Compute_prepare_trace_when (env : Platform) (self : QLinearConv)
    (context : OpKernelContext) (P : Event -> Prop) :
  (forall index shape, P (ContextOutput index shape)) ->
  (forall bytes, P (Alloc bytes)) ->
  (packed_W_buffer_ self = None ->
   forall oc ic ks, P (CallReorderFilter oc ic ks)) ->
  Forall P (fst (Compute_prepare env self context)).
Proof.
  intros Hout Halloc Hreorder.
  unfold Compute_prepare. cbv zeta.
  apply bind_trace_Forall.
  { destruct (ConvAttributesInFlight.ctor _ _ _ _); constructor. }
  intros ca _. apply bind_trace_Forall.
  { constructor; [apply Hout|constructor]. }
  intros [] _.
  destruct (Size (ConvAttributesInFlight.Y_shape ca) =? 0); [constructor|].
  apply bind_trace_Forall.
  { unfold ORT_RETURN_IF_ERROR. destruct (IsOK _); constructor. }
  intros [] _. apply bind_trace_Forall.
  { unfold Compute_reordered_W.
    destruct (packed_W_buffer_ self) eqn:Hbuf; [constructor|].
    destruct (if is_W_packed_ self then None else Some (Input_W context));
      [|constructor].
    apply bind_trace_Forall; [apply alloc_trace_Forall; exact Halloc|].
    intros [] _. apply bind_trace_Forall; [|intros; constructor].
    constructor; [apply Hreorder; reflexivity|constructor]. }
  intros rw _. apply bind_trace_Forall.
  { apply alloc_trace_Forall. exact Halloc. }
  intros [] _. apply bind_trace_Forall.
  { destruct (negb (channels_last_ self)); [|constructor].
    apply bind_trace_Forall; [|intros [] _]; apply alloc_trace_Forall; exact Halloc. }
  intros [] _. apply bind_trace_Forall.
  { unfold Compute_col_buffer.
    destruct (is_depthwise_conv _).
    - apply bind_trace_Forall; [|intros; constructor].
      apply alloc_trace_Forall. exact Halloc.
    - destruct (_ || _); [|constructor].
      apply bind_trace_Forall; [|intros; constructor].
      apply alloc_trace_Forall. exact Halloc. }
  intros hc _. constructor.
Qed.

(** How a property of all events of a run is established: on the
    preparation, and on every image when the loop is reached. *)
Lemma Compute_trace_Forall (env : Platform) (self : QLinearConv)
    (context : OpKernelContext) (P : Event -> Prop) :
  Forall P (fst (Compute_prepare env self context)) ->
  (forall l, snd (Compute_prepare env self context) = Next l ->
             forall image_id, Forall P (Compute_image env l image_id)) ->
  Forall P (compute_trace (Compute env self context)).
Proof.
  intros Hprepare Himages.
  pose proof (Compute_run env self context) as Hrun.
  destruct (snd (Compute_prepare env self context)) as [l|o]; rewrite Hrun; simpl.
  - apply Forall_app. split; [exact Hprepare|].
    apply Forall_flat_map. apply Forall_forall. intros i _.
    now apply Himages.
  - exact Hprepare.
Qed.

(** X13. On a kernel whose filter [PrePack] has packed, [Compute] never reorders
    the filter and never takes the depthwise path: every matrix multiply gets
    the packed operand, from the packed buffer. *)
Theorem Compute_on_packed_weights :
  forall (env : Platform) (self : QLinearConv) (context : OpKernelContext),
    Prepared env self ->
    packed_W_buffer_ self <> None ->
    Forall uses_packed_W (compute_trace (Compute env self context)).
Proof.
  intros env self context Hprepared Hpacked.
  apply Compute_trace_Forall.
  - apply Compute_prepare_trace_when; try (intros; exact I). contradiction.
  - intros l Hloop image_id.
    destruct (Compute_prepare_reaches_loop env self context l Hloop)
      as [rw [_ [Hrw [Hd _]]]].
    destruct (Compute_prepare_locals env self context l Hloop) as [_ [Hflag _]].
    destruct (packed_W_buffer_ self) as [blocks|] eqn:Hbuf; [|contradiction Hpacked; reflexivity].
    assert (Hnone : rw = None).
    { unfold Compute_reordered_W in Hrw. rewrite Hbuf in Hrw. simpl in Hrw.
      now inversion Hrw. }
    subst rw.
    assert (Hdw : is_depthwise_conv (dispatch l) = false) by (rewrite Hd; reflexivity).
    unfold Compute_image. cbv zeta. rewrite Hdw.
    repeat (apply Forall_app; split).
    + destruct (negb _); repeat constructor.
    + destruct (_ && _ && _); [|constructor].
      apply Forall_forall. intros e He. apply in_map_iff in He.
      destruct He as [g [<- _]]. exact I.
    + apply Forall_flat_map. apply Forall_forall. intros b _.
      unfold conv_worker. cbv zeta. rewrite Hdw.
      apply Forall_app. split; [|repeat constructor].
      apply Forall_flat_map. apply Forall_forall. intros g _.
      unfold conv_worker_group. cbv zeta. rewrite Hflag.
      apply Forall_app. split.
      * destruct (has_col_buffer l); [|constructor].
        destruct (_ =? 2); [repeat constructor|].
        destruct (_ =? 1); repeat constructor.
      * constructor; [|constructor]. simpl. repeat split.
    + destruct (negb _); repeat constructor.
Qed.

Lemma Compute_on_packed_weights_witness :
  Forall uses_packed_W
    (compute_trace
       (Compute sample_platform
          (prepack_self (PrePack sample_platform sample_kernel
                           (MakeWeight [4; 2; 1; 1] [1; 2; 3; 4; 5; 6; 7; 8] false) 3))
          (sample_context (MakeTensor [1; 2; 2; 2] [1; 2; 3; 4; 5; 6; 7; 8])
                          (MakeWeight [4; 2; 1; 1] [1; 2; 3; 4; 5; 6; 7; 8] false)))).
Proof.
  apply Compute_on_packed_weights.
  - apply Prepared_weight.
  - simpl. discriminate.
Defined.

Example Compute_on_packed_weights_runs :
  let run :=
    Compute sample_platform
      (prepack_self (PrePack sample_platform sample_kernel
                       (MakeWeight [4; 2; 1; 1] [1; 2; 3; 4; 5; 6; 7; 8] false) 3))
      (sample_context (MakeTensor [1; 2; 2; 2] [1; 2; 3; 4; 5; 6; 7; 8])
                      (MakeWeight [4; 2; 1; 1] [1; 2; 3; 4; 5; 6; 7; 8] false)) in
  compute_result run = Returned Status_OK
  /\ length (filter is_MlasGemm (compute_trace run)) = 1%nat.
Proof. split; reflexivity. Qed.

(** ** Per-column requantization *)

Lemma CheckAndGetScale_length (X_scale W_scale : Tensor float)
    (Y_scale : option (Tensor float)) (ca : ConvAttributesInFlight.t)
    (x y : float) (scales : list float) :
  fst (CheckAndGetScale X_scale W_scale Y_scale ca x y scales) = Status_OK ->
  length (snd (snd (CheckAndGetScale X_scale W_scale Y_scale ca x y scales)))
  = Z.to_nat (Size (Shape W_scale)).
Proof.
  unfold CheckAndGetScale.
  destruct (negb (IsScalarOr1ElementVector X_scale)); [discriminate|].
  cbv zeta.
  destruct Y_scale as [t|].
  - destruct (negb (IsScalarOr1ElementVector t)); [discriminate|].
    destruct (_ || _); [|discriminate].
    intros _. simpl. now rewrite length_map, range_length.
  - destruct (_ || _); [|discriminate].
    intros _. simpl. now rewrite length_map, range_length.
Qed.

(** X14. When the scales are valid, [Compute] asks every requantization for
    per-column scales exactly when the filter scale has more than one
    element. *)
Theorem Compute_per_column_requantization :
  forall (env : Platform) (self : QLinearConv) (context : OpKernelContext)
         (l : Locals),
    snd (Compute_prepare env self context) = Next l ->
    fst (Compute_scales context (conv_attrs l)) = Status_OK ->
    Forall (requantizes_per_column (1 <? Size (Shape (Input_W_scale context))))
           (compute_trace (Compute env self context)).
Proof.
  intros env self context l Hloop Hvalid.
  apply Compute_trace_Forall.
  - apply Compute_prepare_trace_when; intros; exact I.
  - intros l' Hloop' image_id.
    assert (l' = l) by congruence. subst l'.
    destruct (Compute_prepare_reaches_loop env self context l Hloop)
      as [rw [_ [_ [_ [_ [_ Hscales]]]]]].
    assert (Hflag : (1 <? Z.of_nat (length (output_scales l)))
                    = (1 <? Size (Shape (Input_W_scale context)))).
    { rewrite Hscales. unfold Compute_scales in *.
      rewrite CheckAndGetScale_length by exact Hvalid.
      destruct (Z.ltb_spec 1 (Size (Shape (Input_W_scale context))));
        destruct (Z.ltb_spec 1 (Z.of_nat (Z.to_nat (Size (Shape (Input_W_scale context))))));
        try reflexivity; lia. }
    unfold Compute_image. cbv zeta.
    repeat (apply Forall_app; split).
    + destruct (negb _); repeat constructor.
    + destruct (_ && _ && _); [|constructor].
      apply Forall_forall. intros e He. apply in_map_iff in He.
      destruct He as [g [<- _]]. exact I.
    + apply Forall_flat_map. apply Forall_forall. intros b _.
      unfold conv_worker. cbv zeta.
      apply Forall_app. split.
      * destruct (is_depthwise_conv (dispatch l)); [repeat constructor|].
        apply Forall_flat_map. apply Forall_forall. intros g _.
        unfold conv_worker_group. cbv zeta.
        apply Forall_app. split; [|repeat constructor].
        destruct (has_col_buffer l); [|constructor].
        destruct (_ =? 2); [repeat constructor|].
        destruct (_ =? 1); repeat constructor.
      * constructor; [|constructor]. exact Hflag.
    + destruct (negb _); repeat constructor.
Qed.

Lemma Compute_per_column_requantization_witness :
  Forall (requantizes_per_column true)
         (compute_trace (Compute sample_platform sample_kernel unscaled_context)).
Proof.
  apply (Compute_per_column_requantization sample_platform sample_kernel
           unscaled_context unscaled_locals); reflexivity.
Defined.

(** ** The geometry that the constructor derives *)

Lemma Size_app (l1 l2 : TensorShape) : Size (l1 ++ l2) = Size l1 * Size l2.
Proof.
  unfold Size. induction l1 as [|a l1 IH]; simpl.
  - destruct (fold_right Z.mul 1 l2); reflexivity.
  - rewrite IH. ring.
Qed.

Lemma Slice_after_two (a b : Z) (l : list Z) :
  Slice (a :: b :: l) 2 (2 + Z.of_nat (length l)) = l.
Proof.
  unfold Slice. replace (2 + Z.of_nat (length l) - 2) with (Z.of_nat (length l)) by lia.
  rewrite Nat2Z.id. simpl. apply firstn_all.
Qed.

Lemma Slice_after_one (a : Z) (l tail : list Z) :
  Slice (a :: l ++ tail) 1 (1 + Z.of_nat (length l)) = l.
Proof.
  unfold Slice. replace (1 + Z.of_nat (length l) - 1) with (Z.of_nat (length l)) by lia.
  rewrite Nat2Z.id. simpl. rewrite firstn_app, firstn_all, Nat.sub_diag. simpl.
  apply app_nil_r.
Qed.

Lemma InferOutputShape_succeeds (input_shape : TensorShape)
    (kernel_shape strides dilations pads Y_dims : list Z) :
  IsOK (fst (ConvAttributes.InferOutputShape input_shape kernel_shape strides
                                             dilations pads Y_dims)) = true ->
  exists spatial,
    snd (ConvAttributes.InferOutputShape input_shape kernel_shape strides
                                         dilations pads Y_dims)
    = Y_dims ++ spatial
    /\ length spatial = length kernel_shape
    /\ Forall (fun d => 0 <= d) spatial.
Proof.
  unfold ConvAttributes.InferOutputShape. cbv zeta.
  destruct (_ && _ && _); [|discriminate].
  match goal with
  | |- context [existsb ?f ?l] => set (inferred := l); destruct (existsb f inferred) eqn:Hneg
  end; [discriminate|].
  intros _. exists inferred. split; [reflexivity|]. split.
  - subst inferred. now rewrite length_map, length_seq.
  - apply Forall_forall. intros d Hd.
    destruct (Z.ltb_spec d 0) as [Hlt|Hge]; [|exact Hge].
    exfalso.
    assert (existsb (fun d => d <? 0) inferred = true).
    { apply existsb_exists. exists d. split; [exact Hd|now apply Z.ltb_lt]. }
    congruence.
Qed.

(** X16. When the constructor succeeds, the output shape is the batch size, the
    output channels and one dimension per kernel dimension, none of them
    negative, with the channels second (channels first) or last (channels
    last); [output_shape] holds the spatial dimensions, [output_image_size]
    their product, and the output tensor has [N * M * output_image_size]
    elements: the [Y_offset] by which [Compute] advances per image, [N]
    times. *)
Theorem ConvAttributesInFlight_output_geometry :
  forall (conv_attrs : ConvAttributes.t) (X_shape W_shape : TensorShape)
         (channel_last : bool) (ca : ConvAttributesInFlight.t),
    ConvAttributesInFlight.ctor conv_attrs X_shape W_shape channel_last
    = Constructed ca ->
    let spatial := ConvAttributesInFlight.output_shape ca in
    Z.of_nat (length spatial) = ConvAttributesInFlight.kernel_rank ca
    /\ ConvAttributesInFlight.kernel_rank ca = Z.of_nat (length W_shape - 2)
    /\ Forall (fun d => 0 <= d) spatial
    /\ ConvAttributesInFlight.Y_shape ca
       = (if channel_last
          then dim X_shape 0 :: spatial ++ [dim W_shape 0]
          else dim X_shape 0 :: dim W_shape 0 :: spatial)
    /\ ConvAttributesInFlight.output_image_size ca = Size spatial
    /\ Size (ConvAttributesInFlight.Y_shape ca)
       = ConvAttributesInFlight.N ca * ConvAttributesInFlight.M ca
         * ConvAttributesInFlight.output_image_size ca.
Proof.
  intros conv_attrs X_shape W_shape channel_last ca. cbv zeta.
  unfold ConvAttributesInFlight.ctor. cbv zeta.
  destruct (IsOK (fst (ConvAttributesInFlight.inferred conv_attrs X_shape W_shape
                                                       channel_last))) eqn:Hok;
    [|discriminate].
  unfold ConvAttributesInFlight.inferred in *. cbv zeta in *.
  apply InferOutputShape_succeeds in Hok.
  destruct Hok as [spatial [Hsnd [Hlen Hpos]]].
  rewrite Hsnd. clear Hsnd.
  assert (Hrank : length (ConvAttributes.ComputeKernelShape W_shape)
                  = (length W_shape - 2)%nat).
  { unfold ConvAttributes.ComputeKernelShape. now rewrite length_skipn. }
  rewrite <- Hlen in *.
  intros Hca. injection Hca as <-.
  cbn [ConvAttributesInFlight.output_shape ConvAttributesInFlight.kernel_rank
       ConvAttributesInFlight.Y_shape ConvAttributesInFlight.output_image_size
       ConvAttributesInFlight.N ConvAttributesInFlight.M negb].
  destruct channel_last; cbn [negb app].
  - rewrite Slice_after_one.
    repeat split; try assumption; try lia.
    change (dim X_shape 0 :: spatial ++ [dim W_shape 0])
      with ([dim X_shape 0] ++ spatial ++ [dim W_shape 0]).
    rewrite !Size_app. unfold Size at 1 3. cbn [fold_right]. ring.
  - rewrite Slice_after_two.
    repeat split; try assumption; try lia.
    change (dim X_shape 0 :: dim W_shape 0 :: spatial)
      with ([dim X_shape 0; dim W_shape 0] ++ spatial).
    rewrite Size_app. unfold Size at 1. cbn [fold_right]. ring.
Qed.

Lemma ConvAttributesInFlight_output_geometry_witness :
  ConvAttributesInFlight.Y_shape pointwise_geometry
  = dim [1; 1; 2; 2] 0 :: dim [2; 1; 1; 1] 0
    :: ConvAttributesInFlight.output_shape pointwise_geometry
  /\ Size (ConvAttributesInFlight.Y_shape pointwise_geometry) = 1 * 2 * 4.
Proof.
  destruct (ConvAttributesInFlight_output_geometry
              (ConvAttributes.Make 1 [] [] []) [1; 1; 2; 2] [2; 1; 1; 1] false
              pointwise_geometry eq_refl)
    as [_ [_ [_ [Hshape [_ Hsize]]]]].
  split; [exact Hshape|exact Hsize].
Defined.

(** ** ComputeMaxThreadCount: the closed form *)

(** X17. For counts that are not negative, the thread count is one thread per
    started [64 * 1024] units of complexity, capped by the maximum thread
    count of the CPU topology and by the number of output positions. *)
Theorem ComputeMaxThreadCount_closed_form :
  forall (IsHybrid : bool) (output_image_size group_output_channels kernel_dim : Z),
    0 <= output_image_size ->
    0 <= group_output_channels ->
    0 <= kernel_dim ->
    ComputeMaxThreadCount IsHybrid output_image_size group_output_channels kernel_dim
    = Z.min output_image_size
        (Z.min (if IsHybrid then 64 else 16)
               (output_image_size * group_output_channels * kernel_dim / (64 * 1024)
                + 1)).
Proof.
  intros IsHybrid ois goc kd Hois Hgoc Hkd.
  unfold ComputeMaxThreadCount, double_to_int32.
  set (cap := if IsHybrid then 64 else 16).
  assert (Hcap : 16 <= cap <= 64) by (subst cap; destruct IsHybrid; lia).
  set (c := ois * goc * kd).
  assert (Hc : 0 <= c).
  { subst c. apply Z.mul_nonneg_nonneg; [apply Z.mul_nonneg_nonneg|]; lia. }
  change (64 * 1024) with 65536.
  rewrite Z.quot_div_nonneg by lia.
  assert (Hq : 0 <= c / 65536) by (apply Z.div_pos; lia).
  assert (Hfirst :
    (if c <? 65536 * cap then to_int32 (c / 65536) + 1 else cap)
    = Z.min cap (c / 65536 + 1)).
  { destruct (Z.ltb_spec c (65536 * cap)) as [Hlt|Hge].
    - assert (c / 65536 < cap) by (apply Z.div_lt_upper_bound; lia).
      rewrite to_int32_small by lia. lia.
    - assert (cap <= c / 65536) by (apply Z.div_le_lower_bound; lia). lia. }
  rewrite Hfirst.
  destruct (Z.gtb_spec (Z.min cap (c / 65536 + 1)) ois) as [Hgt|Hle].
  - rewrite to_int32_small by lia. lia.
  - lia.
Qed.

Lemma ComputeMaxThreadCount_closed_form_witness :
  ComputeMaxThreadCount false 1024 64 9
  = Z.min 1024 (Z.min 16 (1024 * 64 * 9 / (64 * 1024) + 1)).
Proof.
  apply (ComputeMaxThreadCount_closed_form false 1024 64 9); lia.
Defined.

(** ** Witnesses *)

Lemma ComputeMaxThreadCount_binary64_bounds_witness :
  1 <= ComputeMaxThreadCount_binary64 true 1024 64 9
  /\ ComputeMaxThreadCount_binary64 true 1024 64 9 <= 1024
  /\ ComputeMaxThreadCount_binary64 true 1024 64 9 <= 64.
Proof.
  apply (ComputeMaxThreadCount_binary64_bounds true 1024 64 9); lia.
Defined.

(** ** Binary64 and exact arithmetic agree on ComputeMaxThreadCount *)

Lemma shr_1_exact (m : Z) :
  0 <= m -> (2 | m) ->
  shr_1 (Build_shr_record m false false) = Build_shr_record (m / 2) false false.
Proof.
  intros Hm [k Hk]. subst m. rewrite Z.div_mul by lia.
  destruct k as [|p|p]; [reflexivity| |lia].
  replace (Z.pos p * 2) with (Z.pos p~0) by lia. reflexivity.
Qed.

Lemma iter_shr_1_exact (n : positive) (m : Z) :
  0 <= m -> (2 ^ Z.pos n | m) ->
  iter_pos shr_1 n (Build_shr_record m false false)
  = Build_shr_record (m / 2 ^ Z.pos n) false false.
Proof.
  revert m. induction n as [n IH|n IH|]; intros m Hm Hdiv; cbn [iter_pos].
  - rewrite pow2_xI in *.
    assert (H2 : (2 | m)).
    { destruct Hdiv as [k Hk]. exists (k * 2 ^ Z.pos n * 2 ^ Z.pos n). lia. }
    assert (Hpos : 0 < 2 ^ Z.pos n) by (apply Z.pow_pos_nonneg; lia).
    assert (Hh : (2 ^ Z.pos n * 2 ^ Z.pos n | m / 2)).
    { destruct Hdiv as [k Hk]. subst m. exists k.
      replace (k * (2 * 2 ^ Z.pos n * 2 ^ Z.pos n))
        with (k * (2 ^ Z.pos n * 2 ^ Z.pos n) * 2) by ring.
      now rewrite Z.div_mul by lia. }
    rewrite shr_1_exact by assumption.
    assert (H1 : (2 ^ Z.pos n | m / 2)).
    { destruct Hh as [k Hk]. exists (k * 2 ^ Z.pos n). lia. }
    rewrite IH by (try assumption; apply Z.div_pos; lia).
    assert (H3 : (2 ^ Z.pos n | m / 2 / 2 ^ Z.pos n)).
    { destruct Hh as [k Hk]. rewrite Hk.
      rewrite Z.mul_assoc, Z.div_mul by lia. exists k. reflexivity. }
    assert (H0 : 0 <= m / 2) by (apply Z.div_pos; lia).
    assert (H4 : 0 <= m / 2 / 2 ^ Z.pos n) by (apply Z.div_pos; lia).
    rewrite IH by assumption.
    f_equal. rewrite !Z.div_div by lia. f_equal. ring.
  - rewrite pow2_xO in *.
    assert (Hpos : 0 < 2 ^ Z.pos n) by (apply Z.pow_pos_nonneg; lia).
    assert (H1 : (2 ^ Z.pos n | m)).
    { destruct Hdiv as [k Hk]. exists (k * 2 ^ Z.pos n). lia. }
    rewrite IH by assumption.
    assert (H3 : (2 ^ Z.pos n | m / 2 ^ Z.pos n)).
    { destruct Hdiv as [k Hk]. rewrite Hk.
      rewrite Z.mul_assoc, Z.div_mul by lia. exists k. reflexivity. }
    rewrite IH by (try assumption; apply Z.div_pos; lia).
    f_equal. rewrite !Z.div_div by lia. reflexivity.
  - apply shr_1_exact; assumption.
Qed.

(** Rounding a mantissa of at least 53 bits, within the exponent range: a
    normal number whose exponent is that of the leading bit, or one more. *)
Lemma binary_round_aux_finite (m : positive) (e : Z) (l : location) :
  let d := Z.pos (digits2_pos m) in
  53 <= d -> - 1074 <= d + e - 53 -> d + e - 52 <= 971 ->
  exists m' e',
    binary_round_aux 53 1024 false (Z.pos m) e l = S754_finite false m' e'
    /\ 2 ^ 52 <= Z.pos m' < 2 ^ 53
    /\ d + e - 53 <= e' <= d + e - 52.
Proof.
  intros d Hd He Hmax. unfold binary_round_aux.
  destruct (shr_fexp_normal m e l Hd) as [mrs [Hshift Hmant]]; [fold d; lia|].
  fold d in Hshift, Hmant. rewrite Hshift.
  pose proof (digits2_pos_bounds m) as Hbounds. fold d in Hbounds.
  destruct (pow2_split d Hd) as [Hlo [Hhi Hpos]].
  clearbody d.
  assert (Hq : 2 ^ 52 <= shr_m mrs < 2 ^ 53).
  { rewrite Hmant. split.
    - apply Z.div_le_lower_bound; lia.
    - apply Z.div_lt_upper_bound; lia. }
  pose proof (round_nearest_even_range (shr_m mrs) (loc_of_shr_record mrs)) as Hround.
  set (m2 := round_nearest_even (shr_m mrs) (loc_of_shr_record mrs)) in *.
  assert (Hm2 : 2 ^ 52 <= m2 <= 2 ^ 53) by lia.
  destruct m2 as [|p2|p2] eqn:Ep2; try lia.
  destruct (Z.eq_dec (Z.pos p2) (2 ^ 53)) as [Htop|Hbelow].
  - assert (Hd2 : Z.pos (digits2_pos p2) = 54).
    { apply digits2_pos_unique. rewrite Htop. simpl. lia. }
    destruct (shr_fexp_normal p2 (d + e - 53) loc_Exact) as [mrs2 [Hshift2 Hmant2]];
      try (rewrite Hd2; lia).
    rewrite Hd2 in Hshift2, Hmant2. rewrite Hshift2.
    rewrite Htop in Hmant2. change (2 ^ 53 / 2 ^ (54 - 53)) with (2 ^ 52) in Hmant2.
    rewrite Hmant2. change (2 ^ 52) with (Z.pos 4503599627370496).
    destruct (Z.leb_spec (54 + (d + e - 53) - 53) (1024 - 53)) as [_|Hbig]; [|lia].
    exists 4503599627370496%positive, (54 + (d + e - 53) - 53).
    split; [reflexivity|]. split; [|lia].
    split; [discriminate|reflexivity].
  - assert (Hd2 : Z.pos (digits2_pos p2) = 53).
    { apply digits2_pos_unique. simpl (53 - 1). lia. }
    destruct (shr_fexp_normal p2 (d + e - 53) loc_Exact) as [mrs2 [Hshift2 Hmant2]];
      try (rewrite Hd2; lia).
    rewrite Hd2 in Hshift2, Hmant2. rewrite Hshift2.
    change (2 ^ (53 - 53)) with 1 in Hmant2. rewrite Z.div_1_r in Hmant2.
    rewrite Hmant2.
    destruct (Z.leb_spec (53 + (d + e - 53) - 53) (1024 - 53)) as [_|Hbig]; [|lia].
    exists p2, (53 + (d + e - 53) - 53).
    split; [reflexivity|]. split; lia.
Qed.

(** Rounding a mantissa whose bits below the 53 leading ones are all zero is
    exact: those bits are dropped. *)
Lemma binary_round_aux_exact (m : positive) (e : Z) :
  let d := Z.pos (digits2_pos m) in
  53 <= d -> - 1074 <= d + e - 53 -> d + e - 53 <= 971 ->
  (2 ^ (d - 53) | Z.pos m) ->
  exists m',
    binary_round_aux 53 1024 false (Z.pos m) e loc_Exact
    = S754_finite false m' (d + e - 53)
    /\ Z.pos m' = Z.pos m / 2 ^ (d - 53)
    /\ 2 ^ 52 <= Z.pos m' < 2 ^ 53.
Proof.
  intros d Hd He Hmax Hdiv. unfold binary_round_aux.
  pose proof (digits2_pos_bounds m) as Hbounds. fold d in Hbounds.
  destruct (pow2_split d Hd) as [Hlo [Hhi Hpos]].
  assert (Hstep1 : shr_fexp 53 1024 (Z.pos m) e loc_Exact
                   = (Build_shr_record (Z.pos m / 2 ^ (d - 53)) false false,
                      d + e - 53)).
  { unfold shr_fexp, fexp, emin. cbn [Zdigits2]. fold d.
    replace (Z.max (d + e - 53) (3 - 1024 - 53) - e) with (d - 53) by lia.
    unfold shr, shr_record_of_loc.
    destruct (d - 53) as [|k|k] eqn:Hk.
    - rewrite Z.div_1_r. f_equal. lia.
    - rewrite iter_shr_1_exact by (try assumption; lia). f_equal. lia.
    - lia. }
  rewrite Hstep1. cbn [shr_m loc_of_shr_record round_nearest_even].
  clearbody d.
  assert (Hq : 2 ^ 52 <= Z.pos m / 2 ^ (d - 53) < 2 ^ 53).
  { split.
    - apply Z.div_le_lower_bound; lia.
    - apply Z.div_lt_upper_bound; lia. }
  destruct (Z.pos m / 2 ^ (d - 53)) as [|q|q] eqn:Hquot; try lia.
  assert (Hdq : Z.pos (digits2_pos q) = 53).
  { apply digits2_pos_unique. simpl (53 - 1). lia. }
  assert (Hstep2 : shr_fexp 53 1024 (Z.pos q) (d + e - 53) loc_Exact
                   = (Build_shr_record (Z.pos q) false false, d + e - 53)).
  { unfold shr_fexp, fexp, emin. cbn [Zdigits2]. rewrite Hdq.
    replace (Z.max (53 + (d + e - 53) - 53) (3 - 1024 - 53) - (d + e - 53))
      with 0 by lia.
    reflexivity. }
  rewrite Hstep2. cbn [shr_m].
  destruct (Z.leb_spec (d + e - 53) (1024 - 53)) as [_|Hbig]; [|lia].
  exists q. repeat split; lia.
Qed.

(** The conversion of an [int64_t] that is not negative holds it. *)
Lemma double_of_int_holds (x : Z) :
  0 <= x < 2 ^ 63 -> double_holds 11 x (double_of_int x).
Proof.
  intros Hx. unfold double_of_int, binary_normalize.
  destruct x as [|p|p]; [left; split; reflexivity| |lia].
  right.
  unfold binary_round, shl_align, fexp, emin.
  pose proof (digits2_pos_bounds p) as Hbounds.
  set (d := Z.pos (digits2_pos p)) in *.
  assert (Hd : 1 <= d) by (subst d; lia).
  assert (Hd63 : d <= 63).
  { destruct (Z.le_gt_cases d 63) as [H|H]; [exact H|exfalso].
    assert (2 ^ 63 <= 2 ^ (d - 1)) by (apply Z.pow_le_mono_r; lia). lia. }
  rewrite Z.add_0_r.
  replace (Z.max (d - 53) (3 - 1024 - 53) - 0) with (d - 53) by lia.
  destruct (d - 53) as [|k|k] eqn:Hk.
  - destruct (binary_round_aux_exact p 0) as [m' [Heq [Hval Hm']]]; fold d; try lia.
    { replace (d - 53) with 0 by lia. exists (Z.pos p). simpl. lia. }
    rewrite Heq. exists m', (d + 0 - 53). split; [reflexivity|].
    split; [exact Hm'|]. split; [lia|]. left. split; [lia|].
    rewrite Hval. fold d. replace (d - 53) with 0 by lia.
    replace (- (d + 0 - 53)) with 0 by lia. rewrite Z.div_1_r. simpl. lia.
  - destruct (binary_round_aux_finite p 0 loc_Exact) as [m' [e' [Heq [Hm' He']]]];
      fold d; try lia.
    rewrite Heq. fold d in He'. exists m', e'. split; [reflexivity|].
    split; [exact Hm'|]. split; [lia|]. right. split; [lia|].
    assert (2 ^ 53 <= 2 ^ (d - 1)) by (apply Z.pow_le_mono_r; lia). lia.
  - change (IntDef.Z.max (Z.neg k) (3 - 1024 - 53))
      with (Z.max (Z.neg k) (3 - 1024 - 53)).
    replace (Z.max (Z.neg k) (3 - 1024 - 53)) with (Z.neg k) by lia.
    assert (Hvalue : Z.pos (Pos.iter xO p k) = Z.pos p * 2 ^ Z.pos k)
      by apply iter_xO_value.
    assert (Hdigits : Z.pos (digits2_pos (Pos.iter xO p k)) = 53).
    { apply digits2_pos_unique. rewrite Hvalue.
      assert (Hkd : Z.pos k = 53 - d) by lia. rewrite Hkd.
      assert (H52 : 2 ^ (53 - 1) = 2 ^ (d - 1) * 2 ^ (53 - d)).
      { rewrite <- Z.pow_add_r by lia. f_equal. lia. }
      assert (H53 : 2 ^ 53 = 2 ^ d * 2 ^ (53 - d)).
      { rewrite <- Z.pow_add_r by lia. f_equal. lia. }
      assert (0 < 2 ^ (53 - d)) by (apply Z.pow_pos_nonneg; lia).
      rewrite H52, H53. split.
      - apply Z.mul_le_mono_nonneg_r; lia.
      - apply Z.mul_lt_mono_pos_r; lia. }
    destruct (binary_round_aux_exact (Pos.iter xO p k) (Z.neg k))
      as [m' [Heq [Hval Hm']]]; rewrite ?Hdigits; try lia.
    { exists (Z.pos (Pos.iter xO p k)). simpl. lia. }
    rewrite Heq, Hdigits. rewrite Hdigits in Hval.
    exists m', (53 + Z.neg k - 53). split; [reflexivity|].
    split; [exact Hm'|]. split; [lia|]. left. split; [lia|].
    rewrite Hval, Hvalue. change (2 ^ (53 - 53)) with 1. rewrite Z.div_1_r.
    f_equal. f_equal. lia.
Qed.

(** Only a positive integer is held by a finite double. *)
Lemma double_holds_positive (K x : Z) (s : bool) (m : positive) (e : Z) :
  double_holds K x (S754_finite s m e) -> 1 <= x.
Proof.
  intros [[_ H]|[m' [e' [Heq [Hm [He [[Hle Hval]|[_ Hbig]]]]]]]].
  - discriminate.
  - assert (0 < 2 ^ (- e')) by (apply Z.pow_pos_nonneg; lia).
    destruct (Z.le_gt_cases 1 x) as [Hx|Hx]; [exact Hx|exfalso].
    assert (x * 2 ^ (- e') <= 0) by (apply Z.mul_nonpos_nonneg; lia). lia.
  - assert (0 < 2 ^ 53) by (apply Z.pow_pos_nonneg; lia). lia.
Qed.

(** The product of two doubles that hold [a] and [b] holds [a * b]. *)
Lemma double_mul_holds (K1 K2 a b : Z) (fa fb : double) :
  double_holds K1 a fa -> double_holds K2 b fb ->
  K1 + K2 + 54 <= 971 ->
  double_holds (K1 + K2 + 54) (a * b) (double_mul fa fb).
Proof.
  intros Ha Hb HK.
  destruct Ha as [[-> ->]|[ma [ea [-> [Hma [Hea Hva]]]]]].
  { left. split; [reflexivity|].
    destruct Hb as [[_ ->]|[mb [eb [-> _]]]]; reflexivity. }
  destruct Hb as [[-> ->]|[mb [eb [-> [Hmb [Heb Hvb]]]]]].
  { left. split; [ring|reflexivity]. }
  right.
  assert (Hapos : 1 <= a).
  { apply (double_holds_positive K1 a false ma ea). right. exists ma, ea. auto. }
  assert (Hbpos : 1 <= b).
  { apply (double_holds_positive K2 b false mb eb). right. exists mb, eb. auto. }
  unfold double_mul, SFmul. cbn [xorb].
  pose proof (digits2_pos_bounds (ma * mb)) as Hbounds.
  pose proof (binary_round_aux_exact (ma * mb) (ea + eb)) as Hexact.
  pose proof (binary_round_aux_finite (ma * mb) (ea + eb) loc_Exact) as Hfinite.
  cbv zeta in Hexact, Hfinite.
  set (d := Z.pos (digits2_pos (ma * mb))) in *.
  rewrite Pos2Z.inj_mul in Hbounds, Hexact.
  assert (Hlow : 2 ^ 104 <= Z.pos ma * Z.pos mb).
  { change (2 ^ 104) with (2 ^ 52 * 2 ^ 52).
    apply Z.mul_le_mono_nonneg; lia. }
  assert (Hhigh : Z.pos ma * Z.pos mb < 2 ^ 106).
  { change (2 ^ 106) with (2 ^ 53 * 2 ^ 53).
    apply Z.mul_lt_mono_nonneg; lia. }
  assert (Hd : 105 <= d <= 106).
  { split.
    - destruct (Z.le_gt_cases 105 d) as [H|H]; [exact H|exfalso].
      assert (2 ^ d <= 2 ^ 104) by (apply Z.pow_le_mono_r; lia). lia.
    - destruct (Z.le_gt_cases d 106) as [H|H]; [exact H|exfalso].
      assert (2 ^ 106 <= 2 ^ (d - 1)) by (apply Z.pow_le_mono_r; lia). lia. }
  assert (Hlarge :
    2 ^ 53 <= a * b -> 1 <= d + (ea + eb) - 53 ->
    exists m e,
      binary_round_aux 53 1024 false (Z.pos (ma * mb)) (ea + eb) loc_Exact
      = S754_finite false m e
      /\ 2 ^ 52 <= Z.pos m < 2 ^ 53
      /\ - 52 <= e <= K1 + K2 + 54
      /\ ((e <= 0 /\ Z.pos m = a * b * 2 ^ (- e)) \/ (1 <= e /\ 2 ^ 53 <= a * b))).
  { intros Hab He.
    destruct Hfinite as [m' [e' [Heq [Hm' He']]]]; try lia.
    exists m', e'. split; [exact Heq|]. split; [exact Hm'|].
    split; [lia|]. right. split; [lia|exact Hab]. }
  assert (Hmono : forall x y, 2 ^ 53 <= x -> 1 <= y -> 2 ^ 53 <= x * y).
  { intros x y Hx Hy. assert (0 < 2 ^ 53) by (apply Z.pow_pos_nonneg; lia).
    assert (x * 1 <= x * y) by (apply Z.mul_le_mono_nonneg_l; lia). lia. }
  destruct Hva as [[Hale Hva]|[Hage Habig]].
  2: { apply Hlarge; [apply Hmono; assumption|lia]. }
  destruct Hvb as [[Hble Hvb]|[Hbge Hbbig]].
  2: { apply Hlarge; [rewrite Z.mul_comm; apply Hmono; assumption|lia]. }
  assert (Hprod : Z.pos ma * Z.pos mb = a * b * 2 ^ (- (ea + eb))).
  { rewrite Hva, Hvb.
    replace (- (ea + eb)) with (- ea + - eb) by lia.
    rewrite Z.pow_add_r by lia. ring. }
  assert (Hscale : 0 < 2 ^ (- (ea + eb))) by (apply Z.pow_pos_nonneg; lia).
  destruct (Z.le_gt_cases (2 ^ 53) (a * b)) as [Hab|Hab].
  - apply Hlarge; [exact Hab|].
    destruct (Z.le_gt_cases 1 (d + (ea + eb) - 53)) as [H|H]; [exact H|exfalso].
    assert (2 ^ d <= 2 ^ (53 - (ea + eb))) by (apply Z.pow_le_mono_r; lia).
    assert (2 ^ (53 - (ea + eb)) = 2 ^ 53 * 2 ^ (- (ea + eb))).
    { rewrite <- Z.pow_add_r by lia. f_equal; lia. }
    assert (2 ^ 53 * 2 ^ (- (ea + eb)) <= a * b * 2 ^ (- (ea + eb)))
      by (apply Z.mul_le_mono_nonneg_r; lia).
    lia.
  - assert (Hdle : d + (ea + eb) - 53 <= 0).
    { destruct (Z.le_gt_cases (d + (ea + eb) - 53) 0) as [H|H]; [exact H|exfalso].
      assert (2 ^ (53 - (ea + eb)) <= 2 ^ (d - 1)) by (apply Z.pow_le_mono_r; lia).
      assert (2 ^ (53 - (ea + eb)) = 2 ^ 53 * 2 ^ (- (ea + eb))).
      { rewrite <- Z.pow_add_r by lia. f_equal; lia. }
      assert (a * b * 2 ^ (- (ea + eb)) < 2 ^ 53 * 2 ^ (- (ea + eb)))
        by (apply Z.mul_lt_mono_pos_r; lia).
      lia. }
    assert (Hsplit : 2 ^ (- (ea + eb))
                     = 2 ^ (- (d + (ea + eb) - 53)) * 2 ^ (d - 53)).
    { rewrite <- Z.pow_add_r by lia. f_equal; lia. }
    assert (Hpow : 0 < 2 ^ (d - 53)) by (apply Z.pow_pos_nonneg; lia).
    destruct Hexact as [m' [Heq [Hval Hm']]]; try lia.
    { rewrite Hprod, Hsplit.
      exists (a * b * 2 ^ (- (d + (ea + eb) - 53))). ring. }
    exists m', (d + (ea + eb) - 53). split; [exact Heq|].
    split; [exact Hm'|]. split; [lia|]. left. split; [exact Hdle|].
    rewrite Hval, Hprod, Hsplit, Z.mul_assoc, Z.div_mul by lia. reflexivity.
Qed.

(** Comparing with the power of two [2^(52 + eL)]. *)
Lemma double_ltb_holds (K c : Z) (f : double) (eL : Z) :
  double_holds K c f -> - 52 <= eL <= 0 ->
  double_ltb f (S754_finite false 4503599627370496 eL) = (c <? 2 ^ (52 + eL)).
Proof.
  intros Hf HeL.
  assert (Hlimit : 0 < 2 ^ (52 + eL)) by (apply Z.pow_pos_nonneg; lia).
  unfold double_ltb, SFltb.
  destruct Hf as [[-> ->]|[m [e [-> [Hm [He Hv]]]]]].
  { cbn [SFcompare]. symmetry. apply Z.ltb_lt. exact Hlimit. }
  cbn [SFcompare].
  assert (H53 : 2 ^ 53 = 2 * 2 ^ 52) by reflexivity.
  destruct Hv as [[Hle Hv]|[Hge Hbig]].
  - assert (Hscale : 0 < 2 ^ (- e)) by (apply Z.pow_pos_nonneg; lia).
    destruct (Z.compare_spec e eL) as [Heq|Hlt|Hgt].
    + subst eL.
      assert (Hfalse : (c <? 2 ^ (52 + e)) = false).
      { apply Z.ltb_ge.
        destruct (Z.le_gt_cases (2 ^ (52 + e)) c) as [H|H]; [exact H|exfalso].
        assert (c * 2 ^ (- e) < 2 ^ (52 + e) * 2 ^ (- e))
          by (apply Z.mul_lt_mono_pos_r; lia).
        assert (2 ^ (52 + e) * 2 ^ (- e) = 2 ^ 52).
        { rewrite <- Z.pow_add_r by lia. f_equal; lia. }
        lia. }
      rewrite Hfalse.
      destruct (Pos.compare_cont Eq m 4503599627370496) eqn:Hc; try reflexivity.
      exfalso.
      pose proof (Pos.compare_lt_iff m 4503599627370496) as Hiff.
      unfold Pos.compare in Hiff. apply Hiff in Hc. clear Hiff.
      apply Pos2Z.pos_lt_pos in Hc.
      assert (H52 : 2 ^ 52 = Z.pos 4503599627370496) by reflexivity.
      rewrite H52 in Hm. destruct Hm as [Hm _].
      apply Z.le_ngt in Hm. contradiction.
    + symmetry. apply Z.ltb_lt.
      destruct (Z.le_gt_cases (2 ^ (52 + eL)) c) as [H|H]; [exfalso|lia].
      assert (2 ^ (52 + eL) * 2 ^ (- e) <= c * 2 ^ (- e))
        by (apply Z.mul_le_mono_nonneg_r; lia).
      assert (2 ^ (52 + eL) * 2 ^ (- e) = 2 ^ (52 + eL - e)).
      { rewrite <- Z.pow_add_r by lia. f_equal; lia. }
      assert (2 ^ 53 <= 2 ^ (52 + eL - e)) by (apply Z.pow_le_mono_r; lia).
      lia.
    + symmetry. apply Z.ltb_ge.
      destruct (Z.le_gt_cases (2 ^ (52 + eL)) c) as [H|H]; [exact H|exfalso].
      assert (c * 2 ^ (- e) < 2 ^ (52 + eL) * 2 ^ (- e))
        by (apply Z.mul_lt_mono_pos_r; lia).
      assert (2 ^ (52 + eL) * 2 ^ (- e) = 2 ^ (52 + eL - e)).
      { rewrite <- Z.pow_add_r by lia. f_equal; lia. }
      assert (2 ^ (52 + eL - e) <= 2 ^ 52) by (apply Z.pow_le_mono_r; lia).
      lia.
  - destruct (Z.compare_spec e eL) as [Heq|Hlt|Hgt]; try lia.
    symmetry. apply Z.ltb_ge.
    assert (2 ^ (52 + eL) <= 2 ^ 53) by (apply Z.pow_le_mono_r; lia). lia.
Qed.

(** The quotient by [thread_complexity], truncated: exact below [2^53]. *)
Lemma double_div_holds (K c : Z) (f : double) :
  double_holds K c f -> K <= 900 -> 0 <= c < 2 ^ 53 ->
  int32_of_double (double_div f (double_of_int (64 * 1024)))
  = to_int32 (c / 65536).
Proof.
  intros Hf HK Hc.
  destruct Hf as [[-> ->]|[m [e [-> [Hm [He Hv]]]]]].
  { reflexivity. }
  destruct Hv as [[Hle Hv]|[Hge Hbig]]; [|lia].
  rewrite double_div_65536 by lia.
  unfold int32_of_double, cond_Zopp.
  destruct (Z.leb_spec 0 (e - 16)) as [Hpos|_]; [lia|].
  f_equal. rewrite Hv.
  replace (- (e - 16)) with (16 + - e) by lia.
  rewrite Z.pow_add_r by lia.
  assert (Hscale : 0 < 2 ^ (- e)) by (apply Z.pow_pos_nonneg; lia).
  rewrite Z.div_mul_cancel_r by lia. reflexivity.
Qed.

(** X19. On [int64_t] arguments that are not negative, the thread count computed
    with the binary64 arithmetic of the source is the thread count computed
    with exact integer arithmetic: no rounding of a conversion or of a
    product changes the branch taken or the value returned. *)
Theorem ComputeMaxThreadCount_binary64_exact :
  forall (IsHybrid : bool) (output_image_size group_output_channels kernel_dim : Z),
    0 <= output_image_size < 2 ^ 63 ->
    0 <= group_output_channels < 2 ^ 63 ->
    0 <= kernel_dim < 2 ^ 63 ->
    ComputeMaxThreadCount_binary64 IsHybrid output_image_size group_output_channels kernel_dim
    = ComputeMaxThreadCount IsHybrid output_image_size group_output_channels kernel_dim.
Proof.
  intros IsHybrid ois goc kd Hois Hgoc Hkd.
  unfold ComputeMaxThreadCount_binary64, ComputeMaxThreadCount.
  set (cap := if IsHybrid then 64 else 16).
  set (complexity := double_mul (double_mul (double_of_int ois) (double_of_int goc))
                                (double_of_int kd)).
  assert (Hholds : double_holds 141 (ois * goc * kd) complexity).
  { subst complexity.
    apply (double_mul_holds 76 11); [|apply double_of_int_holds; assumption|lia].
    apply (double_mul_holds 11 11); [| |lia]; apply double_of_int_holds; assumption. }
  clearbody complexity.
  assert (Hnonneg : 0 <= ois * goc * kd).
  { apply Z.mul_nonneg_nonneg; [apply Z.mul_nonneg_nonneg|]; lia. }
  assert (Hlimit : exists eL,
    double_mul (double_of_int (64 * 1024)) (double_of_int cap)
    = S754_finite false 4503599627370496 eL
    /\ 64 * 1024 * cap = 2 ^ (52 + eL) /\ - 36 <= eL <= - 16).
  { subst cap. destruct IsHybrid.
    - exists (- 30). repeat split; lia.
    - exists (- 32). repeat split; lia. }
  destruct Hlimit as [eL [Hlimit [Hcap HeL]]].
  rewrite Hlimit, (double_ltb_holds 141 (ois * goc * kd)) by (assumption || lia).
  rewrite Hcap.
  destruct (Z.ltb_spec (ois * goc * kd) (2 ^ (52 + eL))) as [Hlt|Hge]; [|reflexivity].
  assert (2 ^ (52 + eL) <= 2 ^ 53) by (apply Z.pow_le_mono_r; lia).
  rewrite (double_div_holds 141 (ois * goc * kd)) by (assumption || lia).
  unfold double_to_int32.
  change (64 * 1024) with 65536.
  rewrite Z.quot_div_nonneg by lia. reflexivity.
Qed.

Lemma ComputeMaxThreadCount_binary64_exact_witness :
  ComputeMaxThreadCount_binary64 false 12544 8 9
  = ComputeMaxThreadCount false 12544 8 9.
Proof.
  apply (ComputeMaxThreadCount_binary64_exact false 12544 8 9); lia.
Defined.

(** ** Compute: the im2col transform *)

Lemma Compute_col_buffer_result (self : QLinearConv) (ca : ConvAttributesInFlight.t)
    (d : GroupDispatch) (size : Z) (hc : bool) :
  snd (Compute_col_buffer self ca d size) = Next hc ->
  hc = is_depthwise_conv d
       || negb (ConvAttributesInFlight.kernel_size ca =? 1)
       || negb (ConvAttributes.HasStridesOneAndNoPadding (conv_attrs_ self)).
Proof.
  unfold Compute_col_buffer. intros H.
  destruct (is_depthwise_conv d).
  - apply bind_falls_through in H. destruct H as [[] [_ [H _]]].
    simpl in H. now inversion H.
  - cbn [orb].
    destruct (negb (ConvAttributesInFlight.kernel_size ca =? 1)
              || negb (ConvAttributes.HasStridesOneAndNoPadding (conv_attrs_ self))).
    + apply bind_falls_through in H. destruct H as [[] [_ [H _]]].
      simpl in H. now inversion H.
    + simpl in H. now inversion H.
Qed.

(** At the loop, the column buffer is set for a depthwise convolution and for
    every convolution that is not pointwise. *)
Lemma Compute_prepare_col_buffer (env : Platform) (self : QLinearConv)
    (context : OpKernelContext) (l : Locals) :
  snd (Compute_prepare env self context) = Next l ->
  has_col_buffer l
  = is_depthwise_conv (dispatch l)
    || negb (ConvAttributesInFlight.kernel_size (conv_attrs l) =? 1)
    || negb (ConvAttributes.HasStridesOneAndNoPadding (conv_attrs_ self)).
Proof.
  unfold Compute_prepare. cbv zeta. intros H.
  apply bind_falls_through in H. destruct H as [ca [_ [H _]]].
  apply bind_falls_through in H. destruct H as [[] [_ [H _]]].
  destruct (Z.eqb_spec (Size (ConvAttributesInFlight.Y_shape ca)) 0) as [|Hsize];
    [discriminate H|].
  apply bind_falls_through in H. destruct H as [[] [_ [H _]]].
  apply bind_falls_through in H. destruct H as [rw [_ [H _]]].
  apply bind_falls_through in H. destruct H as [[] [_ [H _]]].
  apply bind_falls_through in H. destruct H as [[] [_ [H _]]].
  apply bind_falls_through in H. destruct H as [hc [Hhc [H _]]].
  apply Compute_col_buffer_result in Hhc.
  simpl in H. inversion H. subst l. clear H. simpl. exact Hhc.
Qed.

(** X15. The im2col transform of a call is chosen once for the whole run: the
    indirection buffer for a depthwise convolution; none for a pointwise
    convolution (kernel size 1, strides one, no padding), whose matrix
    multiplies read the input in place; otherwise the 2-d, the 1-d or the n-d
    transform by the rank of the kernel, and the matrix multiplies read the
    column buffer. *)
Theorem Compute_im2col_selection :
  forall (env : Platform) (self : QLinearConv) (context : OpKernelContext)
         (l : Locals),
    snd (Compute_prepare env self context) = Next l ->
    let ca := conv_attrs l in
    let pointwise :=
      (ConvAttributesInFlight.kernel_size ca =? 1)
      && ConvAttributes.HasStridesOneAndNoPadding (conv_attrs_ self) in
    let kind :=
      if is_depthwise_conv (dispatch l) then Some Im2col_indirection
      else if pointwise then None
      else if ConvAttributesInFlight.kernel_rank ca =? 2 then Some Im2col_2d
      else if ConvAttributesInFlight.kernel_rank ca =? 1 then Some Im2col_1d
      else Some Im2col_Nd in
    Forall (im2col_as kind
              (if channels_last_ self then Xdata else transpose_input_buffer))
           (compute_trace (Compute env self context)).
Proof.
  intros env self context l Hloop ca pointwise kind.
  apply Compute_trace_Forall.
  - apply Compute_prepare_trace_when; intros; exact I.
  - intros l' Hloop' image_id.
    assert (l' = l) by congruence. subst l'.
    destruct (Compute_prepare_locals env self context l Hloop) as [Hlast _].
    pose proof (Compute_prepare_col_buffer env self context l Hloop) as Hcol.
    fold ca in Hlast, Hcol.
    unfold Compute_image. cbv zeta. fold ca. rewrite Hlast.
    subst kind pointwise.
    destruct (is_depthwise_conv (dispatch l)) eqn:Hdw.
    + clear Hcol. repeat (apply Forall_app; split).
      * destruct (negb _); repeat constructor.
      * cbn [negb andb]. constructor.
      * apply Forall_flat_map. apply Forall_forall. intros b _.
        unfold conv_worker. cbv zeta. rewrite Hdw.
        repeat constructor.
      * destruct (negb _); repeat constructor.
    + cbn [orb negb andb] in Hcol |- *.
      assert (Hpoint :
        (ConvAttributesInFlight.kernel_size ca =? 1)
        && ConvAttributes.HasStridesOneAndNoPadding (conv_attrs_ self)
        = negb (has_col_buffer l)).
      { rewrite Hcol. rewrite negb_orb, !negb_involutive. reflexivity. }
      rewrite Hpoint. clear Hpoint Hcol.
      assert (Hworker : forall input_data b,
        base input_data
        = (if channels_last_ self then Xdata else transpose_input_buffer) ->
        Forall (im2col_as
                  (if negb (has_col_buffer l) then None
                   else if ConvAttributesInFlight.kernel_rank ca =? 2
                        then Some Im2col_2d
                        else if ConvAttributesInFlight.kernel_rank ca =? 1
                             then Some Im2col_1d
                             else Some Im2col_Nd)
                  (if channels_last_ self then Xdata else transpose_input_buffer))
               (conv_worker env l input_data
                  (if negb (channels_last_ self)
                   then At transpose_output_buffer 0
                   else At Ydata
                          (image_id * (ConvAttributesInFlight.M ca
                                       * ConvAttributesInFlight.output_image_size ca)))
                  b)).
      { intros input_data b Hbase.
        unfold conv_worker. cbv zeta. rewrite Hdw. fold ca.
        apply Forall_app. split; [|repeat constructor].
        apply Forall_flat_map. apply Forall_forall. intros g _.
        unfold conv_worker_group. cbv zeta. fold ca.
        destruct (has_col_buffer l); cbn [negb].
        - destruct (ConvAttributesInFlight.kernel_rank ca =? 2);
            [repeat constructor|].
          destruct (ConvAttributesInFlight.kernel_rank ca =? 1);
            repeat constructor.
        - constructor; [|constructor]. simpl. exact Hbase. }
      repeat (apply Forall_app; split).
      * destruct (negb (channels_last_ self)); repeat constructor.
      * destruct (has_col_buffer l); [|constructor]. cbn [negb andb].
        destruct (Z.gtb_spec (ConvAttributesInFlight.kernel_rank ca) 2) as [Hgt|Hle];
          [|constructor].
        apply Forall_forall. intros e He. apply in_map_iff in He.
        destruct He as [g [<- _]]. simpl.
        destruct (Z.eqb_spec (ConvAttributesInFlight.kernel_rank ca) 2); [lia|].
        destruct (Z.eqb_spec (ConvAttributesInFlight.kernel_rank ca) 1); [lia|].
        reflexivity.
      * apply Forall_flat_map. apply Forall_forall. intros b _.
        apply Hworker. destruct (channels_last_ self); reflexivity.
      * destruct (negb (channels_last_ self)); repeat constructor.
Qed.

Lemma Compute_im2col_selection_witness :
  Forall (im2col_as (Some Im2col_indirection) transpose_input_buffer)
         (compute_trace (Compute sample_platform sample_kernel depthwise_context)).
Proof.
  apply (Compute_im2col_selection sample_platform sample_kernel depthwise_context
           depthwise_locals).
  reflexivity.
Defined.

(** ** Compute: the calls of a run, one by one *)

Lemma flat_map_singleton {A B : Type} (f : A -> B) (xs : list A) :
  flat_map (fun x => [f x]) xs = map f xs.
Proof. induction xs as [|x xs IH]; simpl; [reflexivity|]. now rewrite IH. Qed.

Lemma filter_all {A : Type} (p : A -> bool) (xs : list A) :
  Forall (fun x => p x = true) xs -> filter p xs = xs.
Proof.
  induction 1 as [|x xs Hx _ IH]; simpl; [reflexivity|]. now rewrite Hx, IH.
Qed.

(** The backend calls of a run that reaches the loop are those of its
    images, one image after the other. *)
Lemma Compute_trace_filter (env : Platform) (self : QLinearConv)
    (context : OpKernelContext) (l : Locals) (p : Event -> bool) :
  snd (Compute_prepare env self context) = Next l ->
  (forall e, p e = true -> is_backend_call e = true) ->
  filter p (compute_trace (Compute env self context))
  = flat_map (fun image_id => filter p (Compute_image env l image_id))
             (range (ConvAttributesInFlight.N (conv_attrs l))).
Proof.
  intros Hloop Hp.
  pose proof (Compute_run env self context) as Hrun. rewrite Hloop in Hrun.
  rewrite Hrun. simpl compute_trace.
  rewrite filter_app, filter_backend_prepare by exact Hp.
  simpl app. apply filter_flat_map.
Qed.

(** The one requantization of a tile. *)
Lemma conv_worker_requantization (env : Platform) (l : Locals)
    (input_data output_data : Pointer) (batch : Z) :
  let ca := conv_attrs l in
  let work := PartitionWork env batch (thread_count l)
                            (ConvAttributesInFlight.output_image_size ca) in
  filter is_MlasRequantizeOutput (conv_worker env l input_data output_data batch)
  = [CallMlasRequantizeOutput
       (At gemm_output (fst work * ConvAttributesInFlight.M ca))
       (ptr_add output_data (fst work * ConvAttributesInFlight.M ca))
       (has_Bdata l)
       (to_size_t (snd work - fst work))
       (to_size_t (ConvAttributesInFlight.M ca))
       (output_scales l)
       (1 <? Z.of_nat (length (output_scales l)))
       (Y_zero_point_value l)].
Proof.
  cbv zeta. unfold conv_worker. cbv zeta. rewrite filter_app. simpl.
  match goal with |- ?pre ++ _ = _ => assert (Hpre : pre = []) end.
  { destruct (is_depthwise_conv (dispatch l)); [reflexivity|].
    rewrite filter_flat_map. apply flat_map_nil. intros g.
    unfold conv_worker_group. cbv zeta.
    destruct (has_col_buffer l); [|reflexivity].
    destruct (_ =? 2); [reflexivity|]. destruct (_ =? 1); reflexivity. }
  rewrite Hpre. reflexivity.
Qed.

(** The requantizations of an image: one per tile, in the order of the
    tiles. *)
Lemma Compute_image_requantizations (env : Platform) (l : Locals) (image_id : Z) :
  let ca := conv_attrs l in
  let M := ConvAttributesInFlight.M ca in
  let output_data :=
    if ConvAttributesInFlight.channels_last_ ca
    then At Ydata (image_id * (M * ConvAttributesInFlight.output_image_size ca))
    else At transpose_output_buffer 0 in
  filter is_MlasRequantizeOutput (Compute_image env l image_id)
  = map (fun batch =>
           let work := PartitionWork env batch (thread_count l)
                         (ConvAttributesInFlight.output_image_size ca) in
           CallMlasRequantizeOutput
             (At gemm_output (fst work * M))
             (ptr_add output_data (fst work * M))
             (has_Bdata l)
             (to_size_t (snd work - fst work))
             (to_size_t M)
             (output_scales l)
             (1 <? Z.of_nat (length (output_scales l)))
             (Y_zero_point_value l))
        (range (thread_count l)).
Proof.
  cbv zeta. unfold Compute_image. cbv zeta.
  rewrite !filter_app, filter_flat_map.
  rewrite (flat_map_ext _ _ (fun batch => conv_worker_requantization env l _ _ batch)).
  rewrite flat_map_singleton.
  assert (Hnd : forall es : list Z, forall f : Z -> Event,
            (forall g, is_MlasRequantizeOutput (f g) = false) ->
            filter is_MlasRequantizeOutput (map f es) = []).
  { intros es f Hf. now apply filter_map_none. }
  destruct (ConvAttributesInFlight.channels_last_ (conv_attrs l)); cbn [negb];
    destruct (_ && _ && _); rewrite ?Hnd by reflexivity;
    cbn [filter is_MlasRequantizeOutput app]; rewrite ?app_nil_r; reflexivity.
Qed.

(** The requantizations of a run that reaches the loop: for every image, one
    per tile, each with the rows of its own tile, the output scales and the
    output zero point of the call. *)
Lemma Compute_requantizations (env : Platform) (self : QLinearConv)
    (context : OpKernelContext) (l : Locals) :
  snd (Compute_prepare env self context) = Next l ->
  let ca := conv_attrs l in
  let M := ConvAttributesInFlight.M ca in
  let output_image_size := ConvAttributesInFlight.output_image_size ca in
  let tiles :=
    Z.min (ComputeMaxThreadCount (IsHybrid env) output_image_size
             (group_output_channels (dispatch l))
             (group_input_channels (dispatch l)
              * ConvAttributesInFlight.kernel_size ca))
          (DegreeOfParallelism context) in
  let output_data := fun image_id =>
    if channels_last_ self
    then At Ydata (image_id * (M * output_image_size))
    else At transpose_output_buffer 0 in
  let scales := snd (snd (Compute_scales context ca)) in
  filter is_MlasRequantizeOutput (compute_trace (Compute env self context))
  = flat_map
      (fun image_id =>
         map (fun batch =>
                let work := PartitionWork env batch tiles output_image_size in
                CallMlasRequantizeOutput
                  (At gemm_output (fst work * M))
                  (ptr_add (output_data image_id) (fst work * M))
                  (match Input_B context with Some _ => true | None => false end)
                  (to_size_t (snd work - fst work))
                  (to_size_t M)
                  scales
                  (1 <? Z.of_nat (length scales))
                  (snd (fst (snd (Compute_zero_points context ca)))))
             (range tiles))
      (range (ConvAttributesInFlight.N ca)).
Proof.
  intros Hloop. cbv zeta.
  rewrite (Compute_trace_filter env self context l) by
    (try exact Hloop; intros e He; destruct e; simpl in *; try reflexivity;
     discriminate He).
  destruct (Compute_prepare_locals env self context l Hloop)
    as [Hlast [_ [_ [Hkd [Htc [HB _]]]]]].
  destruct (Compute_prepare_reaches_loop env self context l Hloop)
    as [rw [_ [_ [_ [HY [_ Hscales]]]]]].
  rewrite <- Hkd, <- Htc, <- Hlast, <- HB, <- HY, <- Hscales.
  apply flat_map_ext. intros image_id.
  apply Compute_image_requantizations.
Qed.

(** ** Compute: the depthwise path and the path of the groups *)

Lemma SafeInt_mul_Some (a b c : Z) : SafeInt_mul a b = Some c -> c = a * b.
Proof.
  unfold SafeInt_mul. destruct (_ && _); intros H; [now inversion H|discriminate H].
Qed.

(** On the depthwise path the column buffer is the indirection buffer: one
    pointer for every kernel position of every output position. *)
Lemma Compute_col_buffer_depthwise (self : QLinearConv)
    (ca : ConvAttributesInFlight.t) (d : GroupDispatch) (size : Z) (hc : bool) :
  is_depthwise_conv d = true ->
  snd (Compute_col_buffer self ca d size) = Next hc ->
  fst (Compute_col_buffer self ca d size)
  = [Alloc (8 * ConvAttributesInFlight.kernel_size ca
            * ConvAttributesInFlight.output_image_size ca)].
Proof.
  unfold Compute_col_buffer. intros -> H.
  destruct (SafeInt_mul 8 (ConvAttributesInFlight.kernel_size ca)) as [b|] eqn:Hb;
    [|discriminate H].
  destruct (SafeInt_mul b (ConvAttributesInFlight.output_image_size ca))
    as [bytes|] eqn:Hbytes; [|discriminate H].
  apply SafeInt_mul_Some in Hb, Hbytes. subst. reflexivity.
Qed.

(** The last allocation of a run on the depthwise path is the indirection
    buffer. *)
Lemma Compute_prepare_indirection_buffer (env : Platform) (self : QLinearConv)
    (context : OpKernelContext) (l : Locals) :
  snd (Compute_prepare env self context) = Next l ->
  is_depthwise_conv (dispatch l) = true ->
  exists allocations,
    filter is_Alloc (fst (Compute_prepare env self context))
    = allocations
      ++ [Alloc (8 * ConvAttributesInFlight.kernel_size (conv_attrs l)
                 * ConvAttributesInFlight.output_image_size (conv_attrs l))].
Proof.
  unfold Compute_prepare. cbv zeta. intros H Hdw.
  apply bind_falls_through in H. destruct H as [ca [_ [H T1]]].
  apply bind_falls_through in H. destruct H as [[] [_ [H T2]]].
  destruct (Z.eqb_spec (Size (ConvAttributesInFlight.Y_shape ca)) 0) as [|Hsize];
    [discriminate H|].
  apply bind_falls_through in H. destruct H as [[] [_ [H T3]]].
  apply bind_falls_through in H. destruct H as [rw [_ [H T4]]].
  apply bind_falls_through in H. destruct H as [[] [_ [H T5]]].
  apply bind_falls_through in H. destruct H as [[] [_ [H T6]]].
  apply bind_falls_through in H. destruct H as [hc [Hhc [H T7]]].
  simpl in H. inversion H. subst l. clear H. simpl in Hdw |- *.
  apply (Compute_col_buffer_depthwise self ca _ _ hc Hdw) in Hhc.
  rewrite T1, T2, T3, T4, T5, T6, T7, Hhc.
  rewrite !filter_app. cbn [filter is_Alloc fst ret app].
  rewrite !app_assoc. eexists. reflexivity.
Qed.

(** The convolution calls of an image on the depthwise path: for every tile
    the indirection buffer of the tile is filled and handed to the depthwise
    primitive. *)
Lemma Compute_image_depthwise (env : Platform) (l : Locals) (image_id : Z) :
  let ca := conv_attrs l in
  let input_data :=
    if ConvAttributesInFlight.channels_last_ ca
    then At Xdata (image_id * (ConvAttributesInFlight.C ca
                               * ConvAttributesInFlight.input_image_size ca))
    else At transpose_input_buffer 0 in
  is_depthwise_conv (dispatch l) = true ->
  filter is_convolution_call (Compute_image env l image_id)
  = flat_map
      (fun batch =>
         let work := PartitionWork env batch (thread_count l)
                       (ConvAttributesInFlight.output_image_size ca) in
         let worker_col_buffer :=
           At col_buffer (fst work * ConvAttributesInFlight.kernel_size ca) in
         [CallIm2col Im2col_indirection input_data
            (ConvAttributesInFlight.C ca) (ConvAttributesInFlight.C ca)
            (fst work) (snd work - fst work) worker_col_buffer
            (X_zero_point_value l);
          CallMlasConvDepthwise worker_col_buffer (X_zero_point_value l)
            (At reordered_W 0) (W_zero_point_value l) (is_W_signed l)
            (At gemm_output (fst work * ConvAttributesInFlight.M ca))
            (to_size_t (ConvAttributesInFlight.M ca))
            (to_size_t (snd work - fst work))
            (to_size_t (ConvAttributesInFlight.kernel_size ca))])
      (range (thread_count l)).
Proof.
  cbv zeta. intros Hdw. unfold Compute_image. cbv zeta. rewrite Hdw.
  cbn [negb andb]. rewrite !filter_app, filter_flat_map.
  assert (Hworker : forall input_data output_data batch,
    filter is_convolution_call (conv_worker env l input_data output_data batch)
    = (let work := PartitionWork env batch (thread_count l)
                     (ConvAttributesInFlight.output_image_size (conv_attrs l)) in
       [CallIm2col Im2col_indirection input_data
          (ConvAttributesInFlight.C (conv_attrs l))
          (ConvAttributesInFlight.C (conv_attrs l))
          (fst work) (snd work - fst work)
          (At col_buffer (fst work * ConvAttributesInFlight.kernel_size (conv_attrs l)))
          (X_zero_point_value l);
        CallMlasConvDepthwise
          (At col_buffer (fst work * ConvAttributesInFlight.kernel_size (conv_attrs l)))
          (X_zero_point_value l)
          (At reordered_W 0) (W_zero_point_value l) (is_W_signed l)
          (At gemm_output (fst work * ConvAttributesInFlight.M (conv_attrs l)))
          (to_size_t (ConvAttributesInFlight.M (conv_attrs l)))
          (to_size_t (snd work - fst work))
          (to_size_t (ConvAttributesInFlight.kernel_size (conv_attrs l)))])).
  { intros input_data output_data batch. unfold conv_worker. cbv zeta.
    rewrite Hdw. reflexivity. }
  rewrite (flat_map_ext _ _ (Hworker _ _)).
  destruct (ConvAttributesInFlight.channels_last_ (conv_attrs l)); cbn [negb];
    cbn [filter is_convolution_call app]; now rewrite app_nil_r.
Qed.

(** The matrix multiply of one group of one tile. *)
Lemma conv_worker_group_gemm (l : Locals) (input_data : Pointer)
    (output_start output_count : Z) (worker_gemm_output : Pointer) (group_id : Z) :
  let ca := conv_attrs l in
  let d := dispatch l in
  let events := conv_worker_group l input_data output_start output_count
                                  worker_gemm_output group_id in
  filter is_MlasGemm events
  = [CallMlasGemm
       {| gemm_M := to_size_t output_count;
          gemm_N := to_size_t (group_output_channels d);
          gemm_K := to_size_t (kernel_dim l);
          gemm_A :=
            if has_col_buffer l
            then
              if (ConvAttributesInFlight.kernel_rank ca =? 2)
                 || (ConvAttributesInFlight.kernel_rank ca =? 1)
              then At col_buffer (output_start * kernel_dim l)
              else ptr_add (At col_buffer (output_start * kernel_dim l))
                           (group_id * col_buffer_size l)
            else ptr_add input_data (output_start * kernel_dim l);
          gemm_lda := to_size_t (kernel_dim l);
          gemm_ZeroPointA := X_zero_point_value l;
          gemm_B :=
            if W_is_packed l
            then At packed_W_buffer (group_id * packed_W_size l)
            else At reordered_W (group_id * group_output_channels d);
          gemm_ldb :=
            if W_is_packed l
            then None
            else Some (to_size_t (ConvAttributesInFlight.M ca));
          gemm_BIsPacked := W_is_packed l;
          gemm_ZeroPointB := W_zero_point_value l;
          gemm_BIsSigned := is_W_signed l;
          gemm_C := ptr_add worker_gemm_output (group_id * group_output_channels d);
          gemm_ldc := to_size_t (ConvAttributesInFlight.M ca) |}]
  /\ filter is_Im2col_indirection events = [].
Proof.
  cbv zeta. unfold conv_worker_group. cbv zeta.
  destruct (has_col_buffer l); [|split; reflexivity].
  destruct (ConvAttributesInFlight.kernel_rank (conv_attrs l) =? 2);
    [split; reflexivity|].
  destruct (ConvAttributesInFlight.kernel_rank (conv_attrs l) =? 1);
    split; reflexivity.
Qed.

(** The matrix multiplies of a tile off the depthwise path: one per group. *)
Lemma conv_worker_gemm (env : Platform) (l : Locals)
    (input_data output_data : Pointer) (batch : Z) :
  let ca := conv_attrs l in
  let d := dispatch l in
  let work := PartitionWork env batch (thread_count l)
                (ConvAttributesInFlight.output_image_size ca) in
  let output_start := fst work in
  let output_count := snd work - fst work in
  let worker_gemm_output :=
    At gemm_output (output_start * ConvAttributesInFlight.M ca) in
  let events := conv_worker env l input_data output_data batch in
  is_depthwise_conv d = false ->
  filter is_MlasGemm events
  = map (fun group_id =>
           CallMlasGemm
             {| gemm_M := to_size_t output_count;
                gemm_N := to_size_t (group_output_channels d);
                gemm_K := to_size_t (kernel_dim l);
                gemm_A :=
                  if has_col_buffer l
                  then
                    if (ConvAttributesInFlight.kernel_rank ca =? 2)
                       || (ConvAttributesInFlight.kernel_rank ca =? 1)
                    then At col_buffer (output_start * kernel_dim l)
                    else ptr_add (At col_buffer (output_start * kernel_dim l))
                                 (group_id * col_buffer_size l)
                  else ptr_add input_data (output_start * kernel_dim l);
                gemm_lda := to_size_t (kernel_dim l);
                gemm_ZeroPointA := X_zero_point_value l;
                gemm_B :=
                  if W_is_packed l
                  then At packed_W_buffer (group_id * packed_W_size l)
                  else At reordered_W (group_id * group_output_channels d);
                gemm_ldb :=
                  if W_is_packed l
                  then None
                  else Some (to_size_t (ConvAttributesInFlight.M ca));
                gemm_BIsPacked := W_is_packed l;
                gemm_ZeroPointB := W_zero_point_value l;
                gemm_BIsSigned := is_W_signed l;
                gemm_C := ptr_add worker_gemm_output (group_id * group_output_channels d);
                gemm_ldc := to_size_t (ConvAttributesInFlight.M ca) |})
        (range (group_count d))
  /\ filter is_MlasConvDepthwise events = []
  /\ filter is_Im2col_indirection events = [].
Proof.
  cbv zeta. intros Hdw. unfold conv_worker. cbv zeta. rewrite Hdw.
  rewrite !filter_app, !filter_flat_map.
  cbn [filter is_MlasGemm is_MlasConvDepthwise is_Im2col_indirection].
  rewrite !app_nil_r.
  split; [|split; apply flat_map_nil; intros g].
  - rewrite (flat_map_ext _ _
               (fun g => proj1 (conv_worker_group_gemm l _ _ _ _ g))).
    apply flat_map_singleton.
  - apply conv_worker_group_calls.
  - apply conv_worker_group_gemm.
Qed.

(** The convolution calls of an image off the depthwise path: for every tile
    one matrix multiply per group, no depthwise primitive and no indirection
    buffer. *)
Lemma Compute_image_groups (env : Platform) (l : Locals) (image_id : Z) :
  let ca := conv_attrs l in
  let d := dispatch l in
  let input_data :=
    if ConvAttributesInFlight.channels_last_ ca
    then At Xdata (image_id * (ConvAttributesInFlight.C ca
                               * ConvAttributesInFlight.input_image_size ca))
    else At transpose_input_buffer 0 in
  is_depthwise_conv d = false ->
  filter is_MlasGemm (Compute_image env l image_id)
  = flat_map
      (fun batch =>
         let work := PartitionWork env batch (thread_count l)
                       (ConvAttributesInFlight.output_image_size ca) in
         let output_start := fst work in
         let output_count := snd work - fst work in
         let worker_gemm_output :=
           At gemm_output (output_start * ConvAttributesInFlight.M ca) in
         map (fun group_id =>
                CallMlasGemm
                  {| gemm_M := to_size_t output_count;
                     gemm_N := to_size_t (group_output_channels d);
                     gemm_K := to_size_t (kernel_dim l);
                     gemm_A :=
                       if has_col_buffer l
                       then
                         if (ConvAttributesInFlight.kernel_rank ca =? 2)
                            || (ConvAttributesInFlight.kernel_rank ca =? 1)
                         then At col_buffer (output_start * kernel_dim l)
                         else ptr_add (At col_buffer (output_start * kernel_dim l))
                                      (group_id * col_buffer_size l)
                       else ptr_add input_data (output_start * kernel_dim l);
                     gemm_lda := to_size_t (kernel_dim l);
                     gemm_ZeroPointA := X_zero_point_value l;
                     gemm_B :=
                       if W_is_packed l
                       then At packed_W_buffer (group_id * packed_W_size l)
                       else At reordered_W (group_id * group_output_channels d);
                     gemm_ldb :=
                       if W_is_packed l
                       then None
                       else Some (to_size_t (ConvAttributesInFlight.M ca));
                     gemm_BIsPacked := W_is_packed l;
                     gemm_ZeroPointB := W_zero_point_value l;
                     gemm_BIsSigned := is_W_signed l;
                     gemm_C := ptr_add worker_gemm_output (group_id * group_output_channels d);
                     gemm_ldc := to_size_t (ConvAttributesInFlight.M ca) |})
             (range (group_count d)))
      (range (thread_count l))
  /\ filter is_MlasConvDepthwise (Compute_image env l image_id) = []
  /\ filter is_Im2col_indirection (Compute_image env l image_id) = [].
Proof.
  cbv zeta. intros Hdw. unfold Compute_image. cbv zeta.
  rewrite !filter_app, !filter_flat_map.
  assert (Hnone : forall (p : Event -> bool) (es : list Z) (f : Z -> Event),
            (forall g, p (f g) = false) -> filter p (map f es) = []).
  { intros p es f Hf. now apply filter_map_none. }
  pose proof (fun input_data output_data batch =>
                conv_worker_gemm env l input_data output_data batch Hdw) as Hworker.
  cbv zeta in Hworker.
  split; [|split].
  - rewrite (flat_map_ext _ _ (fun batch => proj1 (Hworker _ _ batch))).
    destruct (ConvAttributesInFlight.channels_last_ (conv_attrs l)); cbn [negb];
      destruct (_ && _ && _); rewrite ?Hnone by reflexivity;
      cbn [filter is_MlasGemm app]; now rewrite app_nil_r.
  - rewrite (flat_map_nil (fun x => filter is_MlasConvDepthwise _))
      by (intros batch; apply Hworker).
    destruct (ConvAttributesInFlight.channels_last_ (conv_attrs l)); cbn [negb];
      destruct (_ && _ && _); rewrite ?Hnone by reflexivity; reflexivity.
  - rewrite (flat_map_nil (fun x => filter is_Im2col_indirection _))
      by (intros batch; apply Hworker).
    destruct (ConvAttributesInFlight.channels_last_ (conv_attrs l)); cbn [negb];
      destruct (_ && _ && _); rewrite ?Hnone by reflexivity; reflexivity.
Qed.

(** C5. In a call of [Compute] on a prepared kernel that reaches the image
    loop, the depthwise fast path is selected exactly when the group input
    channels and the group output channels are both 1.  When it is selected
    the group loop collapses: the group count becomes 1 and the former group
    count stands for the channels of the one group (it is the channel count
    [M] when [group] divides [M]); the last buffer allocated is the
    indirection buffer, one pointer per kernel position of every output
    position; and the convolution calls of the run are, for every tile of
    every image, the im2col transform that fills the tile's part of the
    indirection buffer followed by one call of the depthwise primitive on it,
    over all [M] channels, with no matrix multiply.  When it is not selected
    the group geometry is unchanged, the depthwise primitive and the
    indirection transform are never called, and the matrix multiplies of the
    run are, for every tile of every image, one per group. *)
Theorem Compute_depthwise_selection :
  forall (env : Platform) (self : QLinearConv) (context : OpKernelContext)
         (l : Locals),
    Prepared env self ->
    snd (Compute_prepare env self context) = Next l ->
    let ca := conv_attrs l in
    let d := dispatch l in
    let group := ConvAttributesInFlight.group ca in
    let C := ConvAttributesInFlight.C ca in
    let M := ConvAttributesInFlight.M ca in
    let kernel_size := ConvAttributesInFlight.kernel_size ca in
    let output_image_size := ConvAttributesInFlight.output_image_size ca in
    let group_input_channels0 := dim (Compute_W_shape self context) 1 in
    let group_output_channels0 := Z.quot M group in
    let tiles :=
      Z.min (ComputeMaxThreadCount (IsHybrid env) output_image_size
               (group_output_channels d) (group_input_channels d * kernel_size))
            (DegreeOfParallelism context) in
    let input_data := fun image_id =>
      if channels_last_ self
      then At Xdata (image_id * (C * ConvAttributesInFlight.input_image_size ca))
      else At transpose_input_buffer 0 in
    let trace := compute_trace (Compute env self context) in
    is_depthwise_conv d
    = (group_input_channels0 =? 1) && (group_output_channels0 =? 1)
    /\ (is_depthwise_conv d = true ->
        group_count d = 1
        /\ group_input_channels d = group
        /\ group_output_channels d = group
        /\ (Z.rem M group = 0 -> group_output_channels d = M)
        /\ (exists allocations,
              filter is_Alloc trace
              = allocations ++ [Alloc (8 * kernel_size * output_image_size)])
        /\ filter is_convolution_call trace
           = flat_map
               (fun image_id =>
                  flat_map
                    (fun batch =>
                       let work := PartitionWork env batch tiles output_image_size in
                       let output_start := fst work in
                       let output_count := snd work - fst work in
                       let worker_col_buffer :=
                         At col_buffer (output_start * kernel_size) in
                       [CallIm2col Im2col_indirection (input_data image_id) C C
                          output_start output_count worker_col_buffer
                          (X_zero_point_value l);
                        CallMlasConvDepthwise worker_col_buffer
                          (X_zero_point_value l) (At reordered_W 0)
                          (W_zero_point_value l) (is_W_signed l)
                          (At gemm_output (output_start * M))
                          (to_size_t M) (to_size_t output_count)
                          (to_size_t kernel_size)])
                    (range tiles))
               (range (ConvAttributesInFlight.N ca)))
    /\ (is_depthwise_conv d = false ->
        group_count d = group
        /\ group_input_channels d = group_input_channels0
        /\ group_output_channels d = group_output_channels0
        /\ filter is_MlasConvDepthwise trace = []
        /\ filter is_Im2col_indirection trace = []
        /\ filter is_MlasGemm trace
           = flat_map
               (fun image_id =>
                  flat_map
                    (fun batch =>
                       let work := PartitionWork env batch tiles output_image_size in
                       let output_start := fst work in
                       let output_count := snd work - fst work in
                       let worker_gemm_output := At gemm_output (output_start * M) in
                       map (fun group_id =>
                              CallMlasGemm
                                {| gemm_M := to_size_t output_count;
                                   gemm_N := to_size_t (group_output_channels d);
                                   gemm_K := to_size_t (kernel_dim l);
                                   gemm_A :=
                                     if has_col_buffer l
                                     then
                                       if (ConvAttributesInFlight.kernel_rank ca =? 2)
                                          || (ConvAttributesInFlight.kernel_rank ca =? 1)
                                       then At col_buffer (output_start * kernel_dim l)
                                       else ptr_add (At col_buffer (output_start * kernel_dim l))
                                                    (group_id * col_buffer_size l)
                                     else ptr_add (input_data image_id) (output_start * kernel_dim l);
                                   gemm_lda := to_size_t (kernel_dim l);
                                   gemm_ZeroPointA := X_zero_point_value l;
                                   gemm_B :=
                                     if W_is_packed l
                                     then At packed_W_buffer (group_id * packed_W_size l)
                                     else At reordered_W (group_id * group_output_channels d);
                                   gemm_ldb :=
                                     if W_is_packed l
                                     then None
                                     else Some (to_size_t (ConvAttributesInFlight.M ca));
                                   gemm_BIsPacked := W_is_packed l;
                                   gemm_ZeroPointB := W_zero_point_value l;
                                   gemm_BIsSigned := is_W_signed l;
                                   gemm_C := ptr_add worker_gemm_output (group_id * group_output_channels d);
                                   gemm_ldc := to_size_t (ConvAttributesInFlight.M ca) |})
                           (range group))
                    (range tiles))
               (range (ConvAttributesInFlight.N ca))).
Proof.
  intros env self context l Hprepared Hloop. cbv zeta.
  apply Prepared_consistent in Hprepared.
  destruct (Compute_prepare_reaches_loop env self context l Hloop)
    as [rw [Hctor [Hrw [Hd _]]]].
  destruct (Compute_prepare_locals env self context l Hloop)
    as [Hlast [_ [_ [Hkd [Htc _]]]]].
  assert (Hmissing : rw = None -> dim (Compute_W_shape self context) 1 <> 1).
  { intros ->. eapply reordered_W_missing; eassumption. }
  pose proof (Compute_dispatch_depthwise (conv_attrs l) _ rw Hmissing) as Hsel.
  pose proof (Compute_dispatch_collapse (conv_attrs l)
                (Compute_W_shape self context) rw) as [Hyes Hno].
  cbv zeta in Hsel. rewrite <- Hd in Hsel, Hyes, Hno.
  rewrite <- Hkd, <- Htc, <- Hlast.
  assert (Hbackend : forall p : Event -> bool,
            (forall e, p e = true -> is_backend_call e = true) ->
            filter p (compute_trace (Compute env self context))
            = flat_map (fun image_id => filter p (Compute_image env l image_id))
                       (range (ConvAttributesInFlight.N (conv_attrs l)))).
  { intros p Hp. now apply Compute_trace_filter. }
  split; [exact Hsel|]. split.
  - intros Hdw. destruct (Hyes Hdw) as [Hg [Hgic Hgoc]].
    split; [exact Hg|]. split; [exact Hgic|]. split; [exact Hgoc|]. split; [|split].
    + intros Hrem. rewrite Hgoc.
      rewrite Hdw in Hsel. symmetry in Hsel. apply andb_true_iff in Hsel.
      destruct Hsel as [_ Hq]. apply Z.eqb_eq in Hq.
      pose proof (Z.quot_rem' (ConvAttributesInFlight.M (conv_attrs l))
                              (ConvAttributesInFlight.group (conv_attrs l))) as Hdiv.
      rewrite Hq, Hrem in Hdiv. lia.
    + destruct (Compute_prepare_indirection_buffer env self context l Hloop Hdw)
        as [allocations Hallocations].
      exists allocations.
      pose proof (Compute_run env self context) as Hrun. rewrite Hloop in Hrun.
      rewrite Hrun. simpl compute_trace.
      rewrite filter_app, Hallocations, filter_flat_map.
      rewrite flat_map_nil; [now rewrite app_nil_r|].
      intros image_id.
      apply (filter_nil_when_other is_Alloc is_backend_call);
        [|apply Compute_image_backend].
      intros e He. destruct e; simpl in *; reflexivity || discriminate He.
    + rewrite Hbackend
        by (intros e He; destruct e; simpl in *; reflexivity || discriminate He).
      apply flat_map_ext. intros image_id.
      now apply Compute_image_depthwise.
  - intros Hdw. destruct (Hno Hdw) as [Hg [Hgic Hgoc]].
    split; [exact Hg|]. split; [exact Hgic|]. split; [exact Hgoc|].
    rewrite <- Hg.
    split; [|split].
    + rewrite Hbackend
        by (intros e He; destruct e; simpl in *; reflexivity || discriminate He).
      apply flat_map_nil. intros image_id. now apply Compute_image_groups.
    + rewrite Hbackend
        by (intros e He; destruct e as [| | | | | |[]| | |];
            simpl in *; reflexivity || discriminate He).
      apply flat_map_nil. intros image_id. now apply Compute_image_groups.
    + rewrite Hbackend
        by (intros e He; destruct e; simpl in *; reflexivity || discriminate He).
      apply flat_map_ext. intros image_id.
      now apply Compute_image_groups.
Qed.

Lemma Compute_depthwise_selection_witness :
  is_depthwise_conv (dispatch grouped_depthwise_locals) = true
  /\ group_count (dispatch grouped_depthwise_locals) = 1
  /\ group_input_channels (dispatch grouped_depthwise_locals) = 2
  /\ group_output_channels (dispatch grouped_depthwise_locals) = 2
  /\ (exists allocations,
        filter is_Alloc
          (compute_trace (Compute sample_platform grouped_kernel
                                  grouped_depthwise_context))
        = allocations ++ [Alloc (8 * 4 * 4)])
  /\ filter is_convolution_call
        (compute_trace (Compute sample_platform grouped_kernel
                                grouped_depthwise_context))
     = [CallIm2col Im2col_indirection (At transpose_input_buffer 0) 2 2 0 4
          (At col_buffer 0) 0;
        CallMlasConvDepthwise (At col_buffer 0) 0 (At reordered_W 0) 0 false
          (At gemm_output 0) 2 4 4].
Proof.
  assert (Hloop : snd (Compute_prepare sample_platform grouped_kernel
                                       grouped_depthwise_context)
                  = Next grouped_depthwise_locals) by reflexivity.
  destruct (Compute_depthwise_selection sample_platform grouped_kernel
              grouped_depthwise_context grouped_depthwise_locals
              (Prepared_new sample_platform (ConvAttributes.Make 2 [] [] []) false)
              Hloop) as [Hselected [Hcollapse _]].
  destruct (Hcollapse Hselected) as [Hcount [Hgic [Hgoc [_ [Hbuffer Hcalls]]]]].
  split; [exact Hselected|]. split; [exact Hcount|]. split; [exact Hgic|].
  split; [exact Hgoc|]. split; [exact Hbuffer|exact Hcalls].
Defined.

(** ** Compute: the optional output quantization *)

(** Whether and how [Y_scale] and [Y_zero_point] are supplied has no influence
    on the way through [Compute]: a call that reaches the loop reaches it
    with any other choice of the two, on the same geometry. *)
Lemma Compute_prepare_with_Y_quantization (env : Platform) (self : QLinearConv)
    (context : OpKernelContext) (Y_scale : option (Tensor float))
    (Y_zero_point : option (Tensor Z)) (l : Locals) :
  snd (Compute_prepare env self context) = Next l ->
  exists l',
    snd (Compute_prepare env self (with_Y_quantization context Y_scale Y_zero_point))
    = Next l'
    /\ conv_attrs l' = conv_attrs l
    /\ dispatch l' = dispatch l.
Proof.
  unfold Compute_prepare, Compute_W_shape. cbv zeta.
  cbn [with_Y_quantization Input_X Input_W Input_B GetTempSpaceAllocator
       DegreeOfParallelism].
  intros H.
  apply bind_falls_through in H. destruct H as [ca [Hctor [H _]]].
  erewrite bind_Next by exact Hctor. cbn [snd].
  apply bind_falls_through in H. destruct H as [[] [Hout [H _]]].
  erewrite bind_Next by exact Hout. cbn [snd].
  destruct (Z.eqb_spec (Size (ConvAttributesInFlight.Y_shape ca)) 0) as [|Hsize];
    [discriminate H|].
  apply bind_falls_through in H. destruct H as [[] [Halloc [H _]]].
  erewrite bind_Next by exact Halloc. cbn [snd].
  apply bind_falls_through in H. destruct H as [rw [Hrw [H _]]].
  erewrite bind_Next by exact Hrw. cbn [snd].
  apply bind_falls_through in H. destruct H as [[] [Hgemm [H _]]].
  erewrite bind_Next by exact Hgemm. cbn [snd].
  apply bind_falls_through in H. destruct H as [[] [Htr [H _]]].
  erewrite bind_Next by exact Htr. cbn [snd].
  apply bind_falls_through in H. destruct H as [hc [Hhc [H _]]].
  erewrite bind_Next by exact Hhc. cbn [snd].
  simpl in H. inversion H. subst l. clear H.
  eexists. split; [reflexivity|]. split; reflexivity.
Qed.

(** C10. [Y_scale] and [Y_zero_point] are optional independently of each
    other.  Take any call that reaches the image loop and supply any choice
    of the two in it, both, neither or only one: [Compute] returns
    [Status::OK()], and the requantizations of the run, one per tile of every
    image, use the output scales and the output zero point that the
    validators hand out for that choice.  Without [Y_zero_point] that output
    zero point is 0, and the zero-point validation accepts well-formed [X]
    and [W] zero points; without [Y_scale] the scale validation accepts
    well-formed [X] and [W] scales and every output scale is
    [X_scale * W_scale[i]], with no division. *)
Theorem Compute_optional_output_quantization :
  forall (env : Platform) (self : QLinearConv) (context : OpKernelContext)
         (Y_scale : option (Tensor float)) (Y_zero_point : option (Tensor Z))
         (l : Locals),
    snd (Compute_prepare env self context) = Next l ->
    let call := with_Y_quantization context Y_scale Y_zero_point in
    let run := Compute env self call in
    let ca := conv_attrs l in
    let M := ConvAttributesInFlight.M ca in
    let output_image_size := ConvAttributesInFlight.output_image_size ca in
    let tiles :=
      Z.min (ComputeMaxThreadCount (IsHybrid env) output_image_size
               (group_output_channels (dispatch l))
               (group_input_channels (dispatch l)
                * ConvAttributesInFlight.kernel_size ca))
            (DegreeOfParallelism context) in
    let output_data := fun image_id =>
      if channels_last_ self
      then At Ydata (image_id * (M * output_image_size))
      else At transpose_output_buffer 0 in
    let X_scale_value := nth 0 (Data (Input_X_scale context)) (S754_zero false) in
    let W_scale_data := Data (Input_W_scale context) in
    let output_scales := snd (snd (Compute_scales call ca)) in
    let Y_zero_point_value := snd (fst (snd (Compute_zero_points call ca))) in
    compute_result run = Returned Status_OK
    /\ filter is_MlasRequantizeOutput (compute_trace run)
       = flat_map
           (fun image_id =>
              map (fun batch =>
                     let work := PartitionWork env batch tiles output_image_size in
                     let output_start := fst work in
                     let output_count := snd work - fst work in
                     CallMlasRequantizeOutput
                       (At gemm_output (output_start * M))
                       (ptr_add (output_data image_id) (output_start * M))
                       (match Input_B context with Some _ => true | None => false end)
                       (to_size_t output_count)
                       (to_size_t M)
                       output_scales
                       (1 <? Z.of_nat (length output_scales))
                       Y_zero_point_value)
                  (range tiles))
           (range (ConvAttributesInFlight.N ca))
    /\ (Y_zero_point = None ->
        Y_zero_point_value = 0
        /\ (IsScalarOr1ElementVector (Input_X_zero_point context) = true ->
            per_tensor_or_per_channel (Shape (Input_W_zero_point context)) M ->
            (forall i, 1 <= i < Size (Shape (Input_W_zero_point context)) ->
                       nth (Z.to_nat i) (Data (Input_W_zero_point context)) 0
                       = nth 0 (Data (Input_W_zero_point context)) 0) ->
            fst (Compute_zero_points call ca) = Status_OK))
    /\ (Y_scale = None ->
        IsScalarOr1ElementVector (Input_X_scale context) = true ->
        per_tensor_or_per_channel (Shape (Input_W_scale context)) M ->
        fst (Compute_scales call ca) = Status_OK
        /\ output_scales
           = map (fun i => float_mul X_scale_value
                                     (nth (Z.to_nat i) W_scale_data (S754_zero false)))
                 (range (Size (Shape (Input_W_scale context))))).
Proof.
  intros env self context Y_scale Y_zero_point l Hloop. cbv zeta.
  destruct (Compute_prepare_with_Y_quantization env self context Y_scale
              Y_zero_point l Hloop) as [l' [Hloop' [Hca Hd]]].
  split; [|split; [|split]].
  - pose proof (Compute_run env self
                  (with_Y_quantization context Y_scale Y_zero_point)) as Hrun.
    rewrite Hloop' in Hrun. now rewrite Hrun.
  - pose proof (Compute_requantizations env self
                  (with_Y_quantization context Y_scale Y_zero_point) l' Hloop')
      as Hcalls.
    cbv zeta in Hcalls. rewrite Hca, Hd in Hcalls. exact Hcalls.
  - intros ->. split.
    + apply CheckAndGetZeroPoint_keeps_Y.
    + intros HX HW Hconst. unfold Compute_zero_points.
      cbn [with_Y_quantization Input_X_zero_point Input_W_zero_point
           Input_Y_zero_point].
      now rewrite CheckAndGetZeroPoint_accepts_without_Y.
  - intros -> HX HW. unfold Compute_scales.
    cbn [with_Y_quantization Input_X_scale Input_W_scale Input_Y_scale].
    rewrite CheckAndGetScale_without_Y by assumption. split; reflexivity.
Qed.

Lemma Compute_optional_output_quantization_witness :
  let run :=
    Compute sample_platform sample_kernel
            (with_Y_quantization scaled_context (Some (scalar float_2)) None) in
  compute_result run = Returned Status_OK
  /\ filter is_MlasRequantizeOutput (compute_trace run)
     = [CallMlasRequantizeOutput (At gemm_output 0) (At transpose_output_buffer 0)
          false 4 2
          [float_div float_0_75 float_2; float_div float_3 float_2] true 0].
Proof.
  assert (Hloop : snd (Compute_prepare sample_platform sample_kernel scaled_context)
                  = Next scaled_locals) by reflexivity.
  destruct (Compute_optional_output_quantization sample_platform sample_kernel
              scaled_context (Some (scalar float_2)) None scaled_locals Hloop)
    as [Haccepted [Hcalls _]].
  split; [exact Haccepted|exact Hcalls].
Defined.

(** ** Compute: the transposes around the convolution *)

(** An image of a channels-first kernel: the transpose of the input into the
    scratch input, the convolution on the scratch buffers, the transpose of
    the scratch output into the output tensor. *)
Lemma Compute_image_channels_first (env : Platform) (l : Locals) (image_id : Z) :
  let ca := conv_attrs l in
  ConvAttributesInFlight.channels_last_ ca = false ->
  exists convolution,
    Compute_image env l image_id
    = CallMlasTranspose
        (At Xdata (image_id * (ConvAttributesInFlight.C ca
                               * ConvAttributesInFlight.input_image_size ca)))
        (At transpose_input_buffer 0)
        (to_size_t (ConvAttributesInFlight.C ca))
        (to_size_t (ConvAttributesInFlight.input_image_size ca))
      :: convolution
      ++ [CallMlasTranspose
            (At transpose_output_buffer 0)
            (At Ydata (image_id * (ConvAttributesInFlight.M ca
                                   * ConvAttributesInFlight.output_image_size ca)))
            (to_size_t (ConvAttributesInFlight.output_image_size ca))
            (to_size_t (ConvAttributesInFlight.M ca))]
    /\ Forall works_on_scratch convolution
    /\ length (filter is_MlasRequantizeOutput convolution)
       = Z.to_nat (thread_count l).
Proof.
  cbv zeta. intros Hfirst.
  pose proof (Compute_image_requantizations env l image_id) as Hrequantize.
  cbv zeta in Hrequantize.
  unfold Compute_image in *. cbv zeta in *. rewrite Hfirst in *. cbn [negb] in *.
  set (prepared := if _ && _ && _ then _ else []) in *.
  set (workers := flat_map _ _) in *.
  exists (prepared ++ workers). split; [cbn [app]; now rewrite app_assoc|]. split.
  - apply Forall_app. split.
    + subst prepared. destruct (_ && _ && _); [|constructor].
      apply Forall_forall. intros e He. apply in_map_iff in He.
      destruct He as [g [<- _]]. reflexivity.
    + subst workers. apply Forall_flat_map. apply Forall_forall. intros b _.
      unfold conv_worker. cbv zeta.
      apply Forall_app. split; [|repeat constructor].
      destruct (is_depthwise_conv (dispatch l)); [repeat constructor|].
      apply Forall_flat_map. apply Forall_forall. intros g _.
      unfold conv_worker_group. cbv zeta.
      destruct (has_col_buffer l).
      * destruct (_ =? 2); [|destruct (_ =? 1)];
          repeat (apply Forall_cons; [simpl; auto|]); apply Forall_nil.
      * repeat (apply Forall_cons; [simpl; auto|]); apply Forall_nil.
  - rewrite !filter_app in Hrequantize.
    cbn [filter is_MlasRequantizeOutput app] in Hrequantize.
    rewrite app_nil_r in Hrequantize.
    rewrite filter_app, Hrequantize.
    now rewrite length_map, range_length.
Qed.

(** A channels-last kernel never transposes. *)
Lemma Compute_image_channels_last (env : Platform) (l : Locals) (image_id : Z) :
  ConvAttributesInFlight.channels_last_ (conv_attrs l) = true ->
  filter is_MlasTranspose (Compute_image env l image_id) = [].
Proof.
  intros Hlast. unfold Compute_image. cbv zeta. rewrite Hlast. cbn [negb app].
  rewrite app_nil_r, filter_app, filter_flat_map.
  rewrite (flat_map_nil (fun x => filter is_MlasTranspose (conv_worker env l _ _ x)))
    by (intros b; apply conv_worker_no_transpose).
  destruct (_ && _ && _); [rewrite filter_map_none by reflexivity|]; reflexivity.
Qed.

Lemma works_on_scratch_no_transpose (events : list Event) :
  Forall works_on_scratch events -> filter is_MlasTranspose events = [].
Proof.
  induction 1 as [|e es He _ IH]; [reflexivity|].
  simpl. destruct e; simpl in *; try exact IH. contradiction.
Qed.

(** X11. With channels first, [Compute] transposes each image of the batch into the
    scratch input buffer before the convolution and transposes the result back
    afterwards: the backend calls of every image are the transpose of the
    image's [C x input_image_size] block of [Xdata] into the scratch input,
    then the convolution, which works on the scratch buffers alone and
    requantizes every tile into the scratch output, then the transpose of the
    scratch output into the image's [output_image_size x M] block of [Ydata];
    two transposes per image.  With channels last it never calls the
    transpose. *)
Theorem Compute_transposes_per_image :
  forall (env : Platform) (self : QLinearConv) (context : OpKernelContext)
         (l : Locals),
    snd (Compute_prepare env self context) = Next l ->
    let ca := conv_attrs l in
    let C := ConvAttributesInFlight.C ca in
    let M := ConvAttributesInFlight.M ca in
    let input_image_size := ConvAttributesInFlight.input_image_size ca in
    let output_image_size := ConvAttributesInFlight.output_image_size ca in
    let tiles :=
      Z.min (ComputeMaxThreadCount (IsHybrid env) output_image_size
               (group_output_channels (dispatch l))
               (group_input_channels (dispatch l)
                * ConvAttributesInFlight.kernel_size ca))
            (DegreeOfParallelism context) in
    let transpose_input := fun image_id =>
      CallMlasTranspose (At Xdata (image_id * (C * input_image_size)))
                        (At transpose_input_buffer 0)
                        (to_size_t C) (to_size_t input_image_size) in
    let transpose_output := fun image_id =>
      CallMlasTranspose (At transpose_output_buffer 0)
                        (At Ydata (image_id * (M * output_image_size)))
                        (to_size_t output_image_size) (to_size_t M) in
    let trace := compute_trace (Compute env self context) in
    (channels_last_ self = true -> filter is_MlasTranspose trace = [])
    /\ (channels_last_ self = false ->
        filter is_MlasTranspose trace
        = flat_map (fun image_id => [transpose_input image_id; transpose_output image_id])
                   (range (ConvAttributesInFlight.N ca))
        /\ exists convolution : Z -> list Event,
             filter is_backend_call trace
             = flat_map (fun image_id =>
                           transpose_input image_id
                           :: convolution image_id ++ [transpose_output image_id])
                        (range (ConvAttributesInFlight.N ca))
             /\ forall image_id,
                  Forall works_on_scratch (convolution image_id)
                  /\ length (filter is_MlasRequantizeOutput (convolution image_id))
                     = Z.to_nat tiles)
    /\ length (filter is_MlasTranspose trace)
       = if channels_last_ self
         then 0%nat
         else (2 * Z.to_nat (ConvAttributesInFlight.N ca))%nat.
Proof.
  intros env self context l Hloop. cbv zeta.
  destruct (Compute_prepare_locals env self context l Hloop)
    as [Hlast [_ [_ [Hkd [Htc _]]]]].
  rewrite <- Hkd, <- Htc.
  assert (Htransposes :
    filter is_MlasTranspose (compute_trace (Compute env self context))
    = flat_map (fun image_id => filter is_MlasTranspose (Compute_image env l image_id))
               (range (ConvAttributesInFlight.N (conv_attrs l)))).
  { apply Compute_trace_filter; [exact Hloop|].
    intros e He; destruct e; simpl in *; try reflexivity; discriminate He. }
  assert (Hlastly : channels_last_ self = true ->
            filter is_MlasTranspose (compute_trace (Compute env self context)) = []).
  { intros Hcl. rewrite Htransposes. apply flat_map_nil. intros image_id.
    apply Compute_image_channels_last. now rewrite Hlast. }
  assert (Hfirstly : channels_last_ self = false ->
            filter is_MlasTranspose (compute_trace (Compute env self context))
            = flat_map
                (fun image_id =>
                   [CallMlasTranspose
                      (At Xdata (image_id * (ConvAttributesInFlight.C (conv_attrs l)
                                             * ConvAttributesInFlight.input_image_size
                                                 (conv_attrs l))))
                      (At transpose_input_buffer 0)
                      (to_size_t (ConvAttributesInFlight.C (conv_attrs l)))
                      (to_size_t (ConvAttributesInFlight.input_image_size (conv_attrs l)));
                    CallMlasTranspose
                      (At transpose_output_buffer 0)
                      (At Ydata (image_id * (ConvAttributesInFlight.M (conv_attrs l)
                                             * ConvAttributesInFlight.output_image_size
                                                 (conv_attrs l))))
                      (to_size_t (ConvAttributesInFlight.output_image_size (conv_attrs l)))
                      (to_size_t (ConvAttributesInFlight.M (conv_attrs l)))])
                (range (ConvAttributesInFlight.N (conv_attrs l)))).
  { intros Hcf. rewrite Htransposes. apply flat_map_ext. intros image_id.
    destruct (Compute_image_channels_first env l image_id) as [conv [Himage [Hscratch _]]];
      [now rewrite Hlast|].
    rewrite Himage. cbn [filter is_MlasTranspose].
    rewrite filter_app, (works_on_scratch_no_transpose conv Hscratch).
    reflexivity. }
  split; [exact Hlastly|]. split.
  - intros Hcf. split; [exact (Hfirstly Hcf)|].
    assert (Hca : ConvAttributesInFlight.channels_last_ (conv_attrs l) = false)
      by now rewrite Hlast.
    exists (fun image_id =>
              removelast (tl (Compute_image env l image_id))).
    split.
    + rewrite (Compute_trace_filter env self context l) by (try exact Hloop; auto).
      apply flat_map_ext. intros image_id.
      rewrite filter_all by apply Compute_image_backend.
      destruct (Compute_image_channels_first env l image_id Hca)
        as [conv [Himage _]].
      rewrite Himage. cbn [tl]. now rewrite removelast_last.
    + intros image_id.
      destruct (Compute_image_channels_first env l image_id Hca)
        as [conv [Himage Hconv]].
      rewrite Himage. cbn [tl]. rewrite removelast_last. exact Hconv.
  - destruct (channels_last_ self).
    + now rewrite Hlastly.
    + rewrite Hfirstly by reflexivity.
      rewrite (flat_map_length_uniform _ 2) by reflexivity.
      rewrite range_length. lia.
Qed.

Lemma Compute_transposes_per_image_witness :
  filter is_MlasTranspose
         (compute_trace (Compute sample_platform sample_kernel tiled_context))
  = [CallMlasTranspose (At Xdata 0) (At transpose_input_buffer 0) 1 32768;
     CallMlasTranspose (At transpose_output_buffer 0) (At Ydata 0) 32768 2;
     CallMlasTranspose (At Xdata 32768) (At transpose_input_buffer 0) 1 32768;
     CallMlasTranspose (At transpose_output_buffer 0) (At Ydata 65536) 32768 2].
Proof.
  assert (Hloop : snd (Compute_prepare sample_platform sample_kernel tiled_context)
                  = Next tiled_locals) by reflexivity.
  destruct (Compute_transposes_per_image sample_platform sample_kernel
              tiled_context tiled_locals Hloop) as [_ [Hfirst _]].
  destruct (Hfirst eq_refl) as [Hcalls _].
  exact Hcalls.
Defined.

(** ** Compute: the requantization of the tiles *)

(** X12. [Compute] cuts every image into [thread_count] tiles, the lesser of
    [ComputeMaxThreadCount] and the degree of parallelism of the thread pool,
    and requantizes each tile of each image exactly once: the requantizations
    of a run are, image by image and tile by tile, the call on the rows
    [PartitionWork(batch, thread_count, output_image_size)] of the
    intermediate buffer into the same rows of the image's output, with the
    output scales and the output zero point of the call. *)
Theorem Compute_requantizes_each_tile_once :
  forall (env : Platform) (self : QLinearConv) (context : OpKernelContext)
         (l : Locals),
    snd (Compute_prepare env self context) = Next l ->
    let ca := conv_attrs l in
    let M := ConvAttributesInFlight.M ca in
    let output_image_size := ConvAttributesInFlight.output_image_size ca in
    let tiles :=
      Z.min (ComputeMaxThreadCount (IsHybrid env) output_image_size
               (group_output_channels (dispatch l))
               (group_input_channels (dispatch l)
                * ConvAttributesInFlight.kernel_size ca))
            (DegreeOfParallelism context) in
    let output_data := fun image_id =>
      if channels_last_ self
      then At Ydata (image_id * (M * output_image_size))
      else At transpose_output_buffer 0 in
    let scales := snd (snd (Compute_scales context ca)) in
    let requantizations :=
      filter is_MlasRequantizeOutput (compute_trace (Compute env self context)) in
    requantizations
    = flat_map
        (fun image_id =>
           map (fun batch =>
                  let work := PartitionWork env batch tiles output_image_size in
                  let output_start := fst work in
                  let output_count := snd work - fst work in
                  CallMlasRequantizeOutput
                    (At gemm_output (output_start * M))
                    (ptr_add (output_data image_id) (output_start * M))
                    (match Input_B context with Some _ => true | None => false end)
                    (to_size_t output_count)
                    (to_size_t M)
                    scales
                    (1 <? Z.of_nat (length scales))
                    (snd (fst (snd (Compute_zero_points context ca)))))
               (range tiles))
        (range (ConvAttributesInFlight.N ca))
    /\ length requantizations
       = (Z.to_nat (ConvAttributesInFlight.N ca) * Z.to_nat tiles)%nat.
Proof.
  intros env self context l Hloop. cbv zeta.
  pose proof (Compute_requantizations env self context l Hloop) as Hcalls.
  cbv zeta in Hcalls. split; [exact Hcalls|].
  rewrite Hcalls.
  rewrite (flat_map_length_uniform _
             (Z.to_nat (Z.min (ComputeMaxThreadCount (IsHybrid env)
                                 (ConvAttributesInFlight.output_image_size (conv_attrs l))
                                 (group_output_channels (dispatch l))
                                 (group_input_channels (dispatch l)
                                  * ConvAttributesInFlight.kernel_size (conv_attrs l)))
                              (DegreeOfParallelism context)))).
  - now rewrite range_length.
  - intros image_id. now rewrite length_map, range_length.
Qed.

Lemma Compute_requantizes_each_tile_once_witness :
  filter is_MlasRequantizeOutput
         (compute_trace (Compute sample_platform sample_kernel tiled_context))
  = [CallMlasRequantizeOutput (At gemm_output 0) (At transpose_output_buffer 0)
       false 16384 2 [float_one] false 0;
     CallMlasRequantizeOutput (At gemm_output 32768) (At transpose_output_buffer 32768)
       false 16384 2 [float_one] false 0;
     CallMlasRequantizeOutput (At gemm_output 0) (At transpose_output_buffer 0)
       false 16384 2 [float_one] false 0;
     CallMlasRequantizeOutput (At gemm_output 32768) (At transpose_output_buffer 32768)
       false 16384 2 [float_one] false 0].
Proof.
  assert (Hloop : snd (Compute_prepare sample_platform sample_kernel tiled_context)
                  = Next tiled_locals) by reflexivity.
  destruct (Compute_requantizes_each_tile_once sample_platform sample_kernel
              tiled_context tiled_locals Hloop) as [Hcalls _].
  exact Hcalls.
Defined.
